(** * Wallet RPC payment building and fee bumping (src/wallet/rpcwallet.cpp)

    A shallow embedding of the payment-building entry points
    ([SendMoneyNew], [sendtoaddress], [sendfromaddress], [sendmany],
    [SendWithOpreturn]) and of the replacement engine ([bumpfee],
    [CalculateMaximumSignedTxSize]) of the wallet RPC layer, of the
    requests that send a payload through [SendWithOpreturn] ([vote],
    [cancelvote], [createtoken], [sendtoken]), of the checks of
    [fundrawtransaction] and of [lockunspent].

    Conventions of the embedding.
    - [CAmount] (int64_t) is a [Z].  The sums and differences of fees and
      balances computed here are taken over [Z]: amounts are bounded by the
      money range, far from the limits of int64_t, where C++ arithmetic
      is undefined anyway.  The one conversion between integer types, the
      [uint64_t] fee of [SendWithOpreturn] stored in a [CAmount], is
      written out ([to_int64]).
    - A C++ exception is the outcome [Throw]; a failed [assert] is the
      outcome [Abort].  State reached before a throw is kept (C++ does not
      roll back), so the monad is state-then-outcome.
    - Requests are typed: the help text, the arity check and the JSON type
      checks of the RPC layer come before everything modelled here.
    - Functions of the wallet, the mempool, the signer and the policy
      layer that live in other translation units are fields of [Env]
      (collaborators); each takes the wallet it reads as an argument. *)

From Stdlib Require Import ZArith Lia.
From stdpp Require Import base option list gmap strings.

Local Open Scope Z_scope.

Set Warnings "-clear-no-such-hyp".

(** ** Primitive data *)

(** [CAmount] is [Z], [uint256] is [N], [CScript] is [list Byte.byte]. *)

#[global] Instance byte_eq_dec : EqDecision Byte.byte := Byte.byte_eq_dec.

(** [CFeeRate]: satoshis per 1000 bytes. *)
Record CFeeRate := mkFeeRate { GetFeePerK : Z }.

Record COutPoint := { prevout_hash : N; prevout_n : Z }.

Record CTxIn := { prevout : COutPoint; scriptSig : list Byte.byte; nSequence : Z }.

Record CTxOut := { nValue : Z; scriptPubKey : list Byte.byte }.

Record CTransaction := { vin : list CTxIn; vout : list CTxOut }.

(** [boost::variant<CNoDestination, CKeyID, CScriptID>] *)
Inductive CTxDestination :=
| CNoDestination
| CKeyID (h : N)
| CScriptID (h : N).

(** A decoded base58 address: validity flag and destination. *)
Record CBitcoinAddress := { IsValid : bool; Get : CTxDestination }.

#[global] Instance CTxDestination_eq_dec : EqDecision CTxDestination.
Proof. solve_decision. Defined.

#[global] Instance CBitcoinAddress_eq_dec : EqDecision CBitcoinAddress.
Proof. solve_decision. Defined.

Record CRecipient := { r_scriptPubKey : list Byte.byte; nAmount : Z; fSubtractFeeFromAmount : bool }.

Record CCoinControl := {
  destChange : CTxDestination;
  fAllowOtherInputs : bool;
  nMinimumTotalFee : Z
}.

(** Default-constructed [CCoinControl] ([SetNull]). *)
Definition CCoinControl_null : CCoinControl :=
  {| destChange := CNoDestination; fAllowOtherInputs := false; nMinimumTotalFee := 0 |}.

Record CWalletTx := {
  tx : CTransaction;
  mapValue : gmap string string;
  vOrderForm : list (string * string);
  strFromAccount : string;
  fTimeReceivedIsTxTime : bool;
  fFromMe : bool
}.

Record CValidationState := { IsInvalid : bool; GetRejectReason : string }.

Record CWallet := {
  mapWallet : gmap N CWalletTx;
  IsLocked : bool;
  GetBroadcastTransactions : bool;
  setKeyPool : list Z
}.

(** ** Errors *)

Inductive RPCErrorCode :=
| RPC_MISC_ERROR
| RPC_TYPE_ERROR
| RPC_INVALID_ADDRESS_OR_KEY
| RPC_INVALID_PARAMETER
| RPC_INVALID_REQUEST
| RPC_INTERNAL_ERROR
| RPC_CLIENT_P2P_DISABLED
| RPC_WALLET_ERROR
| RPC_WALLET_INSUFFICIENT_FUNDS
| RPC_WALLET_INVALID_ACCOUNT_NAME
| RPC_WALLET_UNLOCK_NEEDED.

(** Arguments of a [strprintf] format. *)
Inductive FmtArg :=
| ArgStr (s : string)
| ArgHash (h : N)
| ArgMoney (a : Z).

Record Message := strprintf { fmt : string; fmt_args : list FmtArg }.

Definition msg (s : string) : Message := strprintf s [].

Record RPCError := JSONRPCError { code : RPCErrorCode; message : Message }.

Inductive Outcome (A : Type) :=
| Return (a : A)
| Throw (e : RPCError)
| Abort.
Arguments Return {A} a.
Arguments Throw {A} e.
Arguments Abort {A}.

#[global] Instance Outcome_ret : MRet Outcome := fun A a => Return a.
#[global] Instance Outcome_bind : MBind Outcome := fun A B f m =>
  match m with
  | Return a => f a
  | Throw e => Throw e
  | Abort => Abort
  end.

(** [if (c) throw e;] *)
Definition throw_if (c : bool) (e : RPCError) : Outcome unit :=
  if c then Throw e else Return tt.

(** [assert(c);] *)
Definition assert (c : bool) : Outcome unit :=
  if c then Return tt else Abort.

(** ** Observable effects *)

Inductive Event :=
| Ev_CReserveKey
| Ev_CreateTransaction (vecSend : list CRecipient) (coinControl : option CCoinControl)
    (pfromAddress : option CTxDestination) (opdata : option (list Byte.byte))
| Ev_CommitTransaction (wtx : CWalletTx)
| Ev_MarkReplaced (originalHash newHash : N).

Record State := { wallet : CWallet; events : list Event }.

Definition RPC (A : Type) : Type := State -> Outcome A * State.

#[global] Instance RPC_ret : MRet RPC := fun A a s => (Return a, s).
#[global] Instance RPC_bind : MBind RPC := fun A B f m s =>
  match m s with
  | (Return a, s') => f a s'
  | (Throw e, s') => (Throw e, s')
  | (Abort, s') => (Abort, s')
  end.

(** A computation that only reads the wallet. *)
Definition reading {A} (f : CWallet -> Outcome A) : RPC A :=
  fun s => (f (wallet s), s).

Definition lift {A} (o : Outcome A) : RPC A := fun s => (o, s).

Definition emit (e : Event) : RPC unit :=
  fun s => (Return tt, {| wallet := wallet s; events := events s ++ [e] |}).

(** ** JSON values *)

Inductive UniValue :=
| VNULL
| VSTR (val : string)
| VNUM (val : string).

(** [get_str] raises [std::runtime_error] on a non-string; the RPC
    dispatcher reports it as a miscellaneous error. *)
Definition get_str (v : UniValue) : Outcome string :=
  match v with
  | VSTR s => Return s
  | _ => Throw (JSONRPCError RPC_MISC_ERROR (msg "JSON value is not a string as expected"))
  end.

Definition isNull (v : UniValue) : bool :=
  match v with VNULL => true | _ => false end.

(** [obj[key]]: the value of the first member named [key], or null. *)
Definition find_value (obj : list (string * UniValue)) (key : string) : UniValue :=
  match list_find (fun kv => kv.1 = key) obj with
  | Some (_, kv) => kv.2
  | None => VNULL
  end.

(** [get_int] and [get_int64] read a number into a C++ [int], respectively
    an [int64_t]; on a number that does not fit they raise
    [std::runtime_error], which the RPC dispatcher reports as a miscellaneous
    error.  The number is given by its value. *)
Definition err_json_range : RPCError :=
  JSONRPCError RPC_MISC_ERROR (msg "JSON integer out of range").

Definition get_int (v : Z) : Outcome Z :=
  throw_if (negb ((- 2 ^ 31 <=? v) && (v <? 2 ^ 31))) err_json_range;;
  Return v.

Definition get_int64 (v : Z) : Outcome Z :=
  throw_if (negb ((- 2 ^ 63 <=? v) && (v <? 2 ^ 63))) err_json_range;;
  Return v.

(** ** Collaborators *)

Record CreateResult := {
  cr_ok : bool;
  cr_wtxNew : CWalletTx;
  cr_nFeeRequired : Z;
  cr_strFailReason : string;
  cr_wallet : CWallet
}.

Record Env := {
  (* globals *)
  g_connman : bool;
  incrementalRelayFee : CFeeRate;
  WALLET_INCREMENTAL_RELAY_FEE : Z;
  maxTxFee : Z;
  dustRelayFee : CFeeRate;
  nTxConfirmTarget : Z;
  (* CFeeRate arithmetic (amount.cpp) *)
  CFeeRate_of : Z -> Z -> CFeeRate;          (* CFeeRate(nFeePaid, nBytes) *)
  GetFee : CFeeRate -> Z -> Z;               (* rate.GetFee(nBytes) *)
  (* mempool *)
  mempool_find : N -> option Z;              (* mapTx.find(hash)->GetCountWithDescendants() *)
  mempool_GetMinFee : CFeeRate;
  (* chain / policy *)
  GetDepthInMainChain : CWalletTx -> Z;
  SignalsOptInRBF : CTransaction -> bool;
  GetVirtualTransactionSize : CTransaction -> Z;
  GetDustThreshold : CTxOut -> CFeeRate -> Z;
  GetValueOut : CTransaction -> Z;
  GetHash : CTransaction -> N;
  uint256_ToString : N -> string;
  FormatStateMessage : CValidationState -> string;
  GetScriptForDestination : CTxDestination -> list Byte.byte;
  CBitcoinAddress_of : string -> CBitcoinAddress;
  AmountFromValue : UniValue -> RPCError + Z;
  (* wallet *)
  HasWalletSpend : CWallet -> N -> bool;
  IsAllFromMe : CWallet -> CTransaction -> bool;
  IsChange : CWallet -> CTxOut -> bool;
  GetDebit : CWallet -> CWalletTx -> Z;
  DummySignTx : CWallet -> CTransaction -> option CTransaction;
  GetRequiredFee : Z -> Z;
  GetMinimumFee : Z -> Z -> option Z -> Z;
  ProduceSignature : CWallet -> CTransaction -> Z -> Z -> list Byte.byte -> option (list Byte.byte);
  GetAddressBalance : CWallet -> CTxDestination -> Z;
  SelectAddress : CWallet -> Z -> option Z -> option (CTxDestination * Z);
  CreateOpReturn : Z -> list Byte.byte -> list Byte.byte;
  CreateTransaction : CWallet -> list CRecipient -> CWalletTx -> option CCoinControl ->
                      option CTxDestination -> option (list Byte.byte) -> CreateResult;
  CommitTransaction : CWallet -> CWalletTx -> bool * CValidationState * CWallet;
  MarkReplaced : CWallet -> N -> N -> bool * CWallet
}.

(** ** EnsureWalletIsUnlocked *)

Definition EnsureWalletIsUnlocked (w : CWallet) : Outcome unit :=
  throw_if (IsLocked w)
    (JSONRPCError RPC_WALLET_UNLOCK_NEEDED
       (msg "Error: Please enter the wallet passphrase with walletpassphrase first.")).

(** ** bumpfee: eligibility *)

Definition err_not_in_wallet : RPCError :=
  JSONRPCError RPC_INVALID_ADDRESS_OR_KEY (msg "Invalid or non-wallet transaction id").
Definition err_wallet_descendants : RPCError :=
  JSONRPCError RPC_MISC_ERROR (msg "Transaction has descendants in the wallet").
Definition err_mempool_descendants : RPCError :=
  JSONRPCError RPC_MISC_ERROR (msg "Transaction has descendants in the mempool").
Definition err_mined : RPCError :=
  JSONRPCError RPC_INVALID_ADDRESS_OR_KEY
    (msg "Transaction has been mined, or is conflicted with a mined transaction").
Definition err_not_replaceable : RPCError :=
  JSONRPCError RPC_INVALID_ADDRESS_OR_KEY (msg "Transaction is not BIP 125 replaceable").
Definition err_already_bumped (hash : N) (by_txid : string) : RPCError :=
  JSONRPCError RPC_INVALID_REQUEST
    (strprintf "Cannot bump transaction %s which was already bumped by transaction %s"
       [ArgHash hash; ArgStr by_txid]).
Definition err_not_all_mine : RPCError :=
  JSONRPCError RPC_INVALID_ADDRESS_OR_KEY
    (msg "Transaction contains inputs that don't belong to this wallet").
Definition err_multiple_change : RPCError :=
  JSONRPCError RPC_MISC_ERROR (msg "Transaction has multiple change outputs").
Definition err_no_change : RPCError :=
  JSONRPCError RPC_MISC_ERROR (msg "Transaction does not have a change output").

(** [it != mempool.mapTx.end() && it->GetCountWithDescendants() > 1] *)
Definition has_mempool_descendants (env : Env) (hash : N) : bool :=
  match mempool_find env hash with
  | Some n => 1 <? n
  | None => false
  end.

(** The loop that looks for the change output; [nOutput] is the C++ [int]
    initialised to [-1], [i] the loop index. *)
Fixpoint find_change (env : Env) (w : CWallet) (outs : list CTxOut) (i nOutput : Z)
  : Outcome Z :=
  match outs with
  | [] => Return nOutput
  | o :: rest =>
      if IsChange env w o then
        if negb (nOutput =? -1) then Throw err_multiple_change
        else find_change env w rest (i + 1) i
      else find_change env w rest (i + 1) nOutput
  end.

Definition bumpfee_eligible (env : Env) (hash : N) (w : CWallet) : Outcome (CWalletTx * Z) :=
  EnsureWalletIsUnlocked w;;
  wtx ← match mapWallet w !! hash with
        | None => Throw err_not_in_wallet
        | Some wtx => Return wtx
        end;
  throw_if (HasWalletSpend env w hash) err_wallet_descendants;;
  throw_if (has_mempool_descendants env hash) err_mempool_descendants;;
  throw_if (negb (GetDepthInMainChain env wtx =? 0)) err_mined;;
  throw_if (negb (SignalsOptInRBF env (tx wtx))) err_not_replaceable;;
  match mapValue wtx !! "replaced_by_txid"%string with
  | Some by_txid => Throw (err_already_bumped hash by_txid)
  | None => Return tt
  end;;
  (* check that original tx consists entirely of our inputs *)
  throw_if (negb (IsAllFromMe env w (tx wtx))) err_not_all_mine;;
  (* figure out which output was change *)
  nOutput ← find_change env w (vout (tx wtx)) 0 (-1);
  throw_if (nOutput =? -1) err_no_change;;
  Return (wtx, nOutput).

(** ** CalculateMaximumSignedTxSize *)

(** [mi != mapWallet.end() && input.prevout.n < mi->second.tx->vout.size()];
    [prevout.n] is unsigned. *)
Definition prevout_in_wallet (w : CWallet) (input : CTxIn) : bool :=
  match mapWallet w !! prevout_hash (prevout input) with
  | Some prev => prevout_n (prevout input) <? Z.of_nat (length (vout (tx prev)))
  | None => false
  end.

Fixpoint lookup_inputs (w : CWallet) (ins : list CTxIn) : Outcome unit :=
  match ins with
  | [] => Return tt
  | input :: rest => assert (prevout_in_wallet w input);; lookup_inputs w rest
  end.

Definition CalculateMaximumSignedTxSize (env : Env) (w : CWallet) (t : CTransaction)
  : Outcome Z :=
  lookup_inputs w (vin t);;
  match DummySignTx env w t with
  | None => Throw (JSONRPCError RPC_INVALID_ADDRESS_OR_KEY
                     (msg "Transaction contains inputs that cannot be signed"))
  | Some txNew => Return (GetVirtualTransactionSize env txNew)
  end.

(** ** bumpfee: options and fee computation *)

(** The options object after [RPCTypeCheckObj]: [confTarget] and [totalFee]
    are numbers, given by their integer values, [replaceable] is a
    boolean; each may be absent. *)
Record BumpOptions := {
  opt_confTarget : option Z;
  opt_totalFee : option Z;
  opt_replaceable : option bool
}.

Record ParsedOptions := {
  specifiedConfirmTarget : bool;
  newConfirmTarget : Z;
  totalFee : Z;
  replaceable : bool
}.

Definition bumpfee_options (env : Env) (maxNewTxSize : Z) (options : option BumpOptions)
  : Outcome ParsedOptions :=
  match options with
  | None =>
      Return {| specifiedConfirmTarget := false; newConfirmTarget := nTxConfirmTarget env;
                totalFee := 0; replaceable := true |}
  | Some o =>
      p ← match opt_confTarget o, opt_totalFee o with
          | Some _, Some _ =>
              Throw (JSONRPCError RPC_INVALID_PARAMETER
                       (msg "confTarget and totalFee options should not both be set. Please provide either a confirmation target for fee estimation or an explicit total fee for the transaction."))
          | Some ct, None =>
              newConfirmTarget ← get_int ct;
              throw_if (newConfirmTarget <=? 0)
                (JSONRPCError RPC_INVALID_PARAMETER (msg "Invalid confTarget (cannot be <= 0)"));;
              Return (true, newConfirmTarget, 0)
          | None, Some tf =>
              totalFee ← get_int64 tf;
              let requiredFee := GetRequiredFee env maxNewTxSize in
              throw_if (totalFee <? requiredFee)
                (JSONRPCError RPC_INVALID_PARAMETER
                   (strprintf "Insufficient totalFee (cannot be less than required fee %s)"
                      [ArgMoney requiredFee]));;
              Return (false, nTxConfirmTarget env, totalFee)
          | None, None => Return (false, nTxConfirmTarget env, 0)
          end;
      Return {| specifiedConfirmTarget := p.1.1; newConfirmTarget := p.1.2; totalFee := p.2;
                replaceable := default true (opt_replaceable o) |}
  end.

Record FeeComputed := {
  txSize : Z;
  maxNewTxSize : Z;
  nOldFee : Z;
  nOldFeeRate : CFeeRate;
  nNewFee : Z;
  nNewFeeRate : CFeeRate
}.

(** [walletIncrementalRelayFee]: the larger of the wallet's conservative
    constant and the node's incremental relay fee. *)
Definition walletIncrementalRelayFee (env : Env) : CFeeRate :=
  if WALLET_INCREMENTAL_RELAY_FEE env <? GetFeePerK (incrementalRelayFee env)
  then incrementalRelayFee env
  else mkFeeRate (WALLET_INCREMENTAL_RELAY_FEE env).

Definition bumpfee_fee (env : Env) (w : CWallet) (wtx : CWalletTx) (txSize maxNewTxSize : Z)
    (p : ParsedOptions) : Outcome FeeComputed :=
  let nOldFee := GetDebit env w wtx - GetValueOut env (tx wtx) in
  let nOldFeeRate := CFeeRate_of env nOldFee txSize in
  fee ← (if 0 <? totalFee p then
           let minTotalFee := GetFee env nOldFeeRate maxNewTxSize
                              + GetFee env (incrementalRelayFee env) maxNewTxSize in
           throw_if (totalFee p <? minTotalFee)
             (JSONRPCError RPC_INVALID_PARAMETER
                (strprintf "Insufficient totalFee, must be at least %s (oldFee %s + incrementalFee %s)"
                   [ArgMoney minTotalFee; ArgMoney (GetFee env nOldFeeRate maxNewTxSize);
                    ArgMoney (GetFee env (incrementalRelayFee env) maxNewTxSize)]));;
           Return (totalFee p, CFeeRate_of env (totalFee p) maxNewTxSize)
         else
           let nNewFee :=
             if specifiedConfirmTarget p
             then GetMinimumFee env maxNewTxSize (newConfirmTarget p) (Some 0)
             else GetMinimumFee env maxNewTxSize (newConfirmTarget p) None in
           let nNewFeeRate := CFeeRate_of env nNewFee maxNewTxSize in
           let floor := GetFeePerK nOldFeeRate + 1 + GetFeePerK (walletIncrementalRelayFee env) in
           if GetFeePerK nNewFeeRate <? floor
           then Return (GetFee env (mkFeeRate floor) maxNewTxSize, mkFeeRate floor)
           else Return (nNewFee, nNewFeeRate));
  throw_if (maxTxFee env <? fee.1)
    (JSONRPCError RPC_MISC_ERROR
       (strprintf "Specified or calculated fee %s is too high (cannot be higher than maxTxFee %s)"
          [ArgMoney fee.1; ArgMoney (maxTxFee env)]));;
  throw_if (GetFeePerK fee.2 <? GetFeePerK (mempool_GetMinFee env))
    (JSONRPCError RPC_MISC_ERROR
       (strprintf "New fee rate (%s) is less than the minimum fee rate (%s) to get into the mempool. totalFee value should to be at least %s or settxfee value should be at least %s to add transaction."
          [ArgMoney (GetFeePerK fee.2); ArgMoney (GetFeePerK (mempool_GetMinFee env));
           ArgMoney (GetFee env (mempool_GetMinFee env) maxNewTxSize);
           ArgMoney (GetFeePerK (mempool_GetMinFee env))]));;
  Return {| txSize := txSize; maxNewTxSize := maxNewTxSize; nOldFee := nOldFee;
            nOldFeeRate := nOldFeeRate; nNewFee := fee.1; nNewFeeRate := fee.2 |}.

(** ** bumpfee: rebuilding the transaction *)

Definition err_change_too_small : RPCError :=
  JSONRPCError RPC_MISC_ERROR (msg "Change output is too small to bump the fee").

(** [tx.vout.erase(tx.vout.begin() + n)] *)
Definition erase {A} (l : list A) (n : nat) : list A := take n l ++ drop (S n) l.

(** Mark new tx not replaceable: sequence numbers below [0xfffffffe] are raised. *)
Definition mark_final (input : CTxIn) : CTxIn :=
  if nSequence input <? 4294967294
  then {| prevout := prevout input; scriptSig := scriptSig input; nSequence := 4294967294 |}
  else input.

(** Result of the rebuild: the new transaction and the fee it pays
    ([nNewFee] after a discarded dust output was added to it). *)
Definition bumpfee_rebuild (env : Env) (wtx : CWalletTx) (nOutput : Z) (fc : FeeComputed)
    (replaceable : bool) : Outcome (CTransaction * Z) :=
  let nDelta := nNewFee fc - nOldFee fc in
  assert (0 <? nDelta);;
  match vout (tx wtx) !! Z.to_nat nOutput with
  | None => Abort (* index out of range; excluded by the change-output search *)
  | Some poutput =>
      throw_if (nValue poutput <? nDelta) err_change_too_small;;
      let poutput' := {| nValue := nValue poutput - nDelta;
                         scriptPubKey := scriptPubKey poutput |} in
      let r := if nValue poutput' <=? GetDustThreshold env poutput' (dustRelayFee env)
               then (erase (vout (tx wtx)) (Z.to_nat nOutput), nNewFee fc + nValue poutput')
               else (<[Z.to_nat nOutput := poutput']> (vout (tx wtx)), nNewFee fc) in
      let vin' := if replaceable then vin (tx wtx) else mark_final <$> vin (tx wtx) in
      Return ({| vin := vin'; vout := r.1 |}, r.2)
  end.

(** ** bumpfee: signing *)

Definition UpdateTransaction (input : CTxIn) (sigdata : list Byte.byte) : CTxIn :=
  {| prevout := prevout input; scriptSig := sigdata; nSequence := nSequence input |}.

Fixpoint sign_inputs (env : Env) (w : CWallet) (txNewConst : CTransaction)
    (ins : list CTxIn) (nIn : Z) : Outcome (list CTxIn) :=
  match ins with
  | [] => Return []
  | input :: rest =>
      assert (prevout_in_wallet w input);;
      match mapWallet w !! prevout_hash (prevout input) with
      | None => Abort
      | Some prev =>
          match vout (tx prev) !! Z.to_nat (prevout_n (prevout input)) with
          | None => Abort
          | Some o =>
              match ProduceSignature env w txNewConst nIn (nValue o) (scriptPubKey o) with
              | None => Throw (JSONRPCError RPC_WALLET_ERROR (msg "Can't sign transaction."))
              | Some sigdata =>
                  rest' ← sign_inputs env w txNewConst rest (nIn + 1);
                  Return (UpdateTransaction input sigdata :: rest')
              end
          end
      end
  end.

Definition bumpfee_sign (env : Env) (w : CWallet) (t : CTransaction) : Outcome CTransaction :=
  vin' ← sign_inputs env w t (vin t) 0;
  Return {| vin := vin'; vout := vout t |}.

(** ** bumpfee: commit and result *)

Record BumpResult := {
  res_txid : N;
  res_origfee : Z;
  res_fee : Z;
  res_errors : list Message
}.

(** [pwalletMain->CommitTransaction(wtx, reservekey, g_connman.get(), state)] *)
Definition commit (env : Env) (wtx : CWalletTx) : RPC (bool * CValidationState) :=
  fun s =>
    let c := CommitTransaction env (wallet s) wtx in
    (Return c.1, {| wallet := c.2; events := events s ++ [Ev_CommitTransaction wtx] |}).

(** [pwalletMain->MarkReplaced(originalHash, newHash)] *)
Definition mark_replaced (env : Env) (originalHash newHash : N) : RPC bool :=
  fun s =>
    let m := MarkReplaced env (wallet s) originalHash newHash in
    (Return m.1, {| wallet := m.2;
                    events := events s ++ [Ev_MarkReplaced originalHash newHash] |}).

(** The wallet transaction of the replacement: the values of the original
    plus the link back to it. *)
Definition wtxBumped_of (env : Env) (hash : N) (wtx : CWalletTx) (t : CTransaction)
  : CWalletTx :=
  {| tx := t;
     mapValue := <["replaces_txid"%string := uint256_ToString env hash]> (mapValue wtx);
     vOrderForm := vOrderForm wtx;
     strFromAccount := strFromAccount wtx;
     fTimeReceivedIsTxTime := true;
     fFromMe := true |}.

(** The entry of [errors] for a rejected transaction:
    [strprintf("Error: The transaction was rejected: %s", FormatStateMessage(state))]. *)
Definition msg_rejected (env : Env) (state : CValidationState) : Message :=
  strprintf "Error: The transaction was rejected: %s" [ArgStr (FormatStateMessage env state)].

Definition msg_not_marked : Message :=
  msg "Error: Created new bumpfee transaction but could not mark the original transaction as replaced.".

Definition bumpfee_commit (env : Env) (hash : N) (wtx : CWalletTx) (t : CTransaction)
    (nOldFee nNewFee : Z) : RPC BumpResult :=
  emit Ev_CReserveKey;;
  let wtxBumped := wtxBumped_of env hash wtx t in
  c ← commit env wtxBumped;
  lift (throw_if (negb c.1)
          (JSONRPCError RPC_WALLET_ERROR
             (strprintf "Error: The transaction was rejected! Reason given: %s"
                [ArgStr (GetRejectReason c.2)])));;
  let vErrors := if IsInvalid c.2 then [msg_rejected env c.2] else [] in
  (* mark the original tx as bumped *)
  marked ← mark_replaced env (GetHash env (tx wtx)) (GetHash env t);
  let vErrors := if negb marked then vErrors ++ [msg_not_marked] else vErrors in
  mret {| res_txid := GetHash env t; res_origfee := nOldFee; res_fee := nNewFee;
          res_errors := vErrors |}.

(** Everything up to and including signing only reads the wallet. *)
Record Prepared := {
  p_wtx : CWalletTx;
  p_nOutput : Z;
  p_fee : FeeComputed;
  p_replaceable : bool;
  p_unsigned : CTransaction;
  p_feePaid : Z;
  p_signed : CTransaction
}.

Definition bumpfee_prepare (env : Env) (hash : N) (options : option BumpOptions)
    (w : CWallet) : Outcome Prepared :=
  e ← bumpfee_eligible env hash w;
  let wtx := e.1 in
  let nOutput := e.2 in
  let txSize := GetVirtualTransactionSize env (tx wtx) in
  maxNewTxSize ← CalculateMaximumSignedTxSize env w (tx wtx);
  p ← bumpfee_options env maxNewTxSize options;
  fc ← bumpfee_fee env w wtx txSize maxNewTxSize p;
  r ← bumpfee_rebuild env wtx nOutput fc (replaceable p);
  signed ← bumpfee_sign env w r.1;
  Return {| p_wtx := wtx; p_nOutput := nOutput; p_fee := fc; p_replaceable := replaceable p;
            p_unsigned := r.1; p_feePaid := r.2; p_signed := signed |}.

Definition bumpfee (env : Env) (hash : N) (options : option BumpOptions) : RPC BumpResult :=
  p ← reading (bumpfee_prepare env hash options);
  bumpfee_commit env hash (p_wtx p) (p_signed p) (nOldFee (p_fee p)) (p_feePaid p).

(** ** Payment building *)

Definition insufficient_funds (m : string) : RPCError :=
  JSONRPCError RPC_WALLET_INSUFFICIENT_FUNDS (msg m).

Definition p2p_disabled : RPCError :=
  JSONRPCError RPC_CLIENT_P2P_DISABLED
    (msg "Error: Peer-to-peer functionality missing or disabled").

(** [pwalletMain->CreateTransaction(vecSend, wtxNew, reservekey, nFeeRequired,
    nChangePosRet, strError, coinControl, true, pfromAddress, opdata)] *)
Definition create (env : Env) (vecSend : list CRecipient) (wtxNew : CWalletTx)
    (coinControl : option CCoinControl) (pfromAddress : option CTxDestination)
    (opdata : option (list Byte.byte)) : RPC CreateResult :=
  fun s =>
    let cr := CreateTransaction env (wallet s) vecSend wtxNew coinControl pfromAddress opdata in
    (Return cr,
     {| wallet := cr_wallet cr;
        events := events s ++ [Ev_CreateTransaction vecSend coinControl pfromAddress opdata] |}).

Definition commit_or_throw (env : Env) (wtx : CWalletTx) (prefix : string) : RPC unit :=
  c ← commit env wtx;
  lift (throw_if (negb c.1)
          (JSONRPCError RPC_WALLET_ERROR (strprintf prefix [ArgStr (GetRejectReason c.2)]))).

Definition err_invalid_amount : RPCError :=
  JSONRPCError RPC_INVALID_PARAMETER (msg "Invalid amount").

(** The source address and its balance: the given address if its balance
    covers [nValue], else an address selected by the wallet. *)
Definition SendMoneyNew_source (env : Env) (nValue : Z) (pfromAddress : option CTxDestination)
    (w : CWallet) : Outcome (CTxDestination * Z) :=
  match pfromAddress with
  | Some fromAddress =>
      let balance := GetAddressBalance env w fromAddress in
      throw_if (balance <? nValue) (insufficient_funds "Insufficient funds");;
      Return (fromAddress, balance)
  | None =>
      match SelectAddress env w nValue None with
      | None => Throw (insufficient_funds "Insufficient funds")
      | Some fb => Return fb
      end
  end.

Definition SendMoneyNew (env : Env) (address : CTxDestination) (nValue : Z)
    (fSubtractFee : bool) (wtxNew : CWalletTx) (pfromAddress : option CTxDestination)
  : RPC CWalletTx :=
  (* Check amount *)
  lift (throw_if (nValue <=? 0) err_invalid_amount);;
  fb ← reading (SendMoneyNew_source env nValue pfromAddress);
  reading (fun w => throw_if (GetBroadcastTransactions w && negb (g_connman env)) p2p_disabled);;
  (* Create and send the transaction *)
  emit Ev_CReserveKey;;
  let recipient := {| r_scriptPubKey := GetScriptForDestination env address;
                      nAmount := nValue; fSubtractFeeFromAmount := fSubtractFee |} in
  cr ← create env [recipient] wtxNew None (Some fb.1) None;
  lift (throw_if (negb (cr_ok cr))
          (JSONRPCError RPC_WALLET_ERROR
             (if negb fSubtractFee && (fb.2 <? nValue + cr_nFeeRequired cr)
              then strprintf "Error: This transaction requires a transaction fee of at least %s"
                     [ArgMoney (cr_nFeeRequired cr)]
              else msg (cr_strFailReason cr))));;
  commit_or_throw env (cr_wtxNew cr) "Error: The transaction was rejected! Reason given: %s";;
  mret (cr_wtxNew cr).

(** A default-constructed [CWalletTx]. *)
Definition CWalletTx_null : CWalletTx :=
  {| tx := {| vin := []; vout := [] |}; mapValue := ∅; vOrderForm := []; strFromAccount := EmptyString;
     fTimeReceivedIsTxTime := false; fFromMe := false |}.

Definition set_mapValue (key value : string) (wtx : CWalletTx) : CWalletTx :=
  {| tx := tx wtx; mapValue := <[key := value]> (mapValue wtx); vOrderForm := vOrderForm wtx;
     strFromAccount := strFromAccount wtx; fTimeReceivedIsTxTime := fTimeReceivedIsTxTime wtx;
     fFromMe := fFromMe wtx |}.

(** [if (params.size() > i && !params[i].isNull() && !params[j].get_str().empty())
      wtx.mapValue[key] = params[i].get_str();] *)
Definition wallet_comment (key : string) (param : option UniValue) (tested : option UniValue)
    (wtx : CWalletTx) : Outcome CWalletTx :=
  match param, tested with
  | Some p, Some t =>
      if isNull p then Return wtx
      else s ← get_str t;
           if String.eqb s EmptyString then Return wtx
           else v ← get_str p; Return (set_mapValue key v wtx)
  | _, _ => Return wtx
  end.

Definition err_invalid_amount_for_send : RPCError :=
  JSONRPCError RPC_TYPE_ERROR (msg "Invalid amount for send").

(** [CAmount nAmount = AmountFromValue(v); if (nAmount <= 0) throw ...] *)
Definition check_send_amount (env : Env) (v : UniValue) : Outcome Z :=
  nAmount ← match AmountFromValue env v with
            | inl e => Throw e
            | inr nAmount => Return nAmount
            end;
  throw_if (nAmount <=? 0) err_invalid_amount_for_send;;
  Return nAmount.

Definition check_address (env : Env) (s : string) : Outcome CBitcoinAddress :=
  let address := CBitcoinAddress_of env s in
  throw_if (negb (IsValid address))
    (JSONRPCError RPC_INVALID_ADDRESS_OR_KEY (msg "Invalid Bitcoin address"));;
  Return address.

Definition sendtoaddress (env : Env) (addr : string) (amount : UniValue)
    (comment comment_to : option UniValue) (subtractfee : option bool) : RPC N :=
  address ← lift (check_address env addr);
  nAmount ← lift (check_send_amount env amount);
  wtx ← lift (wallet_comment "comment" comment comment CWalletTx_null);
  wtx ← lift (wallet_comment "to" comment_to comment_to wtx);
  reading EnsureWalletIsUnlocked;;
  wtx ← SendMoneyNew env (Get address) nAmount (default false subtractfee) wtx None;
  mret (GetHash env (tx wtx)).

(** The comment tests of [sendfromaddress] read the parameter one position
    before the one they store ([params[2]] for the comment, [params[3]] for
    the comment_to), as the source does. *)
Definition sendfromaddress (env : Env) (from addr : string) (amount : UniValue)
    (comment comment_to : option UniValue) (subtractfee : option bool) : RPC N :=
  fromAddress ← lift (check_address env from);
  address ← lift (check_address env addr);
  nAmount ← lift (check_send_amount env amount);
  wtx ← lift (wallet_comment "comment" comment (Some amount) CWalletTx_null);
  wtx ← lift (wallet_comment "to" comment_to comment wtx);
  reading EnsureWalletIsUnlocked;;
  wtx ← SendMoneyNew env (Get address) nAmount (default false subtractfee) wtx
          (Some (Get fromAddress));
  mret (GetHash env (tx wtx)).

(** ** sendmany *)

Definition AccountFromValue (value : UniValue) : Outcome string :=
  strAccount ← get_str value;
  throw_if (String.eqb strAccount "*")
    (JSONRPCError RPC_WALLET_INVALID_ACCOUNT_NAME (msg "Invalid account name"));;
  Return strAccount.

(** The inner loop over the [subtractfeefrom] array. *)
Fixpoint subtract_fee_from (subtractFeeFromAmount : list UniValue) (name_ : string)
    (fSubtract : bool) : Outcome bool :=
  match subtractFeeFromAmount with
  | [] => Return fSubtract
  | addr :: rest =>
      s ← get_str addr;
      subtract_fee_from rest name_ (if String.eqb s name_ then true else fSubtract)
  end.

(** The loop-carried variables of the loop over the keys of [amounts]. *)
Record SendManyLoop := {
  setAddress : list CBitcoinAddress;
  vecSend : list CRecipient;
  totalAmount : Z
}.

Definition err_duplicated_address (name_ : string) : RPCError :=
  JSONRPCError RPC_INVALID_PARAMETER
    (strprintf "Invalid parameter, duplicated address: %s" [ArgStr name_]).

(** One iteration of the loop over the keys of the [amounts] object. *)
Definition sendmany_step (env : Env) (sendTo : list (string * UniValue))
    (subtractFeeFromAmount : list UniValue) (acc : SendManyLoop) (name_ : string)
  : Outcome SendManyLoop :=
  let address := CBitcoinAddress_of env name_ in
  throw_if (negb (IsValid address))
    (JSONRPCError RPC_INVALID_ADDRESS_OR_KEY
       (strprintf "Invalid Bitcoin address: %s" [ArgStr name_]));;
  throw_if (bool_decide (address ∈ setAddress acc)) (err_duplicated_address name_);;
  nAmount ← check_send_amount env (find_value sendTo name_);
  fSubtract ← subtract_fee_from subtractFeeFromAmount name_ false;
  let recipient := {| r_scriptPubKey := GetScriptForDestination env (Get address);
                      nAmount := nAmount; fSubtractFeeFromAmount := fSubtract |} in
  Return {| setAddress := address :: setAddress acc;
            vecSend := vecSend acc ++ [recipient];
            totalAmount := totalAmount acc + nAmount |}.

Fixpoint sendmany_recipients (env : Env) (sendTo : list (string * UniValue))
    (subtractFeeFromAmount : list UniValue) (keys : list string) (acc : SendManyLoop)
  : Outcome SendManyLoop :=
  match keys with
  | [] => Return acc
  | name_ :: rest =>
      acc' ← sendmany_step env sendTo subtractFeeFromAmount acc name_;
      sendmany_recipients env sendTo subtractFeeFromAmount rest acc'
  end.

Definition SendManyLoop_init : SendManyLoop :=
  {| setAddress := []; vecSend := []; totalAmount := 0 |}.

Definition check_optional_address (env : Env) (s : string) : Outcome unit :=
  if String.eqb s EmptyString then Return tt
  else throw_if (negb (IsValid (CBitcoinAddress_of env s)))
         (JSONRPCError RPC_INVALID_ADDRESS_OR_KEY
            (strprintf "Invalid Bitcoin address: %s" [ArgStr s])).

Record SendManyParams := {
  sm_fromaccount : UniValue;
  sm_amounts : list (string * UniValue);
  sm_fromaddress : string;
  sm_changeaddress : string;
  sm_minconf : option Z;
  sm_comment : option UniValue;
  sm_subtractfeefrom : option (list UniValue)
}.

(** The checks of [sendmany] that precede the loop over the recipients;
    the result is the wallet transaction carrying account and comment. *)
Definition sendmany_prelim (env : Env) (params : SendManyParams) (w : CWallet)
  : Outcome CWalletTx :=
  throw_if (GetBroadcastTransactions w && negb (g_connman env)) p2p_disabled;;
  strAccount ← AccountFromValue (sm_fromaccount params);
  check_optional_address env (sm_fromaddress params);;
  check_optional_address env (sm_changeaddress params);;
  let wtx := {| tx := tx CWalletTx_null; mapValue := ∅; vOrderForm := [];
                strFromAccount := strAccount; fTimeReceivedIsTxTime := false;
                fFromMe := false |} in
  wallet_comment "comment" (sm_comment params) (sm_comment params) wtx.

(** Everything [sendmany] does before it looks at balances: the
    preliminary checks, the loop over the recipients and the unlock
    check.  It only reads the wallet. *)
Definition sendmany_validate (env : Env) (params : SendManyParams) (w : CWallet)
  : Outcome (CWalletTx * SendManyLoop) :=
  wtx ← sendmany_prelim env params w;
  let subtractFeeFromAmount := default [] (sm_subtractfeefrom params) in
  rs ← sendmany_recipients env (sm_amounts params) subtractFeeFromAmount
         ((sm_amounts params).*1) SendManyLoop_init;
  EnsureWalletIsUnlocked w;;
  Return (wtx, rs).

Definition err_insufficient_simple : RPCError :=
  insufficient_funds "Account has insufficient funds from a simple address".

(** The source address: the given one if its balance covers the total,
    else one selected by the wallet. *)
Definition sendmany_source (env : Env) (params : SendManyParams) (totalAmount : Z)
    (w : CWallet) : Outcome CTxDestination :=
  let strFromAddress := sm_fromaddress params in
  let nMinDepth := default 1 (sm_minconf params) in
  if negb (String.eqb strFromAddress EmptyString) then
    let fromAddress := Get (CBitcoinAddress_of env strFromAddress) in
    throw_if (GetAddressBalance env w fromAddress <? totalAmount) err_insufficient_simple;;
    Return fromAddress
  else
    match SelectAddress env w totalAmount (Some nMinDepth) with
    | None => Throw err_insufficient_simple
    | Some fb => Return fb.1
    end.

Definition sendmany (env : Env) (params : SendManyParams) : RPC N :=
  v ← reading (sendmany_validate env params);
  let wtx := v.1 in
  let vecSend := vecSend v.2 in
  let totalAmount := totalAmount v.2 in
  fromAddress ← reading (sendmany_source env params totalAmount);
  (* Send *)
  emit Ev_CReserveKey;;
  let cControl := {| destChange := Get (CBitcoinAddress_of env (sm_changeaddress params));
                     fAllowOtherInputs := fAllowOtherInputs CCoinControl_null;
                     nMinimumTotalFee := nMinimumTotalFee CCoinControl_null |} in
  cr ← create env vecSend wtx (Some cControl) (Some fromAddress) None;
  lift (throw_if (negb (cr_ok cr))
          (JSONRPCError RPC_WALLET_INSUFFICIENT_FUNDS (msg (cr_strFailReason cr))));;
  commit_or_throw env (cr_wtxNew cr) "Transaction commit failed:: %s";;
  mret (GetHash env (tx (cr_wtxNew cr))).

(** ** SendWithOpreturn *)

(** Conversion of a [uint64_t] to [CAmount] (int64_t). *)
Definition to_int64 (u : Z) : Z :=
  if u <? 2 ^ 63 then u else u - 2 ^ 64.

Definition SendWithOpreturn (env : Env) (address : CBitcoinAddress) (wtxNew : CWalletTx)
    (fee : Z) (nAppID : Z) (vctAppData : list Byte.byte) : RPC CWalletTx :=
  curBalance ← reading (fun w => Return (GetAddressBalance env w (Get address)));
  let coinControl := {| destChange := destChange CCoinControl_null;
                        fAllowOtherInputs := true;
                        nMinimumTotalFee := to_int64 fee |} in
  lift (throw_if (curBalance <? nMinimumTotalFee coinControl)
          (insufficient_funds "Insufficient funds"));;
  reading (fun w => throw_if (GetBroadcastTransactions w && negb (g_connman env)) p2p_disabled);;
  let opdata := CreateOpReturn env nAppID vctAppData in
  lift (throw_if (bool_decide (opdata = []))
          (JSONRPCError RPC_WALLET_ERROR (msg "Error: CreateOpReturn")));;
  emit Ev_CReserveKey;;
  let fromAddress := Get address in
  let recipient := {| r_scriptPubKey := GetScriptForDestination env fromAddress;
                      nAmount := curBalance; fSubtractFeeFromAmount := false |} in
  cr ← create env [recipient] wtxNew (Some coinControl) (Some fromAddress) (Some opdata);
  lift (throw_if (negb (cr_ok cr))
          (JSONRPCError RPC_WALLET_ERROR (msg (cr_strFailReason cr))));;
  commit_or_throw env (cr_wtxNew cr) "Error: The transaction was rejected! Reason given: %s";;
  mret (cr_wtxNew cr).

(** ** Fee-rate arithmetic *)

(** Modelled from the spec: [CFeeRate::GetFee] of amount.cpp, which is not
    among the sources.  The fee of an explicit rate for a size is
    [ceil(rate*size/1000)]. *)
Definition spec_GetFee (rate : CFeeRate) (nBytes : Z) : Z :=
  - ((- (GetFeePerK rate * nBytes)) / 1000).

(** Modelled from the spec: the constructor [CFeeRate(nFeePaid, nBytes)] of
    amount.cpp, which is not among the sources.  The rate is the fee per
    1000 bytes of the size, rounded down (the comment in [bumpfee] adds one
    satoshi to it "because it may have been rounded down"). *)
Definition spec_CFeeRate_of (nFeePaid nBytes : Z) : CFeeRate :=
  mkFeeRate (nFeePaid * 1000 / nBytes).


(** ** fundrawtransaction: the checks on the decoded transaction *)

(** The loop over [subtractFeeFromOutputs]; [acc] is the
    [std::set<int> setSubtractFeeFromOutputs], [nOut] is
    [int(tx.vout.size())], [itostr] renders the [%d] of the messages. *)
Fixpoint subtract_fee_outputs (itostr : Z -> string) (nOut : Z) (positions : list Z)
    (acc : gset Z) : Outcome (gset Z) :=
  match positions with
  | [] => Return acc
  | pos :: rest =>
      throw_if (bool_decide (pos ∈ acc))
        (JSONRPCError RPC_INVALID_PARAMETER
           (strprintf "Invalid parameter, duplicated position: %d" [ArgStr (itostr pos)]));;
      throw_if (pos <? 0)
        (JSONRPCError RPC_INVALID_PARAMETER
           (strprintf "Invalid parameter, negative position: %d" [ArgStr (itostr pos)]));;
      throw_if (nOut <=? pos)
        (JSONRPCError RPC_INVALID_PARAMETER
           (strprintf "Invalid parameter, position too large: %d" [ArgStr (itostr pos)]));;
      subtract_fee_outputs itostr nOut rest ({[pos]} ∪ acc)
  end.

(** What [fundrawtransaction] checks between decoding the transaction and
    calling [FundTransaction]; the result is the set handed to
    [FundTransaction].  [changePosition] is [-1] when the option is absent. *)
Definition fundrawtransaction_checks (itostr : Z -> string) (t : CTransaction)
    (changePosition : Z) (subtractFeeFromOutputs : list Z) : Outcome (gset Z) :=
  throw_if (bool_decide (length (vout t) = 0%nat))
    (JSONRPCError RPC_INVALID_PARAMETER (msg "TX must have at least one output"));;
  throw_if (negb (changePosition =? -1) &&
            ((changePosition <? 0) || (Z.of_nat (length (vout t)) <? changePosition)))
    (JSONRPCError RPC_INVALID_PARAMETER (msg "changePosition out of bounds"));;
  subtract_fee_outputs itostr (Z.of_nat (length (vout t))) subtractFeeFromOutputs ∅.

(** ** lockunspent *)








(** ** Delegate votes: vote, cancelvote *)

Record CVoteForgerData := { vote_opcode : Z; vote_forgers : gset N }.

Record CCancelVoteForgerData := { cancel_opcode : Z; cancel_forgers : gset N }.

(** The vote registry and the protocol constants, which live in other
    translation units.  A [CKeyID] is an [N], null when zero. *)
Record VoteEnv := {
  OP_VOTE : Z;
  OP_REVOKE : Z;
  DPOS : Z;                                   (* AppID::DPOS *)
  OP_VOTE_FORGER_FEE : Z;
  OP_CANCEL_VOTE_FORGER_FEE : Z;
  MaxNumberOfVotes : Z;                       (* Vote::MaxNumberOfVotes *)
  GetKeyID : CBitcoinAddress -> N;            (* address.GetKeyID(id) *)
  GetDelegate : string -> N;                  (* Vote::GetInstance().GetDelegate(name) *)
  HaveVote : N -> N -> bool;
  GetVotedDelegates : N -> list N;
  CheckStruct_vote : CVoteForgerData -> string;
  CheckStruct_cancel : CCancelVoteForgerData -> string;
  StructToData_vote : CVoteForgerData -> list Byte.byte;
  StructToData_cancel : CCancelVoteForgerData -> list Byte.byte
}.

(** [CBitcoinAddress address(keyID)] *)
Definition CBitcoinAddress_of_key (keyID : N) : CBitcoinAddress :=
  {| IsValid := true; Get := CKeyID keyID |}.

(** The loop-carried variables of the loops over the delegate names. *)
Record VoteLoop := { vl_setAddress : list CBitcoinAddress; vl_forgers : gset N }.

Definition VoteLoop_init : VoteLoop := {| vl_setAddress := []; vl_forgers := ∅ |}.

(** One iteration of the loop of the vote request; [inl] is a [return]
    from inside the loop. *)
Definition vote_step (venv : VoteEnv) (address_id : N) (acc : VoteLoop) (name : string)
  : string + VoteLoop :=
  let keyID := GetDelegate venv name in
  if (keyID =? 0)%N then inl ("delegate name: " +:+ name +:+ " not register")
  else if HaveVote venv address_id keyID then inl ("delegate name: " +:+ name +:+ " is voted")
  else
    let address := CBitcoinAddress_of_key keyID in
    if bool_decide (address ∈ vl_setAddress acc)
    then inl ("Invalid parameter, duplicated name: " +:+ name)
    else inr {| vl_setAddress := address :: vl_setAddress acc;
                vl_forgers := {[keyID]} ∪ vl_forgers acc |}.

(** One iteration of the loop of the cancel request. *)
Definition cancelvote_step (venv : VoteEnv) (address_id : N) (acc : VoteLoop) (name : string)
  : string + VoteLoop :=
  let keyID := GetDelegate venv name in
  if (keyID =? 0)%N then inl ("delegate name: " +:+ name +:+ " not register")
  else if negb (HaveVote venv address_id keyID)
  then inl ("delegate name: " +:+ name +:+ " is not voted")
  else
    let address := CBitcoinAddress_of_key keyID in
    if bool_decide (address ∈ vl_setAddress acc)
    then inl ("Invalid parameter, duplicated name: " +:+ name)
    else if MaxNumberOfVotes venv <=? Z.of_nat (length (vl_setAddress acc))
    then inl "delegates number must not more than 51"
    else inr {| vl_setAddress := address :: vl_setAddress acc;
                vl_forgers := {[keyID]} ∪ vl_forgers acc |}.

(** [for (idx = 1; idx < request.params.size(); idx++)]: the result is the
    string returned from inside the loop, if any, and the variables as
    they stand. *)
Fixpoint names_loop (step : VoteLoop -> string -> string + VoteLoop) (names : list string)
    (acc : VoteLoop) : option string * VoteLoop :=
  match names with
  | [] => (None, acc)
  | name :: rest =>
      match step acc name with
      | inl err => (Some err, acc)
      | inr acc' => names_loop step rest acc'
      end
  end.

(** [JsonToStruct(address, CVoteForgerData&, request)]: the returned string
    and the two output parameters. *)
Definition JsonToStruct_vote (env : Env) (venv : VoteEnv) (addr : string) (names : list string)
  : string * CBitcoinAddress * CVoteForgerData :=
  let address := CBitcoinAddress_of env addr in
  let address_id := GetKeyID venv address in
  if negb (IsValid address)
  then ("Invalid Bitcoin address"%string, address,
        {| vote_opcode := OP_VOTE venv; vote_forgers := ∅ |})
  else
    let l := names_loop (vote_step venv address_id) names VoteLoop_init in
    let data := {| vote_opcode := OP_VOTE venv; vote_forgers := vl_forgers l.2 |} in
    match l.1 with
    | Some err => (err, address, data)
    | None =>
        if MaxNumberOfVotes venv <?
           Z.of_nat (length (vl_setAddress l.2) + length (GetVotedDelegates venv address_id))
        then ("delegates number must not more than 51"%string, address, data)
        else (CheckStruct_vote venv data, address, data)
    end.

(** [JsonToStruct(address, CCancelVoteForgerData&, request)] *)
Definition JsonToStruct_cancelvote (env : Env) (venv : VoteEnv) (addr : string)
    (names : list string) : string * CBitcoinAddress * CCancelVoteForgerData :=
  let address := CBitcoinAddress_of env addr in
  let address_id := GetKeyID venv address in
  if negb (IsValid address)
  then ("Invalid Bitcoin address"%string, address,
        {| cancel_opcode := OP_REVOKE venv; cancel_forgers := ∅ |})
  else
    let l := names_loop (cancelvote_step venv address_id) names VoteLoop_init in
    let data := {| cancel_opcode := OP_REVOKE venv; cancel_forgers := vl_forgers l.2 |} in
    match l.1 with
    | Some err => (err, address, data)
    | None => (CheckStruct_cancel venv data, address, data)
    end.

(** [if (err.empty() == false) throw JSONRPCError(RPC_INVALID_ADDRESS_OR_KEY, err);] *)
Definition throw_unless_empty (err : string) : Outcome unit :=
  throw_if (negb (String.eqb err EmptyString))
    (JSONRPCError RPC_INVALID_ADDRESS_OR_KEY (msg err)).

Definition vote (env : Env) (venv : VoteEnv) (addr : string) (names : list string) : RPC N :=
  let j := JsonToStruct_vote env venv addr names in
  lift (throw_unless_empty j.1.1);;
  let opreturn := StructToData_vote venv j.2 in
  reading EnsureWalletIsUnlocked;;
  wtx ← SendWithOpreturn env j.1.2 CWalletTx_null (OP_VOTE_FORGER_FEE venv) (DPOS venv) opreturn;
  mret (GetHash env (tx wtx)).

Definition cancelvote (env : Env) (venv : VoteEnv) (addr : string) (names : list string)
  : RPC N :=
  let j := JsonToStruct_cancelvote env venv addr names in
  lift (throw_unless_empty j.1.1);;
  let opreturn := StructToData_cancel venv j.2 in
  reading EnsureWalletIsUnlocked;;
  wtx ← SendWithOpreturn env j.1.2 CWalletTx_null (OP_CANCEL_VOTE_FORGER_FEE venv) (DPOS venv)
          opreturn;
  mret (GetHash env (tx wtx)).

(** ** Bill votes: votebill *)

(** The fields of [CSubmitBillData] that the vote on a bill reads. *)
Record CSubmitBillData := { bill_options : list string; bill_endtime : Z }.

Record CVoteBillData := { votebill_opcode : Z; votebill_id : N; votebill_index : Z }.

(** The bill registry, the clock and the string conversions.  [GetRegiste]
    leaves a default-constructed bill, without options, when the id is
    unknown; [stoi] throws on a string that is no number. *)
Record BillEnv := {
  SetHex : string -> N;                        (* data.id.SetHex(s) *)
  stoi : string -> RPCError + Z;
  GetBillVote : N -> list (gmap N Z);          (* GetBill().GetVote(id) *)
  GetBillRegiste : N -> CSubmitBillData;       (* GetBill().GetRegiste(&bill, id) *)
  time_now : Z;                                (* time(NULL) *)
  OP_VOTE_BILL_FEE : Z;
  CheckStruct_votebill : CVoteBillData -> string;
  StructToData_votebill : CVoteBillData -> list Byte.byte
}.

(** [JsonToStruct(address, CVoteBillData&, request)]: the returned string
    and the two output parameters. *)
Definition JsonToStruct_votebill (env : Env) (venv : VoteEnv) (benv : BillEnv)
    (addr id index : string) : Outcome (string * CBitcoinAddress * CVoteBillData) :=
  let address := CBitcoinAddress_of env addr in
  i ← match stoi benv index with
      | inl e => Throw e
      | inr i => Return i
      end;
  let data := {| votebill_opcode := 199;       (* 0xc7 *)
                 votebill_id := SetHex benv id;
                 votebill_index := i mod 256 |} in
  let id := GetKeyID venv address in
  let voters := GetBillVote benv (votebill_id data) in
  if existsb (fun i : gmap N Z => bool_decide (is_Some (i !! id))) voters
  then Return ("This address has voted the bill"%string, address, data)
  else
    let bill := GetBillRegiste benv (votebill_id data) in
    let ret :=
      if bool_decide (length (bill_options bill) = 0%nat) then "bill no exited"%string
      else if Z.of_nat (length (bill_options bill)) <=? votebill_index data
           then "option index Invalid"%string
      else if bill_endtime bill <? time_now benv then "the bill has completed"%string
      else EmptyString in
    let ret := if String.eqb ret EmptyString then CheckStruct_votebill benv data else ret in
    Return (ret, address, data).

Definition votebill (env : Env) (venv : VoteEnv) (benv : BillEnv) (addr id index : string)
  : RPC N :=
  j ← lift (JsonToStruct_votebill env venv benv addr id index);
  lift (throw_unless_empty j.1.1);;
  let opreturn := StructToData_votebill benv j.2 in
  reading EnsureWalletIsUnlocked;;
  wtx ← SendWithOpreturn env j.1.2 CWalletTx_null (OP_VOTE_BILL_FEE benv) (DPOS venv) opreturn;
  mret (GetHash env (tx wtx)).


(** ** Tokens: createtoken, sendtoken *)

(** [static uint32_t coins[]] *)
Definition coins : list Z :=
  [1; 10; 100; 1000; 10000; 100000; 1000000; 10000000; 100000000].

(** Conversion of a [long long] to [int32_t]. *)
Definition to_int32 (z : Z) : Z :=
  let m := z mod 2 ^ 32 in if m <? 2 ^ 31 then m else m - 2 ^ 32.

Record TokenInfo := {
  ti_id : Z;
  ti_symbol : string;
  ti_fromAddress : string;
  ti_tokenAddress : string;
  ti_digits : Z;
  ti_totalamount : Z
}.

(** [LbtcPbMsg::CreateTokenMsg] *)
Record CreateTokenMsg := {
  ctm_opid : Z;
  ctm_symbol : string;
  ctm_name : string;
  ctm_tokenaddress : string;
  ctm_totalamount : Z;
  ctm_digits : Z
}.

(** [LbtcPbMsg::TransferTokenMsg]; the comment is optional. *)
Record TransferTokenMsg := {
  ttm_opid : Z;
  ttm_dstaddress : string;
  ttm_tokenid : Z;
  ttm_amount : Z;
  ttm_comment : option string
}.

(** The token database, the message layer and the protocol constants. *)
Record TokenEnv := {
  atoll : string -> Z;
  CREATETOKEN : Z;
  TRANSFRERTOKEN : Z;
  TOKEN : Z;
  OP_CREATE_TOKEN_FEE : Z;
  OP_SEND_TOKEN_FEE : Z;
  IsValid_create : CreateTokenMsg -> string;      (* IsValid(pbTokenMsg) *)
  IsValid_transfer : TransferTokenMsg -> string;
  Serialize_create : CreateTokenMsg -> list Byte.byte;
  Serialize_transfer : TransferTokenMsg -> list Byte.byte;
  GetAddressName : string -> string;              (* DposDB::GetAddressName *)
  GetToken : string -> option TokenInfo;          (* TokenDB::GetToken, NULL when absent *)
  GetTokens : list (Z * TokenInfo);               (* TokenDB::GetTokens, in key order *)
  GetAddressId : string -> Z;
  GetBalance : Z -> Z -> Z;                       (* uint64_t *)
  ParseFixedPointUnsign : string -> Z -> option Z (* the uint64_t parsed, if any *)
}.

(** Everything [createtoken] does before it takes the wallet lock: the
    owner address and the message to send. *)
Definition createtoken_validate (env : Env) (tenv : TokenEnv)
    (tokenSymbol tokenName ownerAddress tokenAddress totalSupply decimal : string)
  : Outcome (CBitcoinAddress * CreateTokenMsg) :=
  let digits := to_int32 (atoll tenv decimal) in
  let totalamount := atoll tenv totalSupply in
  throw_if ((totalamount <? 0) || (100000000000 <? totalamount))
    (JSONRPCError RPC_INVALID_ADDRESS_OR_KEY (msg "Invalid totalamount"));;
  throw_if ((digits <? 0) || (8 <? digits))
    (JSONRPCError RPC_INVALID_ADDRESS_OR_KEY (msg "Invalid digits"));;
  c ← match coins !! Z.to_nat digits with
      | Some c => Return c
      | None => Abort (* index past the end of [coins] *)
      end;
  let pbTokenMsg := {| ctm_opid := CREATETOKEN tenv;
                       ctm_symbol := tokenSymbol;
                       ctm_name := tokenName;
                       ctm_tokenaddress := tokenAddress;
                       ctm_totalamount := (c * totalamount) mod 2 ^ 64;
                       ctm_digits := digits |} in
  let strErr := IsValid_create tenv pbTokenMsg in
  throw_if (negb (String.eqb strErr EmptyString))
    (JSONRPCError RPC_INVALID_ADDRESS_OR_KEY (msg strErr));;
  throw_if (String.eqb (GetAddressName tenv ownerAddress) EmptyString)
    (JSONRPCError RPC_INVALID_ADDRESS_OR_KEY (msg "Address has not registe name"));;
  let fromAddress := CBitcoinAddress_of env ownerAddress in
  throw_if (negb (IsValid fromAddress))
    (JSONRPCError RPC_INVALID_ADDRESS_OR_KEY (msg "Invalid owner address"));;
  throw_if (bool_decide (is_Some (GetToken tenv tokenAddress)))
    (JSONRPCError RPC_INTERNAL_ERROR (msg "Token address have been binded another token"));;
  throw_if (existsb (fun item : Z * TokenInfo =>
                       String.eqb (ti_symbol item.2) tokenSymbol &&
                       String.eqb (ti_fromAddress item.2) ownerAddress)
              (GetTokens tenv))
    (JSONRPCError RPC_INTERNAL_ERROR (msg "Token has registerd by the address"));;
  Return (fromAddress, pbTokenMsg).

Definition createtoken (env : Env) (tenv : TokenEnv)
    (tokenSymbol tokenName ownerAddress tokenAddress totalSupply decimal : string) : RPC N :=
  v ← lift (createtoken_validate env tenv tokenSymbol tokenName ownerAddress tokenAddress
              totalSupply decimal);
  reading EnsureWalletIsUnlocked;;
  wtx ← SendWithOpreturn env v.1 CWalletTx_null (OP_CREATE_TOKEN_FEE tenv) (TOKEN tenv)
          (Serialize_create tenv v.2);
  mret (GetHash env (tx wtx)).

(** Everything [sendtoken] does before it takes the wallet lock.  [rest]
    holds the parameters after the fourth: the change address and the
    comment of the help text. *)
Definition sendtoken_validate (env : Env) (tenv : TokenEnv)
    (tokenAddress fromAddress toAddress amount : string) (rest : list string)
  : Outcome (CBitcoinAddress * TransferTokenMsg) :=
  tokenInfo ← match GetToken tenv tokenAddress with
              | None => Throw (JSONRPCError RPC_INVALID_ADDRESS_OR_KEY
                                 (msg "token address not registed"))
              | Some tokenInfo => Return tokenInfo
              end;
  amount ← match ParseFixedPointUnsign tenv amount (ti_digits tokenInfo) with
           | Some amount =>
               throw_if ((amount <=? 0) || (ti_totalamount tokenInfo <? amount))
                 (JSONRPCError RPC_INVALID_ADDRESS_OR_KEY (msg "invalid amount"));;
               Return amount
           | None => Throw (JSONRPCError RPC_INVALID_ADDRESS_OR_KEY (msg "invalid amount"))
           end;
  let comment := if bool_decide (length rest = 2%nat) then rest !! 1%nat else None in
  let fromAddressId := GetAddressId tenv fromAddress in
  throw_if (GetBalance tenv (ti_id tokenInfo) fromAddressId <? amount)
    (JSONRPCError RPC_INVALID_ADDRESS_OR_KEY (msg "token balance insufficient"));;
  let pbTokenMsg := {| ttm_opid := TRANSFRERTOKEN tenv; ttm_dstaddress := toAddress;
                       ttm_tokenid := ti_id tokenInfo; ttm_amount := amount;
                       ttm_comment := comment |} in
  let strErr := IsValid_transfer tenv pbTokenMsg in
  throw_if (negb (String.eqb strErr EmptyString))
    (JSONRPCError RPC_INVALID_ADDRESS_OR_KEY (msg strErr));;
  let address := CBitcoinAddress_of env fromAddress in
  throw_if (negb (IsValid address))
    (JSONRPCError RPC_INVALID_ADDRESS_OR_KEY (msg "Invalid from address"));;
  let comment := match rest with
                 | [] => comment
                 | p4 :: _ => Some p4
                 end in
  Return (address, {| ttm_opid := ttm_opid pbTokenMsg; ttm_dstaddress := ttm_dstaddress pbTokenMsg;
                      ttm_tokenid := ttm_tokenid pbTokenMsg; ttm_amount := ttm_amount pbTokenMsg;
                      ttm_comment := comment |}).

Definition sendtoken (env : Env) (tenv : TokenEnv)
    (tokenAddress fromAddress toAddress amount : string) (rest : list string) : RPC N :=
  v ← lift (sendtoken_validate env tenv tokenAddress fromAddress toAddress amount rest);
  reading EnsureWalletIsUnlocked;;
  wtx ← SendWithOpreturn env v.1 CWalletTx_null (OP_SEND_TOKEN_FEE tenv) (TOKEN tenv)
          (Serialize_transfer tenv v.2);
  mret (GetHash env (tx wtx)).

(** ** Definitions used to state the properties *)

(** Positions (counted from [i]) of the outputs that the wallet
    identifies as change. *)
Fixpoint change_indices (env : Env) (w : CWallet) (outs : list CTxOut) (i : Z) : list Z :=
  match outs with
  | [] => []
  | o :: rest =>
      if IsChange env w o then i :: change_indices env w rest (i + 1)
      else change_indices env w rest (i + 1)
  end.

(** The eligibility checks in the order in which the specification lists
    them: unconfirmed first, then descendants. *)
Definition eligibility_spec_order (env : Env) (hash : N) (w : CWallet)
  : Outcome (CWalletTx * Z) :=
  EnsureWalletIsUnlocked w;;
  wtx ← match mapWallet w !! hash with
        | None => Throw err_not_in_wallet
        | Some wtx => Return wtx
        end;
  throw_if (negb (GetDepthInMainChain env wtx =? 0)) err_mined;;
  throw_if (HasWalletSpend env w hash) err_wallet_descendants;;
  throw_if (has_mempool_descendants env hash) err_mempool_descendants;;
  throw_if (negb (SignalsOptInRBF env (tx wtx))) err_not_replaceable;;
  match mapValue wtx !! "replaced_by_txid"%string with
  | Some by_txid => Throw (err_already_bumped hash by_txid)
  | None => Return tt
  end;;
  throw_if (negb (IsAllFromMe env w (tx wtx))) err_not_all_mine;;
  nOutput ← find_change env w (vout (tx wtx)) 0 (-1);
  throw_if (nOutput =? -1) err_no_change;;
  Return (wtx, nOutput).

(** The note in the source: "CommitTransaction never returns false". *)
Definition CommitTransaction_never_false (env : Env) : Prop :=
  forall w wtx, (CommitTransaction env w wtx).1.1 = true.

(** Sum of the values of a list of outputs. *)
Definition total_out (outs : list CTxOut) : Z := foldr Z.add 0 (nValue <$> outs).

(** The error of [EnsureWalletIsUnlocked]. *)
Definition err_unlock_needed : RPCError :=
  JSONRPCError RPC_WALLET_UNLOCK_NEEDED
    (msg "Error: Please enter the wallet passphrase with walletpassphrase first.").

(** The errors of the options of [bumpfee]. *)
Definition err_both_options : RPCError :=
  JSONRPCError RPC_INVALID_PARAMETER
    (msg "confTarget and totalFee options should not both be set. Please provide either a confirmation target for fee estimation or an explicit total fee for the transaction.").

Definition err_confTarget : RPCError :=
  JSONRPCError RPC_INVALID_PARAMETER (msg "Invalid confTarget (cannot be <= 0)").

Definition err_totalFee_required (requiredFee : Z) : RPCError :=
  JSONRPCError RPC_INVALID_PARAMETER
    (strprintf "Insufficient totalFee (cannot be less than required fee %s)"
       [ArgMoney requiredFee]).

(** The error of [get_str] on a value that is not a string. *)
Definition err_not_a_string : RPCError :=
  JSONRPCError RPC_MISC_ERROR (msg "JSON value is not a string as expected").

#[global] Instance UniValue_eq_dec : EqDecision UniValue.
Proof. solve_decision. Defined.

(** The request for a transaction that [SendWithOpreturn] makes for
    [address] on the wallet [w]. *)
Definition payload_request (env : Env) (w : CWallet) (address : CBitcoinAddress)
    (fee nAppID : Z) (vctAppData : list Byte.byte) : Event :=
  Ev_CreateTransaction
    [ {| r_scriptPubKey := GetScriptForDestination env (Get address);
         nAmount := GetAddressBalance env w (Get address);
         fSubtractFeeFromAmount := false |} ]
    (Some {| destChange := CNoDestination; fAllowOtherInputs := true;
             nMinimumTotalFee := fee |})
    (Some (Get address)) (Some (CreateOpReturn env nAppID vctAppData)).

(** The error of [bumpfee] on a transaction of the wallet that carries a
    replaced-by link: that of the first check, in the order of the code,
    that fails. *)
Definition replaced_refusal (env : Env) (hash : N) (w : CWallet) (wtx : CWalletTx)
    (by_txid : string) : RPCError :=
  if IsLocked w then err_unlock_needed
  else if HasWalletSpend env w hash then err_wallet_descendants
  else if has_mempool_descendants env hash then err_mempool_descendants
  else if negb (GetDepthInMainChain env wtx =? 0) then err_mined
  else if negb (SignalsOptInRBF env (tx wtx)) then err_not_replaceable
  else err_already_bumped hash by_txid.






(** ** A concrete wallet and environment

    One parent transaction (hash 7) pays 100000 to the wallet; the
    transaction [T] (hash 42) spends it, signals replaceability, pays
    [payment] to a recipient and [change] back to the wallet. *)
Module Example.

Definition script_other : list Byte.byte := [Byte.x01].
Definition script_change : list Byte.byte := [Byte.x02].

Definition parent : CWalletTx :=
  {| tx := {| vin := []; vout := [ {| nValue := 100000; scriptPubKey := script_change |} ] |};
     mapValue := ∅; vOrderForm := []; strFromAccount := EmptyString; fTimeReceivedIsTxTime := false;
     fFromMe := false |}.

Definition T_tx (payment change : Z) : CTransaction :=
  {| vin := [ {| prevout := {| prevout_hash := 7; prevout_n := 0 |}; scriptSig := [];
                 nSequence := 4294967293 |} ];
     vout := [ {| nValue := payment; scriptPubKey := script_other |};
               {| nValue := change; scriptPubKey := script_change |} ] |}.

Definition T (payment change : Z) (values : gmap string string) : CWalletTx :=
  {| tx := T_tx payment change; mapValue := values; vOrderForm := []; strFromAccount := EmptyString;
     fTimeReceivedIsTxTime := false; fFromMe := true |}.

Definition no_values : gmap string string := ∅.

Definition wallet_of (t : CWalletTx) (locked : bool) : CWallet :=
  {| mapWallet := <[42%N := t]> {[ 7%N := parent ]}; IsLocked := locked;
     GetBroadcastTransactions := true; setKeyPool := [1; 2; 3] |}.

(** Balances: address 1 holds 5000, address 2 holds 70000. *)
Definition balance_of (d : CTxDestination) : Z :=
  match d with
  | CKeyID 1 => 5000
  | CKeyID 2 => 70000
  | _ => 0
  end.

(** Addresses "A", "B": key ids 1 and 2; " A" decodes like "A"; anything else is invalid. *)
Definition decode (s : string) : CBitcoinAddress :=
  if String.eqb s "A" then {| IsValid := true; Get := CKeyID 1 |}
  else if String.eqb s " A" then {| IsValid := true; Get := CKeyID 1 |}
  else if String.eqb s "B" then {| IsValid := true; Get := CKeyID 2 |}
  else {| IsValid := false; Get := CNoDestination |}.

(** Amount strings "0", "1000", "3000". *)
Definition amount_of (v : UniValue) : RPCError + Z :=
  match v with
  | VNUM s | VSTR s =>
      if String.eqb s "0" then inr 0
      else if String.eqb s "1000" then inr 1000
      else if String.eqb s "3000" then inr 3000
      else inl (JSONRPCError RPC_TYPE_ERROR (msg "Invalid amount"))
  | VNULL => inl (JSONRPCError RPC_TYPE_ERROR (msg "Amount is not a number or string"))
  end.

Definition add_tx (h : N) (t : CWalletTx) (w : CWallet) : CWallet :=
  {| mapWallet := <[h := t]> (mapWallet w); IsLocked := IsLocked w;
     GetBroadcastTransactions := GetBroadcastTransactions w; setKeyPool := setKeyPool w |}.

Definition mark (orig new : N) (w : CWallet) : CWallet :=
  match mapWallet w !! orig with
  | Some t => add_tx orig (set_mapValue "replaced_by_txid" "new" t) w
  | None => w
  end.

(** [incremental], [maxfee]: the node's incremental relay fee rate and
    the maximum transaction fee; [depth]: depth of [T] in the main chain;
    [spent]: whether the wallet knows a transaction spending [T];
    [accepted]: whether the mempool accepts a committed transaction;
    [persisted]: whether the replacement record can be written. *)
Definition env (incremental maxfee depth : Z) (spent accepted persisted : bool) : Env :=
  {| g_connman := true;
     incrementalRelayFee := mkFeeRate incremental;
     WALLET_INCREMENTAL_RELAY_FEE := 5000;
     maxTxFee := maxfee;
     dustRelayFee := mkFeeRate 3000;
     nTxConfirmTarget := 6;
     CFeeRate_of := spec_CFeeRate_of;
     GetFee := spec_GetFee;
     mempool_find := fun h => if N.eqb h 42 then Some 1 else None;
     mempool_GetMinFee := mkFeeRate 1000;
     GetDepthInMainChain := fun _ => depth;
     SignalsOptInRBF := fun t => existsb (fun i => nSequence i <? 4294967294) (vin t);
     GetVirtualTransactionSize := fun _ => 1000;
     GetDustThreshold := fun _ _ => 546;
     GetValueOut := fun t => foldr Z.add 0 (nValue <$> vout t);
     GetHash := fun t => if bool_decide (vin t = []) then 7%N
                         else (42 + N.of_nat (length (concat (scriptSig <$> vin t))))%N;
     uint256_ToString := fun _ => "hash";
     FormatStateMessage := fun state => (GetRejectReason state +:+ " (code 66)")%string;
     GetScriptForDestination := fun d => match d with CKeyID 1 => script_change | _ => script_other end;
     CBitcoinAddress_of := decode;
     AmountFromValue := amount_of;
     HasWalletSpend := fun _ h => spent && N.eqb h 42;
     IsAllFromMe := fun _ _ => true;
     IsChange := fun _ o => bool_decide (scriptPubKey o = script_change);
     GetDebit := fun _ _ => 100000;
     DummySignTx := fun _ t => Some t;
     GetRequiredFee := fun nBytes => spec_GetFee (mkFeeRate 1000) nBytes;
     GetMinimumFee := fun nBytes _ _ => spec_GetFee (mkFeeRate 2000) nBytes;
     ProduceSignature := fun _ _ _ _ _ => Some [Byte.x30];
     GetAddressBalance := fun _ d => balance_of d;
     SelectAddress := fun _ nValue _ =>
                        if nValue <=? 5000 then Some (CKeyID 1, 5000)
                        else if nValue <=? 70000 then Some (CKeyID 2, 70000)
                        else None;
     CreateOpReturn := fun _ data => Byte.x6a :: data;
     CreateTransaction := fun w vecSend wtxNew _ _ _ =>
       {| cr_ok := true;
          cr_wtxNew := {| tx := {| vin := []; vout := (fun r => {| nValue := nAmount r; scriptPubKey := r_scriptPubKey r |}) <$> vecSend |};
                          mapValue := mapValue wtxNew; vOrderForm := vOrderForm wtxNew;
                          strFromAccount := strFromAccount wtxNew;
                          fTimeReceivedIsTxTime := true; fFromMe := true |};
          cr_nFeeRequired := 1000; cr_strFailReason := EmptyString; cr_wallet := w |};
     CommitTransaction := fun w wtx =>
       (true, {| IsInvalid := negb accepted; GetRejectReason := if accepted then EmptyString else "insufficient fee" |},
        add_tx 99 wtx w);
     MarkReplaced := fun w orig new => if persisted then (true, mark orig new w) else (false, w)
  |}.




End Example.

(** ** A concrete vote registry and token database *)
Module Example2.

(** Delegates "alice" (key 11) and "bob" (key 12); the address with key 1
    has voted for bob. *)
Definition venv : VoteEnv :=
  {| OP_VOTE := 193;
     OP_REVOKE := 194;
     DPOS := 1;
     OP_VOTE_FORGER_FEE := 1000;
     OP_CANCEL_VOTE_FORGER_FEE := 1000;
     MaxNumberOfVotes := 51;
     GetKeyID := fun a => match Get a with CKeyID h => h | _ => 0%N end;
     GetDelegate := fun name => if String.eqb name "alice" then 11%N
                                else if String.eqb name "bob" then 12%N else 0%N;
     HaveVote := fun a d => N.eqb a 1 && N.eqb d 12;
     GetVotedDelegates := fun a => if N.eqb a 1 then [12%N] else [];
     CheckStruct_vote := fun _ => EmptyString;
     CheckStruct_cancel := fun _ => EmptyString;
     StructToData_vote := fun _ => [Byte.xc1];
     StructToData_cancel := fun _ => [Byte.xc2] |}.

(** Decimal strings "2", "8", "500" and "100000000000"; address "A" is
    named, no token exists. *)
Definition tenv : TokenEnv :=
  {| atoll := fun s => if String.eqb s "2" then 2
                       else if String.eqb s "8" then 8
                       else if String.eqb s "500" then 500
                       else if String.eqb s "100000000000" then 100000000000
                       else 0;
     CREATETOKEN := 1;
     TRANSFRERTOKEN := 2;
     TOKEN := 2;
     OP_CREATE_TOKEN_FEE := 1000;
     OP_SEND_TOKEN_FEE := 1000;
     IsValid_create := fun _ => EmptyString;
     IsValid_transfer := fun _ => EmptyString;
     Serialize_create := fun m => [Byte.x01];
     Serialize_transfer := fun m => [Byte.x02];
     GetAddressName := fun a => if String.eqb a "A" then "alice"%string else EmptyString;
     GetToken := fun a => if String.eqb a "T"
                          then Some {| ti_id := 1; ti_symbol := "TOK"; ti_fromAddress := "A";
                                       ti_tokenAddress := "T"; ti_digits := 2;
                                       ti_totalamount := 50000 |}
                          else None;
     GetTokens := [];
     GetAddressId := fun a => if String.eqb a "A" then 1 else 0;
     GetBalance := fun id a => if (id =? 1) && (a =? 1) then 700 else 0;
     ParseFixedPointUnsign := fun s _ => if String.eqb s "5.00" then Some 500 else None |}.



(** One bill, id 9, with the options "yes" and "no", open until time 100;
    the address with key 2 has voted "no".  The clock shows 50. *)
Definition benv : BillEnv :=
  {| SetHex := fun _ => 9%N;
     stoi := fun s => if String.eqb s "0" then inr 0
                      else if String.eqb s "1" then inr 1
                      else if String.eqb s "256" then inr 256
                      else inl (JSONRPCError RPC_MISC_ERROR (msg "stoi"));
     GetBillVote := fun _ => [∅; {[ 2%N := 1 ]}];
     GetBillRegiste := fun _ => {| bill_options := ["yes"%string; "no"%string];
                                   bill_endtime := 100 |};
     time_now := 50;
     OP_VOTE_BILL_FEE := 1000;
     CheckStruct_votebill := fun _ => EmptyString;
     StructToData_votebill := fun d => [Byte.xc7] |}.


End Example2.

(** * Properties *)

(** ** Reasoning about outcomes *)

Lemma bind_Return {A B} (m : Outcome A) (f : A -> Outcome B) (b : B) :
  m ≫= f = Return b -> exists a, m = Return a /\ f a = Return b.
Proof. destruct m; simpl; intros H; try discriminate. eauto. Qed.

Lemma throw_if_Return (c : bool) (e : RPCError) (u : unit) :
  throw_if c e = Return u -> c = false.
Proof. destruct c; simpl; [discriminate | reflexivity]. Qed.

Lemma assert_Return (c : bool) (u : unit) : assert c = Return u -> c = true.
Proof. destruct c; simpl; [reflexivity | discriminate]. Qed.

(** Splits a hypothesis [m ≫= f = Return b] into its two steps. *)
Ltac bind_inv H :=
  let a := fresh "a" in
  let Ha := fresh "Ha" in
  apply bind_Return in H; destruct H as (a & Ha & H).

(** ** Eligibility order *)

Lemma find_change_spec (env : Env) (w : CWallet) (outs : list CTxOut) :
  forall i n, 0 <= i ->
    find_change env w outs i n =
    match change_indices env w outs i with
    | [] => Return n
    | [j] => if n =? -1 then Return j else Throw err_multiple_change
    | _ => Throw err_multiple_change
    end.
Proof.
  induction outs as [|o rest IH]; intros i n Hi; simpl; [reflexivity|].
  destruct (IsChange env w o).
  - destruct (n =? -1) eqn:En; simpl.
    + rewrite IH by lia.
      destruct (change_indices env w rest (i + 1)) as [|j [|k l]]; try reflexivity.
      replace (i =? -1) with false by (symmetry; apply Z.eqb_neq; lia).
      reflexivity.
    + destruct (change_indices env w rest (i + 1)) as [|j [|k l]]; reflexivity.
  - apply IH; lia.
Qed.

Lemma change_indices_ge (env : Env) (w : CWallet) (outs : list CTxOut) :
  forall i j, j ∈ change_indices env w outs i -> i <= j < i + Z.of_nat (length outs).
Proof.
  induction outs as [|o rest IH]; intros i j Hj; simpl in *.
  - inversion Hj.
  - destruct (IsChange env w o).
    + apply elem_of_cons in Hj as [->|Hj]; [lia|]. apply IH in Hj. lia.
    + apply IH in Hj. lia.
Qed.

(** C2 (as stated, refuted): a mined transaction that also has a wallet
    descendant is reported as having descendants, whereas the order of the
    specification, which checks confirmation first, reports it as mined. *)
Lemma bumpfee_spec_order_counterexample :
  let env := Example.env 1000 100000 1 true true true in
  let w := Example.wallet_of (Example.T 69000 30000 Example.no_values) false in
  bumpfee_eligible env 42 w = Throw err_wallet_descendants /\
  eligibility_spec_order env 42 w = Throw err_mined /\
  bumpfee_eligible env 42 w <> eligibility_spec_order env 42 w.
Proof.
  assert (H1 : bumpfee_eligible (Example.env 1000 100000 1 true true true) 42
                 (Example.wallet_of (Example.T 69000 30000 Example.no_values) false)
               = Throw err_wallet_descendants) by (vm_compute; reflexivity).
  assert (H2 : eligibility_spec_order (Example.env 1000 100000 1 true true true) 42
                 (Example.wallet_of (Example.T 69000 30000 Example.no_values) false)
               = Throw err_mined) by (vm_compute; reflexivity).
  cbv zeta. split; [exact H1|]. split; [exact H2|].
  rewrite H1, H2. discriminate.
Qed.

(** C2 (amended): for an unlocked wallet that holds the transaction,
    [bumpfee] reports the first failing check in this order: no
    wallet-known descendant, no mempool descendant, unconfirmed and not
    conflicted, signals opt-in replacement, not already marked replaced,
    every input wallet-owned, exactly one change output (none and several
    are refused); when all pass it yields the position of the change
    output. *)
Theorem bumpfee_eligible_order (env : Env) (hash : N) (w : CWallet) (wtx : CWalletTx) :
  IsLocked w = false ->
  mapWallet w !! hash = Some wtx ->
  bumpfee_eligible env hash w =
    if HasWalletSpend env w hash then Throw err_wallet_descendants
    else if has_mempool_descendants env hash then Throw err_mempool_descendants
    else if negb (GetDepthInMainChain env wtx =? 0) then Throw err_mined
    else if negb (SignalsOptInRBF env (tx wtx)) then Throw err_not_replaceable
    else match mapValue wtx !! "replaced_by_txid"%string with
         | Some by_txid => Throw (err_already_bumped hash by_txid)
         | None =>
             if negb (IsAllFromMe env w (tx wtx)) then Throw err_not_all_mine
             else match change_indices env w (vout (tx wtx)) 0 with
                  | [] => Throw err_no_change
                  | [nOutput] => Return (wtx, nOutput)
                  | _ => Throw err_multiple_change
                  end
         end.
Proof.
  intros Hl Hw. unfold bumpfee_eligible, EnsureWalletIsUnlocked.
  rewrite Hl, Hw. simpl.
  destruct (HasWalletSpend env w hash); simpl; [reflexivity|].
  destruct (has_mempool_descendants env hash); simpl; [reflexivity|].
  destruct (GetDepthInMainChain env wtx =? 0); simpl; [|reflexivity].
  destruct (SignalsOptInRBF env (tx wtx)); simpl; [|reflexivity].
  destruct (mapValue wtx !! "replaced_by_txid"%string); simpl; [reflexivity|].
  destruct (IsAllFromMe env w (tx wtx)); simpl; [|reflexivity].
  rewrite find_change_spec by lia.
  pose proof (change_indices_ge env w (vout (tx wtx)) 0) as Hge.
  destruct (change_indices env w (vout (tx wtx)) 0) as [|j [|k l]]; simpl; try reflexivity.
  specialize (Hge j ltac:(apply list_elem_of_here)).
  replace (j =? -1) with false by (symmetry; apply Z.eqb_neq; lia).
  reflexivity.
Qed.

Lemma bumpfee_eligible_order_witness :
  IsLocked (Example.wallet_of (Example.T 69000 30000 Example.no_values) false) = false /\
  mapWallet (Example.wallet_of (Example.T 69000 30000 Example.no_values) false) !! 42%N
    = Some (Example.T 69000 30000 Example.no_values) /\
  bumpfee_eligible (Example.env 1000 100000 0 false true true) 42
    (Example.wallet_of (Example.T 69000 30000 Example.no_values) false)
  = Return (Example.T 69000 30000 Example.no_values, 1).
Proof.
  split; [reflexivity|]. split; [vm_compute; reflexivity|].
  rewrite (bumpfee_eligible_order _ _ _ (Example.T 69000 30000 Example.no_values));
    [vm_compute; reflexivity | reflexivity | vm_compute; reflexivity].
Defined.

(** ** Stages of bumpfee *)

Lemma bumpfee_prepare_stages (env : Env) (hash : N) (options : option BumpOptions)
    (w : CWallet) (p : Prepared) :
  bumpfee_prepare env hash options w = Return p ->
  exists maxSize po,
    bumpfee_eligible env hash w = Return (p_wtx p, p_nOutput p) /\
    CalculateMaximumSignedTxSize env w (tx (p_wtx p)) = Return maxSize /\
    bumpfee_options env maxSize options = Return po /\
    bumpfee_fee env w (p_wtx p) (GetVirtualTransactionSize env (tx (p_wtx p))) maxSize po
      = Return (p_fee p) /\
    p_replaceable p = replaceable po /\
    bumpfee_rebuild env (p_wtx p) (p_nOutput p) (p_fee p) (replaceable po)
      = Return (p_unsigned p, p_feePaid p) /\
    bumpfee_sign env w (p_unsigned p) = Return (p_signed p).
Proof.
  unfold bumpfee_prepare. intros H.
  bind_inv H. destruct a as [wtx nOutput]. simpl in H.
  bind_inv H. rename a into maxSize.
  bind_inv H. rename a into po.
  bind_inv H. rename a into fc.
  bind_inv H. destruct a as [t' fee']. simpl in H.
  bind_inv H. rename a into signed.
  injection H as <-. simpl.
  exists maxSize, po. repeat split; assumption.
Qed.

Lemma bumpfee_Return (env : Env) (hash : N) (options : option BumpOptions)
    (s s' : State) (res : BumpResult) :
  bumpfee env hash options s = (Return res, s') ->
  exists p, bumpfee_prepare env hash options (wallet s) = Return p /\
            res_txid res = GetHash env (p_signed p) /\
            res_origfee res = nOldFee (p_fee p) /\
            res_fee res = p_feePaid p.
Proof.
  unfold bumpfee, reading. unfold mbind at 1, RPC_bind.
  destruct (bumpfee_prepare env hash options (wallet s)) as [p| |]; try discriminate.
  intros H. exists p. split; [reflexivity|].
  unfold bumpfee_commit, emit, commit, mark_replaced, lift in H.
  unfold mbind, mret, RPC_bind, RPC_ret in H. simpl in H.
  destruct (CommitTransaction env (wallet s) _) as [[ok st] w']. simpl in H.
  destruct ok; simpl in H; [|discriminate].
  injection H as <- _. auto.
Qed.

Lemma bumpfee_fee_Return (env : Env) (w : CWallet) (wtx : CWalletTx) (size maxSize : Z)
    (po : ParsedOptions) (fc : FeeComputed) :
  bumpfee_fee env w wtx size maxSize po = Return fc ->
  txSize fc = size /\ maxNewTxSize fc = maxSize /\
  nOldFee fc = GetDebit env w wtx - GetValueOut env (tx wtx) /\
  nOldFeeRate fc = CFeeRate_of env (nOldFee fc) size /\
  nNewFee fc <= maxTxFee env /\
  GetFeePerK (mempool_GetMinFee env) <= GetFeePerK (nNewFeeRate fc) /\
  ((0 < totalFee po /\ nNewFee fc = totalFee po /\
    nNewFeeRate fc = CFeeRate_of env (totalFee po) maxSize /\
    GetFee env (nOldFeeRate fc) maxSize + GetFee env (incrementalRelayFee env) maxSize
      <= totalFee po)
   \/
   (totalFee po <= 0 /\
    GetFeePerK (nOldFeeRate fc) + 1 + GetFeePerK (walletIncrementalRelayFee env)
      <= GetFeePerK (nNewFeeRate fc))).
Proof.
  unfold bumpfee_fee. intros H.
  bind_inv H. destruct a as [fee rate]. simpl in H.
  bind_inv H. apply throw_if_Return in Ha0. apply Z.ltb_ge in Ha0.
  bind_inv H. apply throw_if_Return in Ha1. apply Z.ltb_ge in Ha1.
  injection H as <-. simpl.
  repeat (split; [first [reflexivity | assumption]|]).
  destruct (0 <? totalFee po) eqn:Et.
  - apply Z.ltb_lt in Et. left.
    bind_inv Ha. apply throw_if_Return in Ha2. apply Z.ltb_ge in Ha2.
    injection Ha as <- <-. auto.
  - apply Z.ltb_ge in Et. right. split; [assumption|].
    match type of Ha with
    | (if ?c then _ else _) = _ => destruct c eqn:Ec
    end; injection Ha as <- <-; simpl.
    + lia.
    + apply Z.ltb_ge in Ec. exact Ec.
Qed.



Lemma bumpfee_rebuild_Return (env : Env) (wtx : CWalletTx) (nOutput : Z) (fc : FeeComputed)
    (repl : bool) (t' : CTransaction) (fee' : Z) :
  bumpfee_rebuild env wtx nOutput fc repl = Return (t', fee') ->
  0 < nNewFee fc - nOldFee fc /\
  exists poutput,
    vout (tx wtx) !! Z.to_nat nOutput = Some poutput /\
    nNewFee fc - nOldFee fc <= nValue poutput /\
    vin t' = (if repl then vin (tx wtx) else mark_final <$> vin (tx wtx)) /\
    let o' := {| nValue := nValue poutput - (nNewFee fc - nOldFee fc);
                 scriptPubKey := scriptPubKey poutput |} in
    if nValue o' <=? GetDustThreshold env o' (dustRelayFee env)
    then vout t' = erase (vout (tx wtx)) (Z.to_nat nOutput) /\ fee' = nNewFee fc + nValue o'
    else vout t' = <[Z.to_nat nOutput := o']> (vout (tx wtx)) /\ fee' = nNewFee fc.
Proof.
  unfold bumpfee_rebuild. intros H.
  bind_inv H. apply assert_Return in Ha. apply Z.ltb_lt in Ha.
  split; [assumption|].
  destruct (vout (tx wtx) !! Z.to_nat nOutput) as [poutput|]; [|discriminate].
  bind_inv H. apply throw_if_Return in Ha0. apply Z.ltb_ge in Ha0.
  exists poutput. split; [reflexivity|]. split; [assumption|].
  injection H as <- <-. simpl. split; [reflexivity|].
  match goal with |- context [if ?c then _ else _] => destruct c end; simpl; auto.
Qed.

(** ** C1: fee rate and maximum fee of a replacement *)




(** ** C3: the rebuilt change output *)

Lemma bumpfee_eligible_Return (env : Env) (hash : N) (w : CWallet) (wtx : CWalletTx)
    (nOutput : Z) :
  bumpfee_eligible env hash w = Return (wtx, nOutput) ->
  IsLocked w = false /\
  mapWallet w !! hash = Some wtx /\
  HasWalletSpend env w hash = false /\
  has_mempool_descendants env hash = false /\
  GetDepthInMainChain env wtx = 0 /\
  SignalsOptInRBF env (tx wtx) = true /\
  mapValue wtx !! "replaced_by_txid"%string = None /\
  IsAllFromMe env w (tx wtx) = true /\
  change_indices env w (vout (tx wtx)) 0 = [nOutput].
Proof.
  unfold bumpfee_eligible, EnsureWalletIsUnlocked. intros H.
  bind_inv H. apply throw_if_Return in Ha.
  bind_inv H. rename a0 into wtx0.
  destruct (mapWallet w !! hash) as [wtx1|] eqn:Hw; [|discriminate].
  injection Ha0 as ->.
  bind_inv H. apply throw_if_Return in Ha0.
  bind_inv H. apply throw_if_Return in Ha1.
  bind_inv H. apply throw_if_Return in Ha2. apply negb_false_iff, Z.eqb_eq in Ha2.
  bind_inv H. apply throw_if_Return in Ha3. apply negb_false_iff in Ha3.
  bind_inv H.
  destruct (mapValue wtx0 !! "replaced_by_txid"%string) eqn:Em; [discriminate|].
  bind_inv H. apply throw_if_Return in Ha5. apply negb_false_iff in Ha5.
  bind_inv H. rename a6 into n.
  bind_inv H. apply throw_if_Return in Ha7. apply Z.eqb_neq in Ha7.
  injection H as -> ->.
  rewrite find_change_spec in Ha6 by lia.
  destruct (change_indices env w (vout (tx wtx)) 0) as [|j [|k l]]; try discriminate.
  - injection Ha6 as <-. lia.
  - simpl in Ha6. injection Ha6 as ->. repeat split; auto.
Qed.

(** What the eligibility stage answers for a transaction that carries a
    replaced-by link. *)
Lemma bumpfee_eligible_replaced (env : Env) (hash : N) (w : CWallet) (wtx : CWalletTx)
    (by_txid : string) :
  mapWallet w !! hash = Some wtx ->
  mapValue wtx !! "replaced_by_txid"%string = Some by_txid ->
  bumpfee_eligible env hash w = Throw (replaced_refusal env hash w wtx by_txid).
Proof.
  intros Hw Hr. unfold bumpfee_eligible, EnsureWalletIsUnlocked, replaced_refusal.
  rewrite Hw.
  destruct (IsLocked w); simpl; [reflexivity|].
  destruct (HasWalletSpend env w hash); simpl; [reflexivity|].
  destruct (has_mempool_descendants env hash); simpl; [reflexivity|].
  destruct (GetDepthInMainChain env wtx =? 0); simpl; [|reflexivity].
  destruct (SignalsOptInRBF env (tx wtx)); simpl; [|reflexivity].
  rewrite Hr. reflexivity.
Qed.

Lemma change_indices_lookup (env : Env) (w : CWallet) (outs : list CTxOut) :
  forall i k o, outs !! k = Some o -> IsChange env w o = true ->
    i + Z.of_nat k ∈ change_indices env w outs i.
Proof.
  induction outs as [|o' rest IH]; intros i k o Hk Hc; [discriminate|].
  destruct k as [|k]; cbn [change_indices lookup list_lookup] in *.
  - injection Hk as ->. rewrite Hc. rewrite Z.add_0_r. apply list_elem_of_here.
  - specialize (IH (i + 1) k o Hk Hc).
    replace (i + Z.of_nat (S k)) with (i + 1 + Z.of_nat k) by lia.
    destruct (IsChange env w o'); [apply list_elem_of_further|]; exact IH.
Qed.

(** When the wallet identifies exactly one change output, every output at
    another position is not change. *)
Lemma unique_change_other (env : Env) (w : CWallet) (outs : list CTxOut) (nOutput : Z)
    (k : nat) (o : CTxOut) :
  change_indices env w outs 0 = [nOutput] ->
  outs !! k = Some o -> k <> Z.to_nat nOutput -> IsChange env w o = false.
Proof.
  intros Hc Hk Hne. destruct (IsChange env w o) eqn:E; [|reflexivity].
  pose proof (change_indices_lookup env w outs 0 k o Hk E) as Hin.
  rewrite Hc in Hin. apply list_elem_of_singleton in Hin. lia.
Qed.

Lemma mark_final_prevout (ins : list CTxIn) :
  prevout <$> (mark_final <$> ins) = prevout <$> ins.
Proof.
  induction ins as [|i rest IH]; simpl; [reflexivity|].
  f_equal; [|exact IH]. unfold mark_final. destruct (nSequence i <? 4294967294); reflexivity.
Qed.

(** C3: in the rebuild step, with [nDelta = nNewFee - nOldFee] positive
    and [wtx] eligible with change output [nOutput]: a change value below
    [nDelta] fails with the change-too-small error; otherwise the
    replacement spends the same outpoints (no input is added), [nDelta] is
    subtracted from the change output, and if the result is at or below the
    output's dust threshold the output is removed and what is left of it
    is added to the fee; every change output of the replacement is
    strictly above its dust threshold. *)
Theorem bumpfee_rebuild_change (env : Env) (hash : N) (w : CWallet) (wtx : CWalletTx)
    (nOutput : Z) (fc : FeeComputed) (repl : bool) :
  bumpfee_eligible env hash w = Return (wtx, nOutput) ->
  0 < nNewFee fc - nOldFee fc ->
  exists poutput,
    vout (tx wtx) !! Z.to_nat nOutput = Some poutput /\
    let nDelta := nNewFee fc - nOldFee fc in
    let o' := {| nValue := nValue poutput - nDelta; scriptPubKey := scriptPubKey poutput |} in
    (nValue poutput < nDelta ->
     bumpfee_rebuild env wtx nOutput fc repl = Throw err_change_too_small) /\
    (nDelta <= nValue poutput ->
     exists t' fee',
       bumpfee_rebuild env wtx nOutput fc repl = Return (t', fee') /\
       prevout <$> vin t' = prevout <$> vin (tx wtx) /\
       (nValue o' <= GetDustThreshold env o' (dustRelayFee env) ->
        vout t' = erase (vout (tx wtx)) (Z.to_nat nOutput) /\ fee' = nNewFee fc + nValue o') /\
       (GetDustThreshold env o' (dustRelayFee env) < nValue o' ->
        vout t' = <[Z.to_nat nOutput := o']> (vout (tx wtx)) /\ fee' = nNewFee fc) /\
       (forall o, o ∈ vout t' -> IsChange env w o = true ->
                  GetDustThreshold env o (dustRelayFee env) < nValue o)).
Proof.
  intros He Hd.
  apply bumpfee_eligible_Return in He as (_ & _ & _ & _ & _ & _ & _ & _ & Hc).
  assert (Hlt : (Z.to_nat nOutput < length (vout (tx wtx)))%nat).
  { pose proof (change_indices_ge env w (vout (tx wtx)) 0 nOutput) as Hge.
    rewrite Hc in Hge. specialize (Hge (list_elem_of_here _ _)). lia. }
  destruct (lookup_lt_is_Some_2 _ _ Hlt) as [poutput Hp].
  exists poutput. split; [assumption|]. cbv zeta.
  unfold bumpfee_rebuild.
  replace (0 <? nNewFee fc - nOldFee fc) with true by (symmetry; apply Z.ltb_lt; lia).
  simpl. rewrite Hp. split.
  - intros Hsmall.
    replace (nValue poutput <? nNewFee fc - nOldFee fc) with true
      by (symmetry; apply Z.ltb_lt; lia).
    reflexivity.
  - intros Hbig.
    replace (nValue poutput <? nNewFee fc - nOldFee fc) with false
      by (symmetry; apply Z.ltb_ge; lia).
    simpl. eexists. eexists. split; [reflexivity|]. simpl.
    split; [destruct repl; [reflexivity | apply mark_final_prevout]|].
    destruct (_ <=? _) eqn:Ed; simpl.
    + apply Z.leb_le in Ed. split; [auto|]. split; [intros; lia|].
      intros o Ho Hch. unfold erase in Ho.
      apply elem_of_app in Ho as [Ho|Ho]; apply list_elem_of_lookup in Ho as [k Hk].
      * apply lookup_take_Some in Hk as [Hk Hkn].
        rewrite (unique_change_other env w _ nOutput k o Hc Hk) in Hch by lia. discriminate.
      * rewrite lookup_drop in Hk.
        rewrite (unique_change_other env w _ nOutput _ o Hc Hk) in Hch by lia. discriminate.
    + apply Z.leb_gt in Ed. split; [intros; lia|]. split; [auto|].
      intros o Ho Hch. apply list_elem_of_lookup in Ho as [k Hk].
      apply list_lookup_insert_Some in Hk as [(_ & <- & _) | (Hne & Hk)].
      * exact Ed.
      * rewrite (unique_change_other env w _ nOutput k o Hc Hk) in Hch by lia. discriminate.
Qed.

Lemma bumpfee_rebuild_change_witness :
  exists t' fee',
    bumpfee_rebuild (Example.env 1000 100000 0 false true true) (Example.T 69000 30000 Example.no_values) 1
      {| txSize := 1000; maxNewTxSize := 1000; nOldFee := 1000;
         nOldFeeRate := mkFeeRate 1000; nNewFee := 6001; nNewFeeRate := mkFeeRate 6001 |} true
    = Return (t', fee') /\
    vout t' = [ {| nValue := 69000; scriptPubKey := Example.script_other |};
                {| nValue := 24999; scriptPubKey := Example.script_change |} ] /\
    fee' = 6001.
Proof.
  destruct (bumpfee_rebuild_change (Example.env 1000 100000 0 false true true) 42
              (Example.wallet_of (Example.T 69000 30000 Example.no_values) false) (Example.T 69000 30000 Example.no_values) 1
              {| txSize := 1000; maxNewTxSize := 1000; nOldFee := 1000;
                 nOldFeeRate := mkFeeRate 1000; nNewFee := 6001;
                 nNewFeeRate := mkFeeRate 6001 |} true
              ltac:(vm_compute; reflexivity) ltac:(simpl; lia))
    as (poutput & Hp & _ & Hok).
  injection Hp as <-.
  destruct (Hok ltac:(simpl; lia)) as (t' & fee' & Hr & _ & _ & Hkeep & _).
  exists t', fee'. split; [exact Hr|].
  destruct (Hkeep ltac:(simpl; lia)) as [Hv Hf].
  split; [exact Hv | exact Hf].
Defined.

(** ** The inputs of the replacement *)

Lemma sign_inputs_prevout (env : Env) (w : CWallet) (txNewConst : CTransaction)
    (ins : list CTxIn) :
  forall nIn ins',
    sign_inputs env w txNewConst ins nIn = Return ins' ->
    prevout <$> ins' = prevout <$> ins /\ nSequence <$> ins' = nSequence <$> ins.
Proof.
  induction ins as [|input rest IH]; intros nIn ins' H; simpl in H.
  - injection H as <-. split; reflexivity.
  - bind_inv H.
    destruct (mapWallet w !! prevout_hash (prevout input)) as [prev|]; [|discriminate].
    destruct (vout (tx prev) !! Z.to_nat (prevout_n (prevout input))) as [o|]; [|discriminate].
    destruct (ProduceSignature env w txNewConst nIn (nValue o) (scriptPubKey o));
      [|discriminate].
    bind_inv H. injection H as <-.
    destruct (IH _ _ Ha0) as [Hp Hs].
    split; rewrite !fmap_cons; [rewrite Hp | rewrite Hs]; reflexivity.
Qed.

(** The replacement that [bumpfee] prepares spends exactly the outpoints
    of the original, in the same order, and has the outputs of the rebuilt
    transaction. *)
Lemma bumpfee_prepare_same_inputs (env : Env) (hash : N) (options : option BumpOptions)
    (w : CWallet) (p : Prepared) :
  bumpfee_prepare env hash options w = Return p ->
  prevout <$> vin (p_signed p) = prevout <$> vin (tx (p_wtx p)) /\
  vout (p_signed p) = vout (p_unsigned p).
Proof.
  intros Hp.
  destruct (bumpfee_prepare_stages _ _ _ _ _ Hp)
    as (maxSize & po & _ & _ & _ & _ & _ & Hrb & Hsign).
  apply bumpfee_rebuild_Return in Hrb as (_ & poutput & _ & _ & Hvin & _).
  unfold bumpfee_sign in Hsign. bind_inv Hsign. injection Hsign as <-. simpl.
  apply sign_inputs_prevout in Ha as [Ha _]. rewrite Ha, Hvin.
  split; [|reflexivity].
  destruct (replaceable po); [reflexivity | apply mark_final_prevout].
Qed.

(** ** C9: the assertion on the fee increase *)

(** Every replacement that [bumpfee] produces pays strictly more than the
    original: the rebuild step is entered only past [assert(nDelta > 0)]. *)
Lemma bumpfee_pays_more (env : Env) (hash : N) (options : option BumpOptions)
    (s s' : State) (res : BumpResult) :
  bumpfee env hash options s = (Return res, s') -> res_origfee res < res_fee res.
Proof.
  intros H. apply bumpfee_Return in H as (p & Hp & _ & -> & ->).
  destruct (bumpfee_prepare_stages _ _ _ _ _ Hp)
    as (maxSize & po & _ & _ & _ & _ & _ & Hrb & _).
  apply bumpfee_rebuild_Return in Hrb as (Hd & poutput & _ & Hv & _ & Hdust).
  cbv zeta in Hdust. simpl in Hdust.
  destruct (_ <=? _) in Hdust; destruct Hdust as [_ ->]; lia.
Qed.

(** The assertion fires exactly when the computed fee does not exceed the
    old one. *)
Lemma bumpfee_rebuild_assert (env : Env) (wtx : CWalletTx) (nOutput : Z) (fc : FeeComputed)
    (repl : bool) :
  nNewFee fc <= nOldFee fc -> bumpfee_rebuild env wtx nOutput fc repl = Abort.
Proof.
  intros H. unfold bumpfee_rebuild.
  replace (0 <? nNewFee fc - nOldFee fc) with false by (symmetry; apply Z.ltb_ge; lia).
  reflexivity.
Qed.

(** C9 (the code breaks it): with an incremental relay fee of zero and a
    requested total fee equal to the old fee of 1000, every check of the
    fee computation passes, [nDelta] is 0 and [assert(nDelta > 0)] fires. *)
Lemma bumpfee_assert_fires :
  bumpfee_fee (Example.env 0 100000 0 false true true)
    (Example.wallet_of (Example.T 97500 1500 Example.no_values) false)
    (Example.T 97500 1500 Example.no_values) 1000 1000
    {| specifiedConfirmTarget := false; newConfirmTarget := 6; totalFee := 1000;
       replaceable := true |}
  = Return {| txSize := 1000; maxNewTxSize := 1000; nOldFee := 1000;
              nOldFeeRate := mkFeeRate 1000; nNewFee := 1000;
              nNewFeeRate := mkFeeRate 1000 |} /\
  bumpfee (Example.env 0 100000 0 false true true) 42
    (Some {| opt_confTarget := None; opt_totalFee := Some 1000; opt_replaceable := None |})
    {| wallet := Example.wallet_of (Example.T 97500 1500 Example.no_values) false;
       events := [] |}
  = (Abort,
     {| wallet := Example.wallet_of (Example.T 97500 1500 Example.no_values) false;
        events := [] |}).
Proof. split; vm_compute; reflexivity. Qed.

(** ** C8: warnings of the commit stage *)

(** C8: once [bumpfee] has prepared the signed replacement and
    [CommitTransaction] returns, a rejection recorded in the validation
    state and a failure of [MarkReplaced] each add one entry to [errors];
    the call returns the new txid, the old fee and the new fee. *)
Theorem bumpfee_commit_warnings (env : Env) (hash : N) (options : option BumpOptions)
    (s : State) (p : Prepared) (state : CValidationState) (w' w'' : CWallet)
    (marked : bool) :
  bumpfee_prepare env hash options (wallet s) = Return p ->
  CommitTransaction env (wallet s) (wtxBumped_of env hash (p_wtx p) (p_signed p))
    = (true, state, w') ->
  MarkReplaced env w' (GetHash env (tx (p_wtx p))) (GetHash env (p_signed p))
    = (marked, w'') ->
  bumpfee env hash options s =
    (Return {| res_txid := GetHash env (p_signed p);
               res_origfee := nOldFee (p_fee p);
               res_fee := p_feePaid p;
               res_errors := (if IsInvalid state then [msg_rejected env state] else [])
                             ++ (if marked then [] else [msg_not_marked]) |},
     {| wallet := w'';
        events := events s ++ [Ev_CReserveKey]
                  ++ [Ev_CommitTransaction (wtxBumped_of env hash (p_wtx p) (p_signed p))]
                  ++ [Ev_MarkReplaced (GetHash env (tx (p_wtx p)))
                        (GetHash env (p_signed p))] |}).
Proof.
  intros Hp Hc Hm. unfold bumpfee, reading. unfold mbind at 1, RPC_bind. rewrite Hp.
  unfold bumpfee_commit, emit, commit, mark_replaced, lift.
  unfold mbind, mret, RPC_bind, RPC_ret. simpl.
  rewrite Hc. simpl. rewrite Hm. simpl.
  rewrite <- !app_assoc. simpl.
  destruct marked, (IsInvalid state); simpl; reflexivity.
Qed.

Lemma bumpfee_commit_warnings_witness :
  exists p state w' w'' res s',
    bumpfee_prepare (Example.env 1000 100000 0 false false false) 42 None
      (Example.wallet_of (Example.T 69000 30000 Example.no_values) false) = Return p /\
    CommitTransaction (Example.env 1000 100000 0 false false false)
      (Example.wallet_of (Example.T 69000 30000 Example.no_values) false)
      (wtxBumped_of (Example.env 1000 100000 0 false false false) 42 (p_wtx p) (p_signed p))
      = (true, state, w') /\
    MarkReplaced (Example.env 1000 100000 0 false false false) w'
      (GetHash (Example.env 1000 100000 0 false false false) (tx (p_wtx p)))
      (GetHash (Example.env 1000 100000 0 false false false) (p_signed p)) = (false, w'') /\
    bumpfee (Example.env 1000 100000 0 false false false) 42 None
      {| wallet := Example.wallet_of (Example.T 69000 30000 Example.no_values) false;
         events := [] |} = (Return res, s') /\
    res_errors res
      = [msg_rejected (Example.env 1000 100000 0 false false false) state; msg_not_marked] /\
    res_fee res = 6001.
Proof.
  assert (Hp : exists p,
             bumpfee_prepare (Example.env 1000 100000 0 false false false) 42 None
               (Example.wallet_of (Example.T 69000 30000 Example.no_values) false) = Return p
             /\ p_feePaid p = 6001)
    by (eexists; split; vm_compute; reflexivity).
  destruct Hp as (p & Hp & Hfee).
  exists p. eexists. eexists. eexists. eexists. eexists.
  split; [exact Hp|].
  split; [reflexivity|]. split; [reflexivity|].
  split.
  - eapply (bumpfee_commit_warnings (Example.env 1000 100000 0 false false false) 42 None
              {| wallet := Example.wallet_of (Example.T 69000 30000 Example.no_values) false;
                 events := [] |} p); [exact Hp | reflexivity | reflexivity].
  - simpl. split; [reflexivity | exact Hfee].
Defined.

(** ** C4: a failing bumpfee changes nothing *)

Lemma bumpfee_commit_succeeds (env : Env) (hash : N) (wtx : CWalletTx) (t : CTransaction)
    (nOldFee nNewFee : Z) (s : State) :
  CommitTransaction_never_false env ->
  exists res s', bumpfee_commit env hash wtx t nOldFee nNewFee s = (Return res, s').
Proof.
  intros Hc. unfold bumpfee_commit, emit, commit, mark_replaced, lift.
  unfold mbind, mret, RPC_bind, RPC_ret. simpl.
  rewrite (Hc (wallet s) (wtxBumped_of env hash wtx t)). simpl.
  eexists. eexists. reflexivity.
Qed.

Lemma bumpfee_not_prepared (env : Env) (hash : N) (options : option BumpOptions) (s : State) :
  (forall e, bumpfee_prepare env hash options (wallet s) = Throw e ->
             bumpfee env hash options s = (Throw e, s)) /\
  (bumpfee_prepare env hash options (wallet s) = Abort ->
   bumpfee env hash options s = (Abort, s)).
Proof.
  split; [intros e H | intros H]; unfold bumpfee, reading;
    unfold mbind at 1, RPC_bind; rewrite H; reflexivity.
Qed.

(** C4: when [bumpfee] does not return a result, the wallet (with the
    transaction [T] in it) and the record of effects are exactly as before
    the call, and the same call from that state ends the same way, with the
    same error. *)
Theorem bumpfee_failure_no_effect (env : Env) (hash : N) (options : option BumpOptions)
    (s s' : State) (r : Outcome BumpResult) :
  CommitTransaction_never_false env ->
  bumpfee env hash options s = (r, s') ->
  (forall res, r <> Return res) ->
  s' = s /\ bumpfee env hash options s' = (r, s').
Proof.
  intros Hc H Hfail.
  destruct (bumpfee_not_prepared env hash options s) as [Ht Ha].
  destruct (bumpfee_prepare env hash options (wallet s)) as [p|e|] eqn:Hp.
  - exfalso. unfold bumpfee, reading in H. unfold mbind at 1, RPC_bind in H.
    rewrite Hp in H.
    destruct (bumpfee_commit_succeeds env hash (p_wtx p) (p_signed p) (nOldFee (p_fee p))
                (p_feePaid p) s Hc) as (res & s2 & Hres).
    rewrite Hres in H. injection H as <- _. exact (Hfail res eq_refl).
  - rewrite (Ht e eq_refl) in H. injection H as <- <-. split; [reflexivity|].
    exact (Ht e eq_refl).
  - rewrite (Ha eq_refl) in H. injection H as <- <-. split; [reflexivity|].
    exact (Ha eq_refl).
Qed.

Lemma bumpfee_failure_no_effect_witness :
  let s := {| wallet := Example.wallet_of (Example.T 97500 1500 Example.no_values) false;
              events := [] |} in
  CommitTransaction_never_false (Example.env 1000 100000 0 false true true) /\
  bumpfee (Example.env 1000 100000 0 false true true) 42 None s
    = (Throw err_change_too_small, s) /\
  (forall res : BumpResult, Throw err_change_too_small <> Return res).
Proof.
  cbv zeta.
  assert (Hc : CommitTransaction_never_false (Example.env 1000 100000 0 false true true))
    by (intros w wtx; reflexivity).
  assert (H : bumpfee (Example.env 1000 100000 0 false true true) 42 None
                {| wallet := Example.wallet_of (Example.T 97500 1500 Example.no_values) false;
                   events := [] |}
              = (Throw err_change_too_small,
                 {| wallet := Example.wallet_of (Example.T 97500 1500 Example.no_values) false;
                    events := [] |})) by (vm_compute; reflexivity).
  assert (Hn : forall res : BumpResult, Throw err_change_too_small <> Return res)
    by (intros res; discriminate).
  split; [exact Hc|]. split; [|exact Hn].
  exact (proj2 (bumpfee_failure_no_effect _ _ _ _ _ _ Hc H Hn)).
Defined.

(** ** C7: a replaced transaction is not bumped again *)

(** C7, the claim as worded fails: a replaced transaction that has been
    mined (depth 1) is refused by the depth check, which comes before the
    check of the replaced-by link; the error is the invalid-address-or-key
    error about mined transactions, which does not name the replacement. *)
Lemma bumpfee_replaced_mined_counterexample :
  let t := Example.T 69000 30000 {[ "replaced_by_txid"%string := "b1"%string ]} in
  let s := {| wallet := Example.wallet_of t false; events := [] |} in
  mapWallet (wallet s) !! 42%N = Some t /\
  mapValue t !! "replaced_by_txid"%string = Some "b1"%string /\
  bumpfee (Example.env 1000 100000 1 false true true) 42 None s = (Throw err_mined, s) /\
  err_mined <> err_already_bumped 42 "b1" /\
  code err_mined <> RPC_INVALID_REQUEST /\
  fmt_args (message err_mined) = [].
Proof.
  cbv zeta. split; [vm_compute; reflexivity|]. split; [vm_compute; reflexivity|].
  split; [vm_compute; reflexivity|]. split; [discriminate|]. split; [discriminate|].
  reflexivity.
Qed.

(** C7: [bumpfee] on a wallet transaction that carries a replaced-by link
    always fails and leaves the wallet, and with it the single link,
    untouched.  The error is that of the first failing check in the order
    of the code: wallet locked, descendants in the wallet, descendants in
    the mempool, depth other than zero, no replaceability signal, and only
    then the invalid-request error naming the replacement; that last error
    is the one reported exactly when the five checks before it pass. *)
Theorem bumpfee_replaced_refused (env : Env) (hash : N) (options : option BumpOptions)
    (s : State) (wtx : CWalletTx) (by_txid : string) :
  mapWallet (wallet s) !! hash = Some wtx ->
  mapValue wtx !! "replaced_by_txid"%string = Some by_txid ->
  bumpfee env hash options s
  = (Throw (if IsLocked (wallet s) then err_unlock_needed
            else if HasWalletSpend env (wallet s) hash then err_wallet_descendants
            else if has_mempool_descendants env hash then err_mempool_descendants
            else if negb (GetDepthInMainChain env wtx =? 0) then err_mined
            else if negb (SignalsOptInRBF env (tx wtx)) then err_not_replaceable
            else err_already_bumped hash by_txid), s) /\
  (bumpfee env hash options s = (Throw (err_already_bumped hash by_txid), s)
   <-> IsLocked (wallet s) = false /\
       HasWalletSpend env (wallet s) hash = false /\
       has_mempool_descendants env hash = false /\
       GetDepthInMainChain env wtx = 0 /\
       SignalsOptInRBF env (tx wtx) = true) /\
  code (err_already_bumped hash by_txid) = RPC_INVALID_REQUEST /\
  ArgStr by_txid ∈ fmt_args (message (err_already_bumped hash by_txid)).
Proof.
  intros Hw Hr.
  destruct (bumpfee_not_prepared env hash options s) as [Ht _].
  assert (He : bumpfee env hash options s
               = (Throw (replaced_refusal env hash (wallet s) wtx by_txid), s)).
  { apply Ht. unfold bumpfee_prepare.
    rewrite (bumpfee_eligible_replaced env hash (wallet s) wtx by_txid Hw Hr). reflexivity. }
  split; [exact He|]. split; [|split; [reflexivity|]].
  - rewrite He. unfold replaced_refusal. split.
    + intros H.
      destruct (IsLocked (wallet s)); [discriminate|].
      destruct (HasWalletSpend env (wallet s) hash); [discriminate|].
      destruct (has_mempool_descendants env hash); [discriminate|].
      destruct (GetDepthInMainChain env wtx =? 0) eqn:Ed; [|discriminate].
      destruct (SignalsOptInRBF env (tx wtx)); [|discriminate].
      apply Z.eqb_eq in Ed. auto.
    + intros (-> & -> & -> & -> & ->). reflexivity.
  - simpl. apply list_elem_of_further, list_elem_of_here.
Qed.

Lemma bumpfee_replaced_refused_witness :
  let t := Example.T 69000 30000 {[ "replaced_by_txid"%string := "b1"%string ]} in
  let s := {| wallet := Example.wallet_of t false; events := [] |} in
  let locked := {| wallet := Example.wallet_of t true; events := [] |} in
  mapWallet (wallet s) !! 42%N = Some t /\
  mapValue t !! "replaced_by_txid"%string = Some "b1"%string /\
  bumpfee (Example.env 1000 100000 0 false true true) 42 None s
    = (Throw (err_already_bumped 42 "b1"), s) /\
  bumpfee (Example.env 1000 100000 1 false true true) 42 None s = (Throw err_mined, s) /\
  bumpfee (Example.env 1000 100000 0 true true true) 42 None s
    = (Throw err_wallet_descendants, s) /\
  bumpfee (Example.env 1000 100000 0 false true true) 42 None locked
    = (Throw err_unlock_needed, locked).
Proof.
  cbv zeta.
  assert (Hw : forall locked,
             mapWallet (wallet {| wallet := Example.wallet_of (Example.T 69000 30000 {[ "replaced_by_txid"%string := "b1"%string ]}) locked; events := [] |}) !! 42%N
             = Some (Example.T 69000 30000 {[ "replaced_by_txid"%string := "b1"%string ]}))
    by (intros locked; vm_compute; reflexivity).
  assert (Hr : mapValue (Example.T 69000 30000 {[ "replaced_by_txid"%string := "b1"%string ]})
                 !! "replaced_by_txid"%string = Some "b1"%string)
    by (vm_compute; reflexivity).
  split; [exact (Hw false)|]. split; [exact Hr|].
  split; [|split; [|split]].
  - exact (proj1 (bumpfee_replaced_refused (Example.env 1000 100000 0 false true true) 42 None
                    _ _ _ (Hw false) Hr)).
  - exact (proj1 (bumpfee_replaced_refused (Example.env 1000 100000 1 false true true) 42 None
                    _ _ _ (Hw false) Hr)).
  - exact (proj1 (bumpfee_replaced_refused (Example.env 1000 100000 0 true true true) 42 None
                    _ _ _ (Hw false) Hr)).
  - exact (proj1 (bumpfee_replaced_refused (Example.env 1000 100000 0 false true true) 42 None
                    _ _ _ (Hw true) Hr)).
Defined.

(** ** C10: the recipient of a payload send *)

(** Unfolds the steps of the RPC monad. *)
Ltac rpc_unfold :=
  unfold commit_or_throw, create, commit, emit, lift, reading;
  unfold mbind, mret, RPC_bind, RPC_ret.

Lemma to_int64_id (fee : Z) : 0 <= fee < 2 ^ 63 -> to_int64 fee = fee.
Proof.
  intros Hfee. unfold to_int64. destruct (fee <? 2 ^ 63) eqn:E; [reflexivity|].
  apply Z.ltb_ge in E. lia.
Qed.

Lemma SendWithOpreturn_insufficient (env : Env) (address : CBitcoinAddress)
    (wtxNew : CWalletTx) (fee nAppID : Z) (vctAppData : list Byte.byte) (s : State) :
  0 <= fee < 2 ^ 63 ->
  GetAddressBalance env (wallet s) (Get address) < fee ->
  SendWithOpreturn env address wtxNew fee nAppID vctAppData s
  = (Throw (insufficient_funds "Insufficient funds"), s).
Proof.
  intros Hfee Hlt. unfold SendWithOpreturn. rpc_unfold. simpl.
  rewrite (to_int64_id fee Hfee).
  replace (GetAddressBalance env (wallet s) (Get address) <? fee) with true
    by (symmetry; apply Z.ltb_lt; exact Hlt).
  reflexivity.
Qed.

(** The wallet calls that one [SendWithOpreturn] makes. *)
Lemma SendWithOpreturn_events (env : Env) (address : CBitcoinAddress)
    (wtxNew : CWalletTx) (fee nAppID : Z) (vctAppData : list Byte.byte) (s s' : State)
    (r : Outcome CWalletTx) :
  0 <= fee < 2 ^ 63 ->
  SendWithOpreturn env address wtxNew fee nAppID vctAppData s = (r, s') ->
  let curBalance := GetAddressBalance env (wallet s) (Get address) in
  let built :=
    Ev_CreateTransaction
      [ {| r_scriptPubKey := GetScriptForDestination env (Get address);
           nAmount := curBalance; fSubtractFeeFromAmount := false |} ]
      (Some {| destChange := CNoDestination; fAllowOtherInputs := true;
               nMinimumTotalFee := fee |})
      (Some (Get address)) (Some (CreateOpReturn env nAppID vctAppData)) in
  exists new, events s' = events s ++ new /\
    (forall vs cc from data, Ev_CreateTransaction vs cc from data ∈ new ->
       Ev_CreateTransaction vs cc from data = built /\ fee <= curBalance) /\
    (forall wtx, r = Return wtx -> new = [Ev_CReserveKey; built; Ev_CommitTransaction wtx]).
Proof.
  intros Hfee. cbv zeta.
  unfold SendWithOpreturn. rpc_unfold. simpl. rewrite (to_int64_id fee Hfee).
  destruct (GetAddressBalance env (wallet s) (Get address) <? fee) eqn:Eb; simpl.
  { intros H. injection H as <- <-. exists []. rewrite app_nil_r.
    split; [reflexivity|]. split; [intros ? ? ? ? Hin; inversion Hin | discriminate]. }
  apply Z.ltb_ge in Eb.
  destruct (GetBroadcastTransactions (wallet s) && negb (g_connman env)); simpl.
  { intros H. injection H as <- <-. exists []. rewrite app_nil_r.
    split; [reflexivity|]. split; [intros ? ? ? ? Hin; inversion Hin | discriminate]. }
  destruct (bool_decide (CreateOpReturn env nAppID vctAppData = [])); simpl.
  { intros H. injection H as <- <-. exists []. rewrite app_nil_r.
    split; [reflexivity|]. split; [intros ? ? ? ? Hin; inversion Hin | discriminate]. }
  destruct (cr_ok (CreateTransaction env _ _ _ _ _ _)); simpl.
  - destruct (CommitTransaction env _ _) as [[ok st] w']; simpl.
    destruct ok; simpl; intros H; injection H as <- <-; simpl;
      rewrite <- !app_assoc; simpl; eexists; (split; [reflexivity|]); split.
    + intros vs cc from data Hin.
      repeat (apply elem_of_cons in Hin as [Hin|Hin];
              [try discriminate; try (split; [exact Hin | exact Eb])|]).
      inversion Hin.
    + intros wtx Hw. injection Hw as <-. reflexivity.
    + intros vs cc from data Hin.
      repeat (apply elem_of_cons in Hin as [Hin|Hin];
              [try discriminate; try (split; [exact Hin | exact Eb])|]).
      inversion Hin.
    + discriminate.
  - intros H; injection H as <- <-; simpl.
    rewrite <- !app_assoc; simpl; eexists; (split; [reflexivity|]); split.
    + intros vs cc from data Hin.
      repeat (apply elem_of_cons in Hin as [Hin|Hin];
              [try discriminate; try (split; [exact Hin | exact Eb])|]).
      inversion Hin.
    + discriminate.
Qed.




(** ** The recipients loop of sendmany *)

Lemma bind_Abort {A B} (m : Outcome A) (f : A -> Outcome B) :
  m ≫= f = Abort -> m = Abort \/ exists a, m = Return a /\ f a = Abort.
Proof. destruct m; simpl; intros H; try discriminate; eauto. Qed.

Lemma bind_Throw {A B} (m : Outcome A) (f : A -> Outcome B) (e : RPCError) :
  m = Throw e -> m ≫= f = Throw e.
Proof. intros ->. reflexivity. Qed.

Lemma throw_if_no_abort (c : bool) (e : RPCError) : throw_if c e <> Abort.
Proof. destruct c; discriminate. Qed.

Lemma get_str_no_abort (v : UniValue) : get_str v <> Abort.
Proof. destruct v; discriminate. Qed.

Lemma check_send_amount_no_abort (env : Env) (v : UniValue) :
  check_send_amount env v <> Abort.
Proof.
  unfold check_send_amount. destruct (AmountFromValue env v) as [e|n]; simpl; [discriminate|].
  destruct (n <=? 0); discriminate.
Qed.

Lemma subtract_fee_from_no_abort (l : list UniValue) (name_ : string) :
  forall b, subtract_fee_from l name_ b <> Abort.
Proof.
  induction l as [|addr rest IH]; intros b; simpl; [discriminate|].
  destruct addr; simpl; try discriminate. apply IH.
Qed.

Lemma sendmany_step_Return (env : Env) (sendTo : list (string * UniValue))
    (sub : list UniValue) (acc acc' : SendManyLoop) (name_ : string) :
  sendmany_step env sendTo sub acc name_ = Return acc' ->
  IsValid (CBitcoinAddress_of env name_) = true /\
  (CBitcoinAddress_of env name_ ∉ setAddress acc) /\
  exists n r,
    AmountFromValue env (find_value sendTo name_) = inr n /\ 0 < n /\ nAmount r = n /\
    acc' = {| setAddress := CBitcoinAddress_of env name_ :: setAddress acc;
              vecSend := vecSend acc ++ [r];
              totalAmount := totalAmount acc + n |}.
Proof.
  unfold sendmany_step, check_send_amount. intros H.
  bind_inv H. apply throw_if_Return in Ha. apply negb_false_iff in Ha.
  bind_inv H. apply throw_if_Return in Ha0. apply bool_decide_eq_false in Ha0.
  bind_inv H. rename a1 into n. bind_inv Ha1. rename a1 into n'.
  destruct (AmountFromValue env (find_value sendTo name_)) as [e|m]; [discriminate|].
  injection Ha2 as ->. bind_inv Ha1. apply throw_if_Return in Ha2. apply Z.leb_gt in Ha2.
  injection Ha1 as ->.
  bind_inv H. injection H as <-.
  split; [assumption|]. split; [assumption|].
  exists n. eexists. split; [reflexivity|]. split; [assumption|].
  split; cycle 1; reflexivity.
Qed.

Lemma sendmany_step_no_abort (env : Env) (sendTo : list (string * UniValue))
    (sub : list UniValue) (acc : SendManyLoop) (name_ : string) :
  sendmany_step env sendTo sub acc name_ <> Abort.
Proof.
  unfold sendmany_step. intros H.
  apply bind_Abort in H as [H | (? & _ & H)]; [exact (throw_if_no_abort _ _ H)|].
  apply bind_Abort in H as [H | (? & _ & H)]; [exact (throw_if_no_abort _ _ H)|].
  apply bind_Abort in H as [H | (? & _ & H)]; [exact (check_send_amount_no_abort _ _ H)|].
  apply bind_Abort in H as [H | (? & _ & H)]; [exact (subtract_fee_from_no_abort _ _ _ H)|].
  discriminate.
Qed.

Lemma sendmany_recipients_app (env : Env) (sendTo : list (string * UniValue))
    (sub : list UniValue) (pre rest : list string) :
  forall acc,
    sendmany_recipients env sendTo sub (pre ++ rest) acc =
    (sendmany_recipients env sendTo sub pre acc ≫= sendmany_recipients env sendTo sub rest).
Proof.
  induction pre as [|k pre IH]; intros acc; simpl; [reflexivity|].
  destruct (sendmany_step env sendTo sub acc k); simpl; [apply IH | reflexivity..].
Qed.

Lemma sendmany_recipients_no_abort (env : Env) (sendTo : list (string * UniValue))
    (sub : list UniValue) (keys : list string) :
  forall acc, sendmany_recipients env sendTo sub keys acc <> Abort.
Proof.
  induction keys as [|k keys IH]; intros acc; simpl; [discriminate|].
  destruct (sendmany_step env sendTo sub acc k) eqn:E; simpl;
    [apply IH | discriminate | destruct (sendmany_step_no_abort _ _ _ _ _ E)].
Qed.

(** What a completed loop guarantees: every key is a valid address seen
    once, with a strictly positive amount; one recipient per key was
    added. *)
Lemma sendmany_recipients_Return (env : Env) (sendTo : list (string * UniValue))
    (sub : list UniValue) (keys : list string) :
  forall acc acc',
    sendmany_recipients env sendTo sub keys acc = Return acc' ->
    (forall a, a ∈ setAddress acc' <->
               a ∈ (CBitcoinAddress_of env <$> keys) \/ a ∈ setAddress acc) /\
    NoDup (CBitcoinAddress_of env <$> keys) /\
    (forall a, a ∈ (CBitcoinAddress_of env <$> keys) -> a ∉ setAddress acc) /\
    (forall k, k ∈ keys ->
       IsValid (CBitcoinAddress_of env k) = true /\
       exists n, AmountFromValue env (find_value sendTo k) = inr n /\ 0 < n) /\
    exists new, vecSend acc' = vecSend acc ++ new /\
                length new = length keys /\
                Forall (fun r => 0 < nAmount r) new /\
                totalAmount acc' = totalAmount acc + foldr Z.add 0 (nAmount <$> new).
Proof.
  induction keys as [|k keys IH]; intros acc acc' H; simpl in H.
  - injection H as <-. simpl. split; [|split; [|split; [|split]]].
    + intros a. split; [auto|]. intros [Hin|Hin]; [inversion Hin | exact Hin].
    + constructor.
    + intros a Hin. inversion Hin.
    + intros k Hin. inversion Hin.
    + exists []. rewrite app_nil_r. simpl. repeat split; [constructor | lia].
  - bind_inv H. rename a into acc1.
    apply sendmany_step_Return in Ha as (Hv & Hnew & n & r & Hn & Hpos & Hr & ->).
    apply IH in H as (Hset & Hnd & Hdisj & Hkeys & new & Hvec & Hlen & Hall & Htot).
    simpl in *. split; [|split; [|split; [|split]]].
    + intros a. rewrite Hset, !elem_of_cons. tauto.
    + constructor; [|exact Hnd].
      intros Hin. apply (Hdisj _ Hin). apply list_elem_of_here.
    + intros a Hin Hacc. apply elem_of_cons in Hin as [->|Hin]; [exact (Hnew Hacc)|].
      apply (Hdisj _ Hin). apply list_elem_of_further. exact Hacc.
    + intros k' Hin. apply elem_of_cons in Hin as [->|Hin]; [|exact (Hkeys _ Hin)].
      split; [exact Hv|]. exists n. split; assumption.
    + exists (r :: new). rewrite Hvec, <- app_assoc. simpl.
      split; [reflexivity|]. split; [lia|]. split; [constructor; [lia | exact Hall]|].
      unfold fmap in *. lia.
Qed.

Lemma sendmany_step_duplicate (env : Env) (sendTo : list (string * UniValue))
    (sub : list UniValue) (acc : SendManyLoop) (name_ : string) :
  IsValid (CBitcoinAddress_of env name_) = true ->
  CBitcoinAddress_of env name_ ∈ setAddress acc ->
  sendmany_step env sendTo sub acc name_ = Throw (err_duplicated_address name_).
Proof.
  intros Hv Hin. unfold sendmany_step. rewrite Hv. simpl.
  rewrite bool_decide_eq_true_2 by exact Hin. reflexivity.
Qed.

Lemma sendmany_step_amount (env : Env) (sendTo : list (string * UniValue))
    (sub : list UniValue) (acc : SendManyLoop) (name_ : string) (n : Z) :
  IsValid (CBitcoinAddress_of env name_) = true ->
  CBitcoinAddress_of env name_ ∉ setAddress acc ->
  AmountFromValue env (find_value sendTo name_) = inr n ->
  n <= 0 ->
  sendmany_step env sendTo sub acc name_ = Throw err_invalid_amount_for_send.
Proof.
  intros Hv Hin Hn Hle. unfold sendmany_step, check_send_amount. rewrite Hv. simpl.
  rewrite bool_decide_eq_false_2 by exact Hin. simpl. rewrite Hn. simpl.
  replace (n <=? 0) with true by (symmetry; apply Z.leb_le; exact Hle). reflexivity.
Qed.

Lemma wallet_comment_no_abort (key : string) (param tested : option UniValue)
    (wtx : CWalletTx) :
  wallet_comment key param tested wtx <> Abort.
Proof.
  unfold wallet_comment.
  destruct param as [p|], tested as [t|]; try discriminate.
  destruct (isNull p); [discriminate|].
  destruct t; simpl; try discriminate.
  destruct (String.eqb val EmptyString); [discriminate|].
  destruct p; simpl; discriminate.
Qed.

Lemma check_optional_address_no_abort (env : Env) (s : string) :
  check_optional_address env s <> Abort.
Proof.
  unfold check_optional_address. destruct (String.eqb s EmptyString); [discriminate|].
  apply throw_if_no_abort.
Qed.

Lemma sendmany_validate_no_abort (env : Env) (params : SendManyParams) (w : CWallet) :
  sendmany_validate env params w <> Abort.
Proof.
  unfold sendmany_validate, sendmany_prelim, AccountFromValue. intros H.
  apply bind_Abort in H as [H | (wtx & _ & H)].
  - apply bind_Abort in H as [H | (? & _ & H)]; [exact (throw_if_no_abort _ _ H)|].
    apply bind_Abort in H as [H | (? & _ & H)].
    { apply bind_Abort in H as [H | (? & _ & H)]; [exact (get_str_no_abort _ H)|].
      apply bind_Abort in H as [H | (? & _ & H)]; [exact (throw_if_no_abort _ _ H)|].
      discriminate. }
    apply bind_Abort in H as [H | (? & _ & H)];
      [exact (check_optional_address_no_abort _ _ H)|].
    apply bind_Abort in H as [H | (? & _ & H)];
      [exact (check_optional_address_no_abort _ _ H)|].
    exact (wallet_comment_no_abort _ _ _ _ H).
  - apply bind_Abort in H as [H | (? & _ & H)];
      [exact (sendmany_recipients_no_abort _ _ _ _ _ H)|].
    apply bind_Abort in H as [H | (? & _ & H)]; [exact (throw_if_no_abort _ _ H)|].
    discriminate.
Qed.

Lemma sendmany_not_validated (env : Env) (params : SendManyParams) (s : State)
    (e : RPCError) :
  sendmany_validate env params (wallet s) = Throw e ->
  sendmany env params s = (Throw e, s).
Proof.
  intros H. unfold sendmany, reading. unfold mbind at 1, RPC_bind. rewrite H. reflexivity.
Qed.

(** A failure of the recipients loop is the failure of the validation
    stage when the checks before the loop pass. *)
Lemma sendmany_validate_loop_error (env : Env) (params : SendManyParams) (w : CWallet)
    (wtx : CWalletTx) (e : RPCError) :
  sendmany_prelim env params w = Return wtx ->
  sendmany_recipients env (sm_amounts params) (default [] (sm_subtractfeefrom params))
    ((sm_amounts params).*1) SendManyLoop_init = Throw e ->
  sendmany_validate env params w = Throw e.
Proof.
  intros Hp Hl. unfold sendmany_validate. rewrite Hp. simpl. rewrite Hl. reflexivity.
Qed.

(** ** C5: amounts and duplicate destinations *)

(** C5: every entry point that takes a recipient amount refuses an amount
    that is not strictly positive with its invalid-amount error and leaves
    the state as it was: [SendMoneyNew] as its first check, [sendtoaddress]
    and [sendfromaddress] once the addresses are valid, [sendmany] for each
    recipient.  [sendmany] fails, before any source address is selected, a
    key reserved or a transaction created, whenever a recipient amount is
    not positive or two keys decode to the same address; the error is the
    duplicated-address error (naming the second key), or the
    invalid-amount error, when that is the first check that fails.
    [SendWithOpreturn], whose only recipient amount is the balance of the
    sender, asks for a transaction only when that amount is at least the
    fee, hence strictly positive for a positive fee. *)
Theorem payment_amounts_validated (env : Env) (s : State) :
  (forall address nValue fSub wtxNew pfrom,
     nValue <= 0 ->
     SendMoneyNew env address nValue fSub wtxNew pfrom s = (Throw err_invalid_amount, s)) /\
  (forall addr amount comment comment_to sub n,
     IsValid (CBitcoinAddress_of env addr) = true ->
     AmountFromValue env amount = inr n -> n <= 0 ->
     sendtoaddress env addr amount comment comment_to sub s
     = (Throw err_invalid_amount_for_send, s)) /\
  (forall from addr amount comment comment_to sub n,
     IsValid (CBitcoinAddress_of env from) = true ->
     IsValid (CBitcoinAddress_of env addr) = true ->
     AmountFromValue env amount = inr n -> n <= 0 ->
     sendfromaddress env from addr amount comment comment_to sub s
     = (Throw err_invalid_amount_for_send, s)) /\
  (forall params,
     let keys := (sm_amounts params).*1 in
     (exists k n, k ∈ keys /\
                  AmountFromValue env (find_value (sm_amounts params) k) = inr n /\ n <= 0)
     \/ ~ NoDup (CBitcoinAddress_of env <$> keys) ->
     exists e, sendmany env params s = (Throw e, s)) /\
  (forall params wtx pre name_ rest acc,
     sendmany_prelim env params (wallet s) = Return wtx ->
     (sm_amounts params).*1 = pre ++ name_ :: rest ->
     sendmany_recipients env (sm_amounts params) (default [] (sm_subtractfeefrom params))
       pre SendManyLoop_init = Return acc ->
     (CBitcoinAddress_of env name_ ∈ (CBitcoinAddress_of env <$> pre) ->
      sendmany env params s = (Throw (err_duplicated_address name_), s)) /\
     (forall n,
        IsValid (CBitcoinAddress_of env name_) = true ->
        CBitcoinAddress_of env name_ ∉ (CBitcoinAddress_of env <$> pre) ->
        AmountFromValue env (find_value (sm_amounts params) name_) = inr n -> n <= 0 ->
        sendmany env params s = (Throw err_invalid_amount_for_send, s))) /\
  (forall address wtxNew fee nAppID vctAppData r s',
     0 < fee < 2 ^ 63 ->
     SendWithOpreturn env address wtxNew fee nAppID vctAppData s = (r, s') ->
     exists new, events s' = events s ++ new /\
       forall vs cc from data, Ev_CreateTransaction vs cc from data ∈ new ->
         Forall (fun rcp => 0 < nAmount rcp) vs).
Proof.
  split; [|split; [|split; [|split; [|split]]]].
  - intros address nValue fSub wtxNew pfrom Hle.
    unfold SendMoneyNew. rpc_unfold.
    replace (nValue <=? 0) with true by (symmetry; apply Z.leb_le; exact Hle).
    reflexivity.
  - intros addr amount comment comment_to sub n Hv Hn Hle.
    unfold sendtoaddress, check_address, check_send_amount. rpc_unfold.
    rewrite Hv. simpl. rewrite Hn. simpl.
    replace (n <=? 0) with true by (symmetry; apply Z.leb_le; exact Hle).
    reflexivity.
  - intros from addr amount comment comment_to sub n Hf Hv Hn Hle.
    unfold sendfromaddress, check_address, check_send_amount. rpc_unfold.
    rewrite Hf. simpl. rewrite Hv. simpl. rewrite Hn. simpl.
    replace (n <=? 0) with true by (symmetry; apply Z.leb_le; exact Hle).
    reflexivity.
  - intros params keys Hbad.
    destruct (sendmany_validate env params (wallet s)) as [v|e|] eqn:Hval.
    + exfalso. unfold sendmany_validate in Hval.
      bind_inv Hval. bind_inv Hval.
      apply sendmany_recipients_Return in Ha0 as (_ & Hnd & _ & Hkeys & _).
      destruct Hbad as [(k & n & Hin & Hn & Hle) | Hdup]; [|exact (Hdup Hnd)].
      destruct (Hkeys k Hin) as (_ & n' & Hn' & Hpos).
      rewrite Hn in Hn'. injection Hn' as <-. lia.
    + exists e. apply sendmany_not_validated. exact Hval.
    + destruct (sendmany_validate_no_abort _ _ _ Hval).
  - intros params wtx pre name_ rest acc Hp Hkeys Hpre.
    assert (Hloop : forall e,
               sendmany_step env (sm_amounts params) (default [] (sm_subtractfeefrom params))
                 acc name_ = Throw e ->
               sendmany env params s = (Throw e, s)).
    { intros e He. apply sendmany_not_validated.
      apply (sendmany_validate_loop_error env params (wallet s) wtx e Hp).
      rewrite Hkeys, sendmany_recipients_app, Hpre. simpl. rewrite He. reflexivity. }
    apply sendmany_recipients_Return in Hpre as (Hset & _ & _ & Hvalid & _).
    split.
    + intros Hin. apply Hloop. apply sendmany_step_duplicate.
      * apply list_elem_of_fmap in Hin as (k & Hk & Hkin).
        rewrite Hk. exact (proj1 (Hvalid k Hkin)).
      * apply Hset. left. exact Hin.
    + intros n Hv Hnin Hn Hle. apply Hloop.
      apply (sendmany_step_amount env _ _ acc name_ n Hv); [|exact Hn | exact Hle].
      intros Hin. apply Hset in Hin as [Hin|Hin]; [exact (Hnin Hin) | inversion Hin].
  - intros address wtxNew fee nAppID vctAppData r s' Hfee H.
    destruct (SendWithOpreturn_events env address wtxNew fee nAppID vctAppData s s' r
                ltac:(lia) H) as (new & Hev & Hbuilt & _).
    exists new. split; [exact Hev|].
    intros vs cc from data Hin. destruct (Hbuilt vs cc from data Hin) as [Heq Hle].
    injection Heq as -> _ _ _. constructor; [simpl; lia | constructor].
Qed.

Lemma payment_amounts_validated_witness :
  let s := {| wallet := Example.wallet_of (Example.T 69000 30000 Example.no_values) false;
              events := [] |} in
  let env := Example.env 1000 100000 0 false true true in
  let params := {| sm_fromaccount := VSTR EmptyString; sm_fromaddress := "A"; sm_changeaddress := EmptyString;
                   sm_amounts := [("A"%string, VNUM "1000"); (" A"%string, VNUM "3000")];
                   sm_minconf := None; sm_comment := None; sm_subtractfeefrom := None |} in
  SendMoneyNew env (CKeyID 2) 0 false CWalletTx_null None s = (Throw err_invalid_amount, s) /\
  sendtoaddress env "B" (VNUM "0") None None None s = (Throw err_invalid_amount_for_send, s) /\
  sendmany env params s = (Throw (err_duplicated_address " A"), s).
Proof.
  cbv zeta.
  destruct (payment_amounts_validated (Example.env 1000 100000 0 false true true)
              {| wallet := Example.wallet_of (Example.T 69000 30000 Example.no_values) false;
                 events := [] |}) as (Hsend & Hto & _ & _ & Hmany & _).
  split; [apply Hsend; lia|].
  split; [apply (Hto "B"%string (VNUM "0") None None None 0); [reflexivity | reflexivity | lia]|].
  set (params := {| sm_fromaccount := VSTR EmptyString; sm_fromaddress := "A"; sm_changeaddress := EmptyString;
                    sm_amounts := [("A"%string, VNUM "1000"); (" A"%string, VNUM "3000")];
                    sm_minconf := None; sm_comment := None; sm_subtractfeefrom := None |}).
  assert (H1 : exists wtx,
             sendmany_prelim (Example.env 1000 100000 0 false true true) params
               (Example.wallet_of (Example.T 69000 30000 Example.no_values) false)
             = Return wtx) by (eexists; vm_compute; reflexivity).
  assert (H3 : exists acc,
             sendmany_recipients (Example.env 1000 100000 0 false true true)
               (sm_amounts params) (default [] (sm_subtractfeefrom params)) ["A"%string]
               SendManyLoop_init = Return acc) by (eexists; vm_compute; reflexivity).
  destruct H1 as (wtx & H1). destruct H3 as (acc & H3).
  apply (proj1 (Hmany params wtx ["A"%string] " A"%string [] acc H1 eq_refl H3)).
  vm_compute. apply list_elem_of_here.
Defined.

(** ** C6: insufficient funds precede the reserve key *)

(** C6: when the balance of the given source address is below the
    requested amount, or the wallet can select no address that covers it,
    [SendMoneyNew] (for a valid amount) and [sendmany] (for a request that
    passed validation) fail with the insufficient-funds error and the
    state, wallet and record of effects, is exactly as before: no reserve
    key was constructed, no transaction created.  The same holds for
    [SendWithOpreturn] when the fee exceeds the balance. *)
Theorem insufficient_funds_before_reserve (env : Env) (s : State) :
  (forall address nValue fSub wtxNew pfrom,
     match pfrom with
     | Some fromAddress => GetAddressBalance env (wallet s) fromAddress < nValue
     | None => SelectAddress env (wallet s) nValue None = None
     end ->
     (exists e, SendMoneyNew env address nValue fSub wtxNew pfrom s = (Throw e, s)) /\
     (0 < nValue ->
      SendMoneyNew env address nValue fSub wtxNew pfrom s
      = (Throw (insufficient_funds "Insufficient funds"), s))) /\
  (forall params v,
     sendmany_validate env params (wallet s) = Return v ->
     (if negb (String.eqb (sm_fromaddress params) EmptyString)
      then GetAddressBalance env (wallet s)
             (Get (CBitcoinAddress_of env (sm_fromaddress params))) < totalAmount v.2
      else SelectAddress env (wallet s) (totalAmount v.2)
             (Some (default 1 (sm_minconf params))) = None) ->
     sendmany env params s = (Throw err_insufficient_simple, s) /\
     code err_insufficient_simple = RPC_WALLET_INSUFFICIENT_FUNDS) /\
  (forall address wtxNew fee nAppID vctAppData,
     0 <= fee < 2 ^ 63 ->
     GetAddressBalance env (wallet s) (Get address) < fee ->
     SendWithOpreturn env address wtxNew fee nAppID vctAppData s
     = (Throw (insufficient_funds "Insufficient funds"), s)).
Proof.
  split; [|split].
  - intros address nValue fSub wtxNew pfrom Hlow.
    assert (Hsrc : SendMoneyNew_source env nValue pfrom (wallet s)
                   = Throw (insufficient_funds "Insufficient funds")).
    { unfold SendMoneyNew_source. destruct pfrom as [fromAddress|].
      - replace (GetAddressBalance env (wallet s) fromAddress <? nValue) with true
          by (symmetry; apply Z.ltb_lt; exact Hlow).
        reflexivity.
      - rewrite Hlow. reflexivity. }
    unfold SendMoneyNew. rpc_unfold. rewrite Hsrc.
    destruct (nValue <=? 0) eqn:E; simpl.
    + split; [eexists; reflexivity|]. intros Hpos. apply Z.leb_le in E. lia.
    + split; [eexists; reflexivity | reflexivity].
  - intros params v Hval Hlow. split; [|reflexivity].
    assert (Hsrc : sendmany_source env params (totalAmount v.2) (wallet s)
                   = Throw err_insufficient_simple).
    { unfold sendmany_source. destruct (negb (String.eqb (sm_fromaddress params) EmptyString)).
      - replace (_ <? _) with true by (symmetry; apply Z.ltb_lt; exact Hlow).
        reflexivity.
      - rewrite Hlow. reflexivity. }
    unfold sendmany. rpc_unfold. rewrite Hval. simpl. rewrite Hsrc. reflexivity.
  - intros address wtxNew fee nAppID vctAppData Hfee Hlow.
    apply SendWithOpreturn_insufficient; assumption.
Qed.

Lemma insufficient_funds_before_reserve_witness :
  let s := {| wallet := Example.wallet_of (Example.T 69000 30000 Example.no_values) false;
              events := [] |} in
  let env := Example.env 1000 100000 0 false true true in
  let params := {| sm_fromaccount := VSTR EmptyString; sm_fromaddress := "A"; sm_changeaddress := EmptyString;
                   sm_amounts := [("A"%string, VNUM "3000"); ("B"%string, VNUM "3000")];
                   sm_minconf := None; sm_comment := None; sm_subtractfeefrom := None |} in
  GetAddressBalance env (wallet s) (CKeyID 1) < 6000 /\
  SendMoneyNew env (CKeyID 2) 6000 false CWalletTx_null (Some (CKeyID 1)) s
  = (Throw (insufficient_funds "Insufficient funds"), s) /\
  sendmany env params s = (Throw err_insufficient_simple, s).
Proof.
  cbv zeta.
  destruct (insufficient_funds_before_reserve (Example.env 1000 100000 0 false true true)
              {| wallet := Example.wallet_of (Example.T 69000 30000 Example.no_values) false;
                 events := [] |}) as (Hsend & Hmany & _).
  split; [reflexivity|].
  split.
  - apply (proj2 (Hsend (CKeyID 2) 6000 false CWalletTx_null (Some (CKeyID 1))
                    ltac:(reflexivity))). lia.
  - assert (Hv : exists v,
               sendmany_validate (Example.env 1000 100000 0 false true true)
                 {| sm_fromaccount := VSTR EmptyString; sm_fromaddress := "A"; sm_changeaddress := EmptyString;
                    sm_amounts := [("A"%string, VNUM "3000"); ("B"%string, VNUM "3000")];
                    sm_minconf := None; sm_comment := None; sm_subtractfeefrom := None |}
                 (Example.wallet_of (Example.T 69000 30000 Example.no_values) false)
               = Return v /\ totalAmount v.2 = 6000)
      by (eexists; split; vm_compute; reflexivity).
    destruct Hv as (v & Hv & Htot).
    apply (proj1 (Hmany _ v Hv ltac:(simpl; rewrite Htot; reflexivity))).
Defined.

(** ** Runs on the concrete wallet *)

(** A bump by estimation: the old fee is 1000, the estimated fee 2000 is
    below the floor of old rate + 1 + 5000, so the fee becomes 6001 and the
    change output shrinks from 30000 to 24999. *)
Example bumpfee_by_estimate :
  exists s',
    bumpfee (Example.env 1000 100000 0 false true true) 42 None
      {| wallet := Example.wallet_of (Example.T 69000 30000 Example.no_values) false;
         events := [] |}
    = (Return {| res_txid := 43; res_origfee := 1000; res_fee := 6001; res_errors := [] |}, s')
    /\ (vout ∘ tx <$> mapWallet (wallet s') !! 99%N)
       = Some [ {| nValue := 69000; scriptPubKey := Example.script_other |};
                {| nValue := 24999; scriptPubKey := Example.script_change |} ]
    /\ (mapValue <$> mapWallet (wallet s') !! 42%N)
       = Some {[ "replaced_by_txid"%string := "new"%string ]}.
Proof. eexists. split; [vm_compute; reflexivity|]. split; vm_compute; reflexivity. Qed.

(** A change output left exactly at the dust threshold is discarded; one
    satoshi above it is kept. *)
Example bumpfee_dust_boundary :
  (bumpfee_prepare (Example.env 1000 100000 0 false true true) 42 None
     (Example.wallet_of (Example.T 93453 5547 Example.no_values) false)
   ≫= fun p => Return (vout (p_signed p), p_feePaid p))
  = Return ([ {| nValue := 93453; scriptPubKey := Example.script_other |} ], 6547) /\
  (bumpfee_prepare (Example.env 1000 100000 0 false true true) 42 None
     (Example.wallet_of (Example.T 93452 5548 Example.no_values) false)
   ≫= fun p => Return (vout (p_signed p), p_feePaid p))
  = Return ([ {| nValue := 93452; scriptPubKey := Example.script_other |};
              {| nValue := 547; scriptPubKey := Example.script_change |} ], 6001).
Proof. split; vm_compute; reflexivity. Qed.

(** With [replaceable] false the sequence number of the input is raised to
    [0xfffffffe]. *)
Example bumpfee_not_replaceable :
  (bumpfee_prepare (Example.env 1000 100000 0 false true true) 42
     (Some {| opt_confTarget := None; opt_totalFee := None; opt_replaceable := Some false |})
     (Example.wallet_of (Example.T 69000 30000 Example.no_values) false)
   ≫= fun p => Return (nSequence <$> vin (p_signed p)))
  = Return [4294967294].
Proof. vm_compute. reflexivity. Qed.

(** A payload send from address "A": one recipient, the sender, with the
    whole balance of 5000. *)
Example SendWithOpreturn_run :
  exists wtx s',
    SendWithOpreturn (Example.env 1000 100000 0 false true true)
      {| IsValid := true; Get := CKeyID 1 |} CWalletTx_null 1000 1 [Byte.x01]
      {| wallet := Example.wallet_of (Example.T 69000 30000 Example.no_values) false;
         events := [] |}
    = (Return wtx, s') /\
    events s' =
      [ Ev_CReserveKey;
        Ev_CreateTransaction
          [ {| r_scriptPubKey := Example.script_change; nAmount := 5000;
               fSubtractFeeFromAmount := false |} ]
          (Some {| destChange := CNoDestination; fAllowOtherInputs := true;
                   nMinimumTotalFee := 1000 |})
          (Some (CKeyID 1)) (Some [Byte.x6a; Byte.x01]);
        Ev_CommitTransaction wtx ].
Proof. eexists. eexists. split; vm_compute; reflexivity. Qed.

(** * Further properties *)

(** ** Reasoning about outcomes, continued *)

Lemma bind_Return_eq {A B} (m : Outcome A) (f : A -> Outcome B) (a : A) :
  m = Return a -> m ≫= f = f a.
Proof. intros ->. reflexivity. Qed.

(** ** What a replacement conserves *)

Lemma total_out_app (l1 l2 : list CTxOut) :
  total_out (l1 ++ l2) = total_out l1 + total_out l2.
Proof.
  unfold total_out. induction l1 as [|o l1 IH]; simpl; [reflexivity|].
  unfold fmap in *. lia.
Qed.

Lemma total_out_split (l : list CTxOut) (n : nat) (o : CTxOut) :
  l !! n = Some o ->
  total_out l = total_out (take n l) + nValue o + total_out (drop (S n) l).
Proof.
  intros H. rewrite <- (take_drop_middle l n o H) at 1.
  rewrite total_out_app. unfold total_out. simpl. unfold fmap. lia.
Qed.

Lemma total_out_erase (l : list CTxOut) (n : nat) (o : CTxOut) :
  l !! n = Some o -> total_out (erase l n) = total_out l - nValue o.
Proof.
  intros H. unfold erase. rewrite total_out_app, (total_out_split l n o H). lia.
Qed.

Lemma total_out_insert (l : list CTxOut) (n : nat) (o o' : CTxOut) :
  l !! n = Some o -> total_out (<[n := o']> l) = total_out l - nValue o + nValue o'.
Proof.
  intros H. pose proof (lookup_lt_Some _ _ _ H) as Hlt.
  rewrite (total_out_split l n o H).
  rewrite (total_out_split (<[n := o']> l) n o').
  - rewrite take_insert_ge by lia. rewrite drop_insert_lt by lia. lia.
  - apply list_lookup_insert_eq. exact Hlt.
Qed.

Lemma change_indices_is_change (env : Env) (w : CWallet) (outs : list CTxOut) :
  forall i j, j ∈ change_indices env w outs i ->
    exists o, outs !! Z.to_nat (j - i) = Some o /\ IsChange env w o = true.
Proof.
  induction outs as [|o rest IH]; intros i j Hj; simpl in Hj; [inversion Hj|].
  destruct (IsChange env w o) eqn:E.
  - apply elem_of_cons in Hj as [->|Hj].
    + exists o. rewrite Z.sub_diag. split; [reflexivity | exact E].
    + pose proof (change_indices_ge _ _ _ _ _ Hj) as Hge.
      destruct (IH _ _ Hj) as (o' & Ho' & Hc). exists o'. split; [|exact Hc].
      replace (Z.to_nat (j - i)) with (S (Z.to_nat (j - (i + 1)))) by lia. exact Ho'.
  - pose proof (change_indices_ge _ _ _ _ _ Hj) as Hge.
    destruct (IH _ _ Hj) as (o' & Ho' & Hc). exists o'. split; [|exact Hc].
    replace (Z.to_nat (j - i)) with (S (Z.to_nat (j - (i + 1)))) by lia. exact Ho'.
Qed.

(** X1: a successful [bumpfee] takes the whole fee increase out of the
    change output of the original and moves no other value: the output
    values of the replacement plus the fee reported equal the output values
    of the original plus the old fee; the increase is strictly positive and
    at most the value of the change output; the outputs of the replacement
    are those of the original with the change output either removed (then
    its whole value went to the fee) or reduced by the increase (and then
    still above its dust threshold). *)
Theorem bumpfee_value_conservation (env : Env) (hash : N) (options : option BumpOptions)
    (s s' : State) (res : BumpResult) :
  bumpfee env hash options s = (Return res, s') ->
  exists p poutput,
    bumpfee_prepare env hash options (wallet s) = Return p /\
    mapWallet (wallet s) !! hash = Some (p_wtx p) /\
    vout (tx (p_wtx p)) !! Z.to_nat (p_nOutput p) = Some poutput /\
    IsChange env (wallet s) poutput = true /\
    total_out (vout (p_signed p)) + res_fee res
      = total_out (vout (tx (p_wtx p))) + res_origfee res /\
    0 < res_fee res - res_origfee res <= nValue poutput /\
    let reduced := {| nValue := nValue poutput - (res_fee res - res_origfee res);
                   scriptPubKey := scriptPubKey poutput |} in
    ((vout (p_signed p) = erase (vout (tx (p_wtx p))) (Z.to_nat (p_nOutput p)) /\
      res_fee res - res_origfee res = nValue poutput)
     \/
     (vout (p_signed p) = <[Z.to_nat (p_nOutput p) := reduced]> (vout (tx (p_wtx p))) /\
      GetDustThreshold env reduced (dustRelayFee env) < nValue reduced)).
Proof.
  intros H. apply bumpfee_Return in H as (p & Hp & _ & Horig & Hfee).
  destruct (bumpfee_prepare_stages _ _ _ _ _ Hp)
    as (maxSize & po & He & _ & _ & _ & _ & Hrb & Hsign).
  apply bumpfee_eligible_Return in He as (_ & Hw & _ & _ & _ & _ & _ & _ & Hc).
  apply bumpfee_rebuild_Return in Hrb as (Hd & poutput & Hout & Hv & _ & Hdust).
  pose proof (proj2 (bumpfee_prepare_same_inputs _ _ _ _ _ Hp)) as Hso.
  cbv zeta in Hdust. simpl in Hdust.
  exists p, poutput. split; [exact Hp|]. split; [exact Hw|]. split; [exact Hout|].
  split.
  { destruct (change_indices_is_change env (wallet s) (vout (tx (p_wtx p))) 0 (p_nOutput p))
      as (o & Ho & Hch).
    - rewrite Hc. apply list_elem_of_here.
    - rewrite Z.sub_0_r, Hout in Ho. injection Ho as <-. exact Hch. }
  rewrite Horig, Hfee, Hso. cbv zeta.
  destruct (_ <=? _) eqn:Ed in Hdust; destruct Hdust as [Hvout ->].
  - rewrite Hvout, (total_out_erase _ _ _ Hout).
    split; [lia|]. split; [lia|]. left. split; [reflexivity | lia].
  - apply Z.leb_gt in Ed. rewrite Hvout, (total_out_insert _ _ _ _ Hout). simpl.
    split; [lia|]. split; [lia|]. right.
    split; [reflexivity | exact Ed].
Qed.

Lemma bumpfee_value_conservation_witness :
  exists res s' p,
    bumpfee (Example.env 1000 100000 0 false true true) 42 None
      {| wallet := Example.wallet_of (Example.T 69000 30000 Example.no_values) false;
         events := [] |} = (Return res, s') /\
    bumpfee_prepare (Example.env 1000 100000 0 false true true) 42 None
      (Example.wallet_of (Example.T 69000 30000 Example.no_values) false) = Return p /\
    total_out (vout (p_signed p)) + res_fee res = 99000 + res_origfee res.
Proof.
  assert (H : exists res s',
             bumpfee (Example.env 1000 100000 0 false true true) 42 None
               {| wallet := Example.wallet_of (Example.T 69000 30000 Example.no_values) false;
                  events := [] |} = (Return res, s'))
    by (eexists; eexists; vm_compute; reflexivity).
  destruct H as (res & s' & H).
  destruct (bumpfee_value_conservation _ _ _ _ _ _ H) as (p & poutput & Hp & Hw & _ & _ & Hsum & _).
  exists res, s', p. split; [exact H|]. split; [exact Hp|].
  rewrite Hsum. f_equal.
  assert (Hw0 : mapWallet (Example.wallet_of (Example.T 69000 30000 Example.no_values) false)
                  !! 42%N = Some (Example.T 69000 30000 Example.no_values))
    by (vm_compute; reflexivity).
  cbn [wallet] in Hw. rewrite Hw0 in Hw. injection Hw as <-. reflexivity.
Defined.

(** ** The inputs of a replacement, continued *)

Lemma lookup_inputs_Return (w : CWallet) (ins : list CTxIn) (u : unit) :
  lookup_inputs w ins = Return u -> Forall (fun input => prevout_in_wallet w input = true) ins.
Proof.
  induction ins as [|input rest IH]; simpl; intros H; [constructor|].
  bind_inv H. apply assert_Return in Ha. constructor; [exact Ha | exact (IH H)].
Qed.

Lemma mark_final_sequence (ins : list CTxIn) :
  nSequence <$> (mark_final <$> ins) = Z.max 4294967294 <$> (nSequence <$> ins).
Proof.
  induction ins as [|i rest IH]; [reflexivity|].
  rewrite !fmap_cons, IH. f_equal. unfold mark_final.
  destruct (nSequence i <? 4294967294) eqn:E; simpl;
    [apply Z.ltb_lt in E | apply Z.ltb_ge in E]; lia.
Qed.

Lemma get_int_Return (v a : Z) :
  get_int v = Return a -> a = v /\ - 2 ^ 31 <= v < 2 ^ 31.
Proof.
  unfold get_int. intros H. bind_inv H. injection H as <-.
  apply throw_if_Return in Ha. apply negb_false_iff, andb_true_iff in Ha as [Hl Hu].
  apply Z.leb_le in Hl. apply Z.ltb_lt in Hu. auto.
Qed.

Lemma get_int_range (v : Z) :
  get_int v = if decide (- 2 ^ 31 <= v < 2 ^ 31) then Return v else Throw err_json_range.
Proof.
  unfold get_int.
  destruct (decide (- 2 ^ 31 <= v < 2 ^ 31)) as [[Hl Hu]|Hn].
  - apply Z.leb_le in Hl. apply Z.ltb_lt in Hu. rewrite Hl, Hu. reflexivity.
  - destruct (- 2 ^ 31 <=? v) eqn:El; [|reflexivity].
    destruct (v <? 2 ^ 31) eqn:Eu; [|reflexivity].
    apply Z.leb_le in El. apply Z.ltb_lt in Eu. contradiction Hn. auto.
Qed.

Lemma get_int64_Return (v a : Z) :
  get_int64 v = Return a -> a = v /\ - 2 ^ 63 <= v < 2 ^ 63.
Proof.
  unfold get_int64. intros H. bind_inv H. injection H as <-.
  apply throw_if_Return in Ha. apply negb_false_iff, andb_true_iff in Ha as [Hl Hu].
  apply Z.leb_le in Hl. apply Z.ltb_lt in Hu. auto.
Qed.

Lemma get_int64_range (v : Z) :
  get_int64 v = if decide (- 2 ^ 63 <= v < 2 ^ 63) then Return v else Throw err_json_range.
Proof.
  unfold get_int64.
  destruct (decide (- 2 ^ 63 <= v < 2 ^ 63)) as [[Hl Hu]|Hn].
  - apply Z.leb_le in Hl. apply Z.ltb_lt in Hu. rewrite Hl, Hu. reflexivity.
  - destruct (- 2 ^ 63 <=? v) eqn:El; [|reflexivity].
    destruct (v <? 2 ^ 63) eqn:Eu; [|reflexivity].
    apply Z.leb_le in El. apply Z.ltb_lt in Eu. contradiction Hn. auto.
Qed.

Lemma bumpfee_options_Return (env : Env) (maxSize : Z) (options : option BumpOptions)
    (po : ParsedOptions) :
  bumpfee_options env maxSize options = Return po ->
  replaceable po = match options with
                   | Some o => default true (opt_replaceable o)
                   | None => true
                   end /\
  match options with
  | None => totalFee po = 0 /\ specifiedConfirmTarget po = false
  | Some o =>
      match opt_confTarget o, opt_totalFee o with
      | Some _, Some _ => False
      | Some ct, None =>
          0 < ct /\ newConfirmTarget po = ct /\ specifiedConfirmTarget po = true /\
          totalFee po = 0 /\ ct < 2 ^ 31
      | None, Some tf =>
          GetRequiredFee env maxSize <= tf /\ totalFee po = tf /\
          specifiedConfirmTarget po = false /\ - 2 ^ 63 <= tf < 2 ^ 63
      | None, None => totalFee po = 0 /\ specifiedConfirmTarget po = false
      end
  end.
Proof.
  unfold bumpfee_options. destruct options as [o|].
  - intros H. bind_inv H. injection H as <-. simpl. split; [reflexivity|].
    destruct (opt_confTarget o) as [ct|], (opt_totalFee o) as [tf|]; try discriminate.
    + apply bind_Return in Ha as (v & Hv & Ha). apply get_int_Return in Hv as [-> Hr].
      bind_inv Ha. apply throw_if_Return in Ha0. apply Z.leb_gt in Ha0.
      injection Ha as <-. simpl. repeat split; try reflexivity; lia.
    + apply bind_Return in Ha as (v & Hv & Ha). apply get_int64_Return in Hv as [-> Hr].
      bind_inv Ha. apply throw_if_Return in Ha0. apply Z.ltb_ge in Ha0.
      injection Ha as <-. simpl. repeat split; try reflexivity; lia.
    + injection Ha as <-. simpl. auto.
  - intros H. injection H as <-. simpl. auto.
Qed.

(** X2: the replacement that [bumpfee] signs spends exactly the outpoints
    of the original, in the same order, each of them an existing output of
    a wallet transaction; it is replaceable unless the option says
    otherwise; with [replaceable] true the sequence numbers are those of
    the original, with [replaceable] false every sequence number below
    [0xfffffffe] is raised to it and the others are kept. *)
Theorem bumpfee_replacement_inputs (env : Env) (hash : N) (options : option BumpOptions)
    (w : CWallet) (p : Prepared) :
  bumpfee_prepare env hash options w = Return p ->
  prevout <$> vin (p_signed p) = prevout <$> vin (tx (p_wtx p)) /\
  Forall (fun input => prevout_in_wallet w input = true) (vin (tx (p_wtx p))) /\
  p_replaceable p = match options with
                    | Some o => default true (opt_replaceable o)
                    | None => true
                    end /\
  nSequence <$> vin (p_signed p) =
    (if p_replaceable p then nSequence <$> vin (tx (p_wtx p))
     else Z.max 4294967294 <$> (nSequence <$> vin (tx (p_wtx p)))).
Proof.
  intros Hp.
  destruct (bumpfee_prepare_stages _ _ _ _ _ Hp)
    as (maxSize & po & _ & Hsize & Hopt & _ & Hrepl & Hrb & Hsign).
  split; [exact (proj1 (bumpfee_prepare_same_inputs _ _ _ _ _ Hp))|].
  split.
  { unfold CalculateMaximumSignedTxSize in Hsize. bind_inv Hsize.
    exact (lookup_inputs_Return _ _ _ Ha). }
  apply bumpfee_options_Return in Hopt as [Hr _].
  split; [rewrite Hrepl; exact Hr|].
  apply bumpfee_rebuild_Return in Hrb as (_ & poutput & _ & _ & Hvin & _).
  unfold bumpfee_sign in Hsign. bind_inv Hsign. injection Hsign as <-. simpl.
  apply sign_inputs_prevout in Ha as [_ Hs]. rewrite Hs, Hvin, Hrepl.
  destruct (replaceable po); [reflexivity | apply mark_final_sequence].
Qed.

Lemma bumpfee_replacement_inputs_witness :
  exists p,
    bumpfee_prepare (Example.env 1000 100000 0 false true true) 42
      (Some {| opt_confTarget := None; opt_totalFee := None; opt_replaceable := Some false |})
      (Example.wallet_of (Example.T 69000 30000 Example.no_values) false) = Return p /\
    prevout <$> vin (p_signed p) = [ {| prevout_hash := 7; prevout_n := 0 |} ] /\
    nSequence <$> vin (p_signed p) = [4294967294].
Proof.
  assert (H : exists p,
             bumpfee_prepare (Example.env 1000 100000 0 false true true) 42
               (Some {| opt_confTarget := None; opt_totalFee := None;
                        opt_replaceable := Some false |})
               (Example.wallet_of (Example.T 69000 30000 Example.no_values) false) = Return p
             /\ vin (tx (p_wtx p)) = vin (Example.T_tx 69000 30000))
    by (eexists; split; vm_compute; reflexivity).
  destruct H as (p & Hp & Hvin).
  destruct (bumpfee_replacement_inputs _ _ _ _ _ Hp) as (Hprev & _ & Hrepl & Hseq).
  exists p. split; [exact Hp|]. rewrite Hprev, Hseq, Hrepl, Hvin. split; reflexivity.
Defined.

(** ** The options of bumpfee *)

(** X3: the options of [bumpfee].  A call that returns a result was not
    given both [confTarget] and [totalFee], was given a [confTarget] above
    zero that fits a C++ [int], and a [totalFee] that fits an [int64_t] and
    is at least the required fee for the maximum signed size; a positive
    [totalFee] is the fee computed, and the fee reported is at least it.
    For an eligible transaction whose size can be computed the state is
    unchanged and: both options together are refused with their
    invalid-parameter error, whatever their values; a [confTarget] alone
    that does not fit an [int], or a [totalFee] alone that does not fit an
    [int64_t], is refused with the range error of the JSON reader; a
    [confTarget] that fits and is zero or less, and a [totalFee] that fits
    and is below the required fee, are each refused with their
    invalid-parameter error. *)
Theorem bumpfee_options_checked (env : Env) (hash : N) (o : BumpOptions) (s : State) :
  (forall res s', bumpfee env hash (Some o) s = (Return res, s') ->
     (opt_confTarget o = None \/ opt_totalFee o = None) /\
     (forall ct, opt_confTarget o = Some ct -> 0 < ct < 2 ^ 31) /\
     (forall tf, opt_totalFee o = Some tf ->
        - 2 ^ 63 <= tf < 2 ^ 63 /\
        exists p, bumpfee_prepare env hash (Some o) (wallet s) = Return p /\
                  GetRequiredFee env (maxNewTxSize (p_fee p)) <= tf /\
                  (0 < tf -> nNewFee (p_fee p) = tf /\ tf <= res_fee res))) /\
  (forall wtx nOutput maxSize,
     bumpfee_eligible env hash (wallet s) = Return (wtx, nOutput) ->
     CalculateMaximumSignedTxSize env (wallet s) (tx wtx) = Return maxSize ->
     (forall ct tf, opt_confTarget o = Some ct -> opt_totalFee o = Some tf ->
        bumpfee env hash (Some o) s = (Throw err_both_options, s)) /\
     (forall ct, opt_confTarget o = Some ct -> opt_totalFee o = None ->
        ct < - 2 ^ 31 \/ 2 ^ 31 <= ct ->
        bumpfee env hash (Some o) s = (Throw err_json_range, s)) /\
     (forall ct, opt_confTarget o = Some ct -> opt_totalFee o = None ->
        - 2 ^ 31 <= ct <= 0 ->
        bumpfee env hash (Some o) s = (Throw err_confTarget, s)) /\
     (forall tf, opt_confTarget o = None -> opt_totalFee o = Some tf ->
        tf < - 2 ^ 63 \/ 2 ^ 63 <= tf ->
        bumpfee env hash (Some o) s = (Throw err_json_range, s)) /\
     (forall tf, opt_confTarget o = None -> opt_totalFee o = Some tf ->
        - 2 ^ 63 <= tf < 2 ^ 63 -> tf < GetRequiredFee env maxSize ->
        bumpfee env hash (Some o) s
        = (Throw (err_totalFee_required (GetRequiredFee env maxSize)), s))).
Proof.
  split.
  - intros res s' H.
    apply bumpfee_Return in H as (p & Hp & _ & _ & Hfee).
    destruct (bumpfee_prepare_stages _ _ _ _ _ Hp)
      as (maxSize & po & _ & _ & Hopt & Hfc & _ & Hrb & _).
    apply bumpfee_options_Return in Hopt as [_ Hopt].
    apply bumpfee_fee_Return in Hfc as (_ & Hmax & _ & _ & _ & _ & Hrate).
    apply bumpfee_rebuild_Return in Hrb as (Hd & poutput & _ & Hv & _ & Hdust).
    cbv zeta in Hdust. simpl in Hdust.
    destruct (opt_confTarget o) as [ct|], (opt_totalFee o) as [tf|]; try contradiction.
    + destruct Hopt as (Hct & _ & _ & _ & Hr). split; [auto|]. split; [|discriminate].
      intros ct' Heq. injection Heq as <-. split; assumption.
    + destruct Hopt as (Hreq & Htf & _ & Hr). split; [auto|]. split; [discriminate|].
      intros tf' Heq. injection Heq as <-. split; [exact Hr|].
      exists p. split; [exact Hp|].
      rewrite Hmax. split; [exact Hreq|]. intros Hpos.
      destruct Hrate as [(_ & Hn & _) | (Hle & _)]; [|lia].
      rewrite Htf in Hn. split; [exact Hn|]. rewrite Hfee.
      destruct (_ <=? _) in Hdust; destruct Hdust as [_ ->]; lia.
    + split; [auto|]. split; discriminate.
  - intros wtx nOutput maxSize He Hsize.
    destruct (bumpfee_not_prepared env hash (Some o) s) as [Ht _].
    assert (Hstage : forall e, bumpfee_options env maxSize (Some o) = Throw e ->
                               bumpfee env hash (Some o) s = (Throw e, s)).
    { intros e Hopt. apply Ht. unfold bumpfee_prepare.
      rewrite (bind_Return_eq _ _ _ He). cbv beta zeta. cbn [fst snd].
      rewrite (bind_Return_eq _ _ _ Hsize), Hopt. reflexivity. }
    split; [|split; [|split; [|split]]].
    + intros ct tf Hc Hf. apply Hstage. unfold bumpfee_options. rewrite Hc, Hf. reflexivity.
    + intros ct Hc Hf Hout. apply Hstage. unfold bumpfee_options. rewrite Hc, Hf.
      rewrite get_int_range. destruct (decide _) as [Hin|_]; [lia|]. reflexivity.
    + intros ct Hc Hf Hr. apply Hstage. unfold bumpfee_options. rewrite Hc, Hf.
      rewrite get_int_range. destruct (decide _) as [_|Hn]; [|lia].
      simpl. replace (ct <=? 0) with true by (symmetry; apply Z.leb_le; lia). reflexivity.
    + intros tf Hc Hf Hout. apply Hstage. unfold bumpfee_options. rewrite Hc, Hf.
      rewrite get_int64_range. destruct (decide _) as [Hin|_]; [lia|]. reflexivity.
    + intros tf Hc Hf Hr Hu. apply Hstage. unfold bumpfee_options. rewrite Hc, Hf.
      rewrite get_int64_range. destruct (decide _) as [_|Hn]; [|lia].
      simpl. replace (tf <? GetRequiredFee env maxSize) with true
        by (symmetry; apply Z.ltb_lt; lia).
      reflexivity.
Qed.

Lemma bumpfee_options_checked_witness :
  let s := {| wallet := Example.wallet_of (Example.T 69000 30000 Example.no_values) false;
              events := [] |} in
  bumpfee (Example.env 1000 100000 0 false true true) 42
    (Some {| opt_confTarget := Some 6; opt_totalFee := Some 2000; opt_replaceable := None |}) s
  = (Throw err_both_options, s) /\
  bumpfee (Example.env 1000 100000 0 false true true) 42
    (Some {| opt_confTarget := Some 4294967297; opt_totalFee := None;
             opt_replaceable := None |}) s
  = (Throw err_json_range, s) /\
  bumpfee (Example.env 1000 100000 0 false true true) 42
    (Some {| opt_confTarget := Some (-4294967297); opt_totalFee := None;
             opt_replaceable := None |}) s
  = (Throw err_json_range, s) /\
  bumpfee (Example.env 1000 100000 0 false true true) 42
    (Some {| opt_confTarget := Some 0; opt_totalFee := None; opt_replaceable := None |}) s
  = (Throw err_confTarget, s) /\
  bumpfee (Example.env 1000 100000 0 false true true) 42
    (Some {| opt_confTarget := None; opt_totalFee := Some (2 ^ 63);
             opt_replaceable := None |}) s
  = (Throw err_json_range, s) /\
  bumpfee (Example.env 1000 100000 0 false true true) 42
    (Some {| opt_confTarget := None; opt_totalFee := Some 999; opt_replaceable := None |}) s
  = (Throw (err_totalFee_required 1000), s).
Proof.
  cbv zeta.
  assert (He : exists wtx nOutput maxSize,
             bumpfee_eligible (Example.env 1000 100000 0 false true true) 42
               (Example.wallet_of (Example.T 69000 30000 Example.no_values) false)
             = Return (wtx, nOutput) /\
             CalculateMaximumSignedTxSize (Example.env 1000 100000 0 false true true)
               (Example.wallet_of (Example.T 69000 30000 Example.no_values) false) (tx wtx)
             = Return maxSize /\
             GetRequiredFee (Example.env 1000 100000 0 false true true) maxSize = 1000)
    by (eexists; eexists; eexists; split; [|split]; vm_compute; reflexivity).
  destruct He as (wtx & nOutput & maxSize & He & Hsize & Hreq).
  pose proof (fun o =>
    proj2 (bumpfee_options_checked (Example.env 1000 100000 0 false true true) 42 o
             {| wallet := Example.wallet_of (Example.T 69000 30000 Example.no_values) false;
                events := [] |}) wtx nOutput maxSize He Hsize) as H.
  split; [|split; [|split; [|split; [|split]]]].
  - destruct (H {| opt_confTarget := Some 6; opt_totalFee := Some 2000;
                   opt_replaceable := None |}) as (Hboth & _).
    exact (Hboth 6 2000 eq_refl eq_refl).
  - destruct (H {| opt_confTarget := Some 4294967297; opt_totalFee := None;
                   opt_replaceable := None |}) as (_ & Hrange & _).
    apply (Hrange 4294967297 eq_refl eq_refl). lia.
  - destruct (H {| opt_confTarget := Some (-4294967297); opt_totalFee := None;
                   opt_replaceable := None |}) as (_ & Hrange & _).
    apply (Hrange (-4294967297) eq_refl eq_refl). lia.
  - destruct (H {| opt_confTarget := Some 0; opt_totalFee := None;
                   opt_replaceable := None |}) as (_ & _ & Hlow & _).
    apply (Hlow 0 eq_refl eq_refl). lia.
  - destruct (H {| opt_confTarget := None; opt_totalFee := Some (2 ^ 63);
                   opt_replaceable := None |}) as (_ & _ & _ & Hrange & _).
    apply (Hrange (2 ^ 63) eq_refl eq_refl). lia.
  - destruct (H {| opt_confTarget := None; opt_totalFee := Some 999;
                   opt_replaceable := None |}) as (_ & _ & _ & _ & Hlow).
    rewrite <- Hreq. apply (Hlow 999 eq_refl eq_refl); rewrite ?Hreq; lia.
Defined.

(** ** A locked wallet *)

Lemma locked_Throw (w : CWallet) :
  IsLocked w = true -> EnsureWalletIsUnlocked w = Throw err_unlock_needed.
Proof. intros H. unfold EnsureWalletIsUnlocked. rewrite H. reflexivity. Qed.

Lemma check_address_no_abort (env : Env) (a : string) : check_address env a <> Abort.
Proof.
  unfold check_address. destruct (IsValid (CBitcoinAddress_of env a)); discriminate.
Qed.

(** A computation that runs pure checks and then the unlock test fails on a
    locked wallet without touching the state. *)
Lemma lift_then_locked {A B} (o : Outcome A) (k : A -> RPC B) (s : State) :
  o <> Abort ->
  (forall a, exists e, k a s = (Throw e, s)) ->
  exists e, (lift o ≫= k) s = (Throw e, s).
Proof.
  intros Hna Hk. unfold lift, mbind, RPC_bind.
  destruct o as [a|e|]; [apply Hk | eexists; reflexivity | contradiction].
Qed.

(** X4: on a locked wallet no entry point sends anything.  [bumpfee]
    fails with the unlock-needed error whatever its arguments, the unlock
    test being its first check; [sendtoaddress], [sendfromaddress] and
    [sendmany] always fail and leave the wallet and the record of effects
    as they were (an earlier check may report its own error);
    [sendtoaddress] with a valid address, a positive amount and no comments
    reports the unlock-needed error. *)
Theorem locked_wallet_sends_nothing (env : Env) (s : State) :
  IsLocked (wallet s) = true ->
  (forall hash options, bumpfee env hash options s = (Throw err_unlock_needed, s)) /\
  (forall addr amount comment comment_to sub,
     exists e, sendtoaddress env addr amount comment comment_to sub s = (Throw e, s)) /\
  (forall from addr amount comment comment_to sub,
     exists e, sendfromaddress env from addr amount comment comment_to sub s = (Throw e, s)) /\
  (forall params, exists e, sendmany env params s = (Throw e, s)) /\
  (forall addr amount n sub,
     IsValid (CBitcoinAddress_of env addr) = true ->
     AmountFromValue env amount = inr n -> 0 < n ->
     sendtoaddress env addr amount None None sub s = (Throw err_unlock_needed, s)).
Proof.
  intros Hl. pose proof (locked_Throw _ Hl) as Hthrow.
  assert (Hlast : forall B (k : unit -> RPC B),
            exists e, (reading EnsureWalletIsUnlocked ≫= k) s = (Throw e, s)).
  { intros B k. unfold reading, mbind, RPC_bind. rewrite Hthrow. eexists; reflexivity. }
  split; [|split; [|split; [|split]]].
  - intros hash options.
    apply (proj1 (bumpfee_not_prepared env hash options s)).
    unfold bumpfee_prepare, bumpfee_eligible. rewrite Hthrow. reflexivity.
  - intros addr amount comment comment_to sub. unfold sendtoaddress.
    apply lift_then_locked; [apply check_address_no_abort | intros address].
    apply lift_then_locked; [apply check_send_amount_no_abort | intros nAmount].
    apply lift_then_locked; [apply wallet_comment_no_abort | intros wtx].
    apply lift_then_locked; [apply wallet_comment_no_abort | intros wtx'].
    apply Hlast.
  - intros from addr amount comment comment_to sub. unfold sendfromaddress.
    apply lift_then_locked; [apply check_address_no_abort | intros fromAddress].
    apply lift_then_locked; [apply check_address_no_abort | intros address].
    apply lift_then_locked; [apply check_send_amount_no_abort | intros nAmount].
    apply lift_then_locked; [apply wallet_comment_no_abort | intros wtx].
    apply lift_then_locked; [apply wallet_comment_no_abort | intros wtx'].
    apply Hlast.
  - intros params.
    destruct (sendmany_validate env params (wallet s)) as [v|e|] eqn:Hval.
    + exfalso. unfold sendmany_validate in Hval.
      bind_inv Hval. bind_inv Hval. bind_inv Hval. rewrite Hthrow in Ha1. discriminate.
    + exists e. apply sendmany_not_validated. exact Hval.
    + destruct (sendmany_validate_no_abort _ _ _ Hval).
  - intros addr amount n sub Hv Hn Hpos.
    unfold sendtoaddress, check_address, check_send_amount, wallet_comment.
    unfold lift, reading, mbind, RPC_bind. rewrite Hv. simpl. rewrite Hn. simpl.
    replace (n <=? 0) with false by (symmetry; apply Z.leb_gt; exact Hpos).
    simpl. rewrite Hthrow. reflexivity.
Qed.

Lemma locked_wallet_sends_nothing_witness :
  let s := {| wallet := Example.wallet_of (Example.T 69000 30000 Example.no_values) true;
              events := [] |} in
  IsLocked (wallet s) = true /\
  bumpfee (Example.env 1000 100000 0 false true true) 42 None s
    = (Throw err_unlock_needed, s) /\
  sendtoaddress (Example.env 1000 100000 0 false true true) "B" (VNUM "1000") None None None s
    = (Throw err_unlock_needed, s).
Proof.
  cbv zeta.
  destruct (locked_wallet_sends_nothing (Example.env 1000 100000 0 false true true)
              {| wallet := Example.wallet_of (Example.T 69000 30000 Example.no_values) true;
                 events := [] |} eq_refl) as (Hb & _ & _ & _ & Hs).
  split; [reflexivity|]. split; [apply Hb|].
  apply (Hs "B"%string (VNUM "1000") 1000 None); [reflexivity | reflexivity | lia].
Defined.

(** ** The comment tests of sendfromaddress *)

(** X5: the comment tests of [sendfromaddress] read the parameter one
    position before the one they store.  With valid addresses and a
    positive amount: an amount passed as a JSON number together with a
    comment that is not null fails with the not-a-string error of
    [get_str], and so does a comment_to that is not null when the comment
    is null; in both cases nothing was sent and the state is unchanged. *)
Theorem sendfromaddress_comment_reads_amount (env : Env) (from addr : string)
    (amount : UniValue) (n : Z) (sub : option bool) (s : State) :
  IsValid (CBitcoinAddress_of env from) = true ->
  IsValid (CBitcoinAddress_of env addr) = true ->
  AmountFromValue env amount = inr n -> 0 < n ->
  (forall a c comment_to,
     amount = VNUM a -> isNull c = false ->
     sendfromaddress env from addr amount (Some c) comment_to sub s
     = (Throw err_not_a_string, s)) /\
  (forall ct,
     isNull ct = false ->
     sendfromaddress env from addr amount (Some VNULL) (Some ct) sub s
     = (Throw err_not_a_string, s)).
Proof.
  intros Hf Hv Hn Hpos.
  assert (Hpre : forall comment comment_to wtx,
            wallet_comment "comment" comment (Some amount) CWalletTx_null = Return wtx ->
            wallet_comment "to" comment_to comment wtx = Throw err_not_a_string ->
            sendfromaddress env from addr amount comment comment_to sub s
            = (Throw err_not_a_string, s)).
  { intros comment comment_to wtx H1 H2.
    unfold sendfromaddress, check_address, check_send_amount.
    unfold lift, reading, mbind, RPC_bind. rewrite Hf. simpl. rewrite Hv. simpl.
    rewrite Hn. simpl.
    replace (n <=? 0) with false by (symmetry; apply Z.leb_gt; exact Hpos).
    simpl. rewrite H1, H2. reflexivity. }
  split.
  - intros a c comment_to -> Hc.
    unfold sendfromaddress, check_address, check_send_amount, wallet_comment.
    unfold lift, reading, mbind, RPC_bind. rewrite Hf. simpl. rewrite Hv. simpl.
    rewrite Hn. simpl.
    replace (n <=? 0) with false by (symmetry; apply Z.leb_gt; exact Hpos).
    simpl. rewrite Hc. reflexivity.
  - intros ct Hc. apply (Hpre (Some VNULL) (Some ct) CWalletTx_null); [reflexivity|].
    unfold wallet_comment. rewrite Hc. reflexivity.
Qed.

Lemma sendfromaddress_comment_reads_amount_witness :
  let s := {| wallet := Example.wallet_of (Example.T 69000 30000 Example.no_values) false;
              events := [] |} in
  sendfromaddress (Example.env 1000 100000 0 false true true) "B" "A" (VNUM "1000")
    (Some (VSTR "rent")) None None s
  = (Throw err_not_a_string, s).
Proof.
  cbv zeta.
  apply (proj1 (sendfromaddress_comment_reads_amount
                  (Example.env 1000 100000 0 false true true) "B" "A" (VNUM "1000") 1000 None
                  {| wallet := Example.wallet_of (Example.T 69000 30000 Example.no_values) false;
                     events := [] |} eq_refl eq_refl eq_refl ltac:(lia))
           "1000"%string (VSTR "rent") None eq_refl eq_refl).
Defined.

(** ** What sendmany asks the wallet to create *)

Lemma subtract_fee_from_Return (l : list UniValue) (name_ : string) :
  forall b b', subtract_fee_from l name_ b = Return b' ->
    b' = b || bool_decide (VSTR name_ ∈ l).
Proof.
  induction l as [|addr rest IH]; intros b b' H; simpl in H.
  - injection H as <-. rewrite bool_decide_eq_false_2 by (intros Hin; inversion Hin).
    rewrite orb_false_r. reflexivity.
  - bind_inv H. destruct addr as [|v|v]; try discriminate. injection Ha as <-.
    apply IH in H. rewrite H.
    destruct (String.eqb_spec v name_) as [->|Hne].
    + rewrite (bool_decide_eq_true_2 (VSTR name_ ∈ VSTR name_ :: rest))
        by apply list_elem_of_here.
      rewrite orb_true_r. reflexivity.
    + destruct (bool_decide (VSTR name_ ∈ rest)) eqn:E.
      * apply bool_decide_eq_true in E.
        rewrite (bool_decide_eq_true_2 (VSTR name_ ∈ VSTR v :: rest))
          by (apply list_elem_of_further; exact E).
        reflexivity.
      * apply bool_decide_eq_false in E.
        rewrite (bool_decide_eq_false_2 (VSTR name_ ∈ VSTR v :: rest)); [reflexivity|].
        intros Hin. apply elem_of_cons in Hin as [Heq|Hin]; [|exact (E Hin)].
        injection Heq as ->. exact (Hne eq_refl).
Qed.

Lemma sendmany_step_recipient (env : Env) (sendTo : list (string * UniValue))
    (sub : list UniValue) (acc acc' : SendManyLoop) (name_ : string) :
  sendmany_step env sendTo sub acc name_ = Return acc' ->
  exists n,
    AmountFromValue env (find_value sendTo name_) = inr n /\ 0 < n /\
    vecSend acc' = vecSend acc ++
      [ {| r_scriptPubKey := GetScriptForDestination env (Get (CBitcoinAddress_of env name_));
           nAmount := n;
           fSubtractFeeFromAmount := bool_decide (VSTR name_ ∈ sub) |} ].
Proof.
  unfold sendmany_step, check_send_amount. intros H.
  bind_inv H. bind_inv H.
  bind_inv H. rename a1 into n. bind_inv Ha1. rename a1 into n'.
  destruct (AmountFromValue env (find_value sendTo name_)) as [e|m]; [discriminate|].
  injection Ha2 as ->. bind_inv Ha1. apply throw_if_Return in Ha2. apply Z.leb_gt in Ha2.
  injection Ha1 as ->.
  bind_inv H. apply subtract_fee_from_Return in Ha1. simpl in Ha1.
  injection H as <-. rewrite Ha1. exists n. split; [reflexivity|]. split; [assumption | reflexivity].
Qed.

Lemma sendmany_recipients_lookup (env : Env) (sendTo : list (string * UniValue))
    (sub : list UniValue) (keys : list string) :
  forall acc acc',
    sendmany_recipients env sendTo sub keys acc = Return acc' ->
    exists new,
      vecSend acc' = vecSend acc ++ new /\
      length new = length keys /\
      forall i k, keys !! i = Some k ->
        exists n,
          AmountFromValue env (find_value sendTo k) = inr n /\ 0 < n /\
          new !! i = Some
            {| r_scriptPubKey := GetScriptForDestination env (Get (CBitcoinAddress_of env k));
               nAmount := n;
               fSubtractFeeFromAmount := bool_decide (VSTR k ∈ sub) |}.
Proof.
  induction keys as [|k keys IH]; intros acc acc' H; simpl in H.
  - injection H as <-. exists []. rewrite app_nil_r.
    split; [reflexivity|]. split; [reflexivity|]. intros i k Hk. discriminate.
  - bind_inv H. rename a into acc1.
    apply sendmany_step_recipient in Ha as (n & Hn & Hpos & Hvec).
    apply IH in H as (new & Hnew & Hlen & Hall).
    eexists (_ :: new). rewrite Hnew, Hvec, <- app_assoc. simpl.
    split; [reflexivity|]. split; [lia|].
    intros [|i] k' Hk; simpl in Hk.
    + injection Hk as <-. exists n. auto.
    + exact (Hall i k' Hk).
Qed.

Lemma find_value_NoDup (obj : list (string * UniValue)) :
  NoDup (obj.*1) ->
  forall i k v, obj !! i = Some (k, v) -> find_value obj k = v.
Proof.
  unfold find_value. induction obj as [|[k0 v0] rest IH]; intros Hnd i k v Hi;
    [discriminate|].
  rewrite fmap_cons in Hnd. apply NoDup_cons in Hnd as [Hnin Hnd]. simpl.
  destruct (decide (k0 = k)) as [->|Hne].
  - destruct i as [|i]; simpl in Hi; [injection Hi as <-; reflexivity|].
    exfalso. apply Hnin. apply list_elem_of_fmap. exists (k, v).
    split; [reflexivity|]. apply list_elem_of_lookup. exists i. exact Hi.
  - destruct i as [|i]; simpl in Hi; [injection Hi as Hk _; contradiction|].
    specialize (IH Hnd i k v Hi).
    destruct (list_find (fun kv : string * UniValue => kv.1 = k) rest) as [[j kv]|];
      simpl; exact IH.
Qed.

(** X6: a [sendmany] that returns a transaction id did exactly this, on an
    unlocked wallet: it reserved a key, asked the wallet for one
    transaction and committed it.  The keys of the amounts object are
    pairwise distinct; the transaction requested has one recipient per
    key, in the order of the keys, paying the script of the key's (valid)
    address the amount given for that key, which is strictly positive,
    with the subtract-fee flag set exactly when the key is listed in
    [subtractfeefrom]; change goes to the decoded change address; when a
    source address is given the transaction is funded from it and its
    balance covers the sum of the amounts. *)
Theorem sendmany_sends_recipients (env : Env) (params : SendManyParams) (s s' : State)
    (txid : N) :
  sendmany env params s = (Return txid, s') ->
  exists vecSend fromAddress wtxNew,
    events s' = events s ++
      [ Ev_CReserveKey;
        Ev_CreateTransaction vecSend
          (Some {| destChange := Get (CBitcoinAddress_of env (sm_changeaddress params));
                   fAllowOtherInputs := false; nMinimumTotalFee := 0 |})
          (Some fromAddress) None;
        Ev_CommitTransaction wtxNew ] /\
    txid = GetHash env (tx wtxNew) /\
    IsLocked (wallet s) = false /\
    NoDup ((sm_amounts params).*1) /\
    length vecSend = length (sm_amounts params) /\
    (forall i k v, sm_amounts params !! i = Some (k, v) ->
       exists n,
         AmountFromValue env v = inr n /\ 0 < n /\
         IsValid (CBitcoinAddress_of env k) = true /\
         vecSend !! i = Some
           {| r_scriptPubKey := GetScriptForDestination env (Get (CBitcoinAddress_of env k));
              nAmount := n;
              fSubtractFeeFromAmount :=
                bool_decide (VSTR k ∈ default [] (sm_subtractfeefrom params)) |}) /\
    (sm_fromaddress params <> EmptyString ->
     fromAddress = Get (CBitcoinAddress_of env (sm_fromaddress params)) /\
     foldr Z.add 0 (nAmount <$> vecSend) <= GetAddressBalance env (wallet s) fromAddress).
Proof.
  unfold sendmany. rpc_unfold.
  destruct (sendmany_validate env params (wallet s)) as [[wtx rs]| |] eqn:Hval;
    try discriminate.
  simpl.
  destruct (sendmany_source env params (totalAmount rs) (wallet s)) as [from| |] eqn:Hsrc;
    try discriminate.
  simpl.
  destruct (cr_ok (CreateTransaction env _ _ _ _ _ _)) eqn:Hok; simpl; [|discriminate].
  destruct (CommitTransaction env _ _) as [[ok st] w'] eqn:Hcommit. simpl.
  destruct ok; simpl; [|discriminate].
  intros H. injection H as <- <-. simpl.
  unfold sendmany_validate in Hval.
  apply bind_Return in Hval as (wtx0 & Hprelim & Hval).
  apply bind_Return in Hval as (rs0 & Hloop & Hval).
  apply bind_Return in Hval as (u & Ha1 & Hval).
  apply throw_if_Return in Ha1. injection Hval as -> ->.
  pose proof (sendmany_recipients_Return _ _ _ _ _ _ Hloop)
    as (_ & Hnd & _ & Hkeys & new0 & Hvec0 & _ & _ & Htot).
  apply sendmany_recipients_lookup in Hloop as (new & Hvec & Hlen & Hall).
  simpl in Hvec, Hvec0, Htot. subst new0.
  assert (Hndk : NoDup ((sm_amounts params).*1)) by exact (NoDup_fmap_1 _ _ Hnd).
  eexists. eexists. eexists. rewrite <- !app_assoc. simpl.
  split; [reflexivity|]. split; [reflexivity|]. split; [exact Ha1|].
  split; [exact Hndk|]. rewrite Hvec.
  split; [rewrite Hlen; apply length_fmap|].
  split.
  - intros i k v Hi.
    assert (Hk : (sm_amounts params).*1 !! i = Some k)
      by (rewrite list_lookup_fmap, Hi; reflexivity).
    destruct (Hall i k Hk) as (n & Hn & Hpos & Hr).
    rewrite (find_value_NoDup _ Hndk i k v Hi) in Hn.
    exists n. split; [exact Hn|]. split; [exact Hpos|]. split; [|exact Hr].
    apply (Hkeys k). apply list_elem_of_lookup. exists i. exact Hk.
  - intros Hne. unfold sendmany_source in Hsrc.
    destruct (String.eqb_spec (sm_fromaddress params) EmptyString) as [He|_];
      [contradiction|].
    simpl in Hsrc. bind_inv Hsrc. apply throw_if_Return in Ha. apply Z.ltb_ge in Ha.
    injection Hsrc as <-. split; [reflexivity|]. rewrite Htot in Ha. simpl in Ha.
    rewrite Hvec in Ha. unfold fmap in *. lia.
Qed.

Lemma sendmany_sends_recipients_witness :
  let params := {| sm_fromaccount := VSTR EmptyString; sm_fromaddress := "B";
                   sm_changeaddress := EmptyString;
                   sm_amounts := [("A"%string, VNUM "1000"); ("B"%string, VNUM "3000")];
                   sm_minconf := None; sm_comment := None;
                   sm_subtractfeefrom := Some [VSTR "B"] |} in
  exists txid s' wtxNew,
    sendmany (Example.env 1000 100000 0 false true true) params
      {| wallet := Example.wallet_of (Example.T 69000 30000 Example.no_values) false;
         events := [] |} = (Return txid, s') /\
    events s' =
      [ Ev_CReserveKey;
        Ev_CreateTransaction
          [ {| r_scriptPubKey := Example.script_change; nAmount := 1000;
               fSubtractFeeFromAmount := false |};
            {| r_scriptPubKey := Example.script_other; nAmount := 3000;
               fSubtractFeeFromAmount := true |} ]
          (Some {| destChange := CNoDestination; fAllowOtherInputs := false;
                   nMinimumTotalFee := 0 |})
          (Some (CKeyID 2)) None;
        Ev_CommitTransaction wtxNew ].
Proof.
  cbv zeta.
  set (params := {| sm_fromaccount := VSTR EmptyString; sm_fromaddress := "B";
                    sm_changeaddress := EmptyString;
                    sm_amounts := [("A"%string, VNUM "1000"); ("B"%string, VNUM "3000")];
                    sm_minconf := None; sm_comment := None;
                    sm_subtractfeefrom := Some [VSTR "B"] |}).
  assert (H : exists txid s',
             sendmany (Example.env 1000 100000 0 false true true) params
               {| wallet := Example.wallet_of (Example.T 69000 30000 Example.no_values) false;
                  events := [] |} = (Return txid, s'))
    by (eexists; eexists; vm_compute; reflexivity).
  destruct H as (txid & s' & H).
  destruct (sendmany_sends_recipients _ _ _ _ _ H)
    as (vecSend & from & wtxNew & Hev & _ & _ & _ & Hlen & Hrec & Hfrom).
  exists txid, s', wtxNew. split; [exact H|].
  destruct (Hfrom ltac:(discriminate)) as [-> _].
  destruct (Hrec 0%nat "A"%string (VNUM "1000") eq_refl) as (n0 & Hn0 & _ & _ & H0).
  destruct (Hrec 1%nat "B"%string (VNUM "3000") eq_refl) as (n1 & Hn1 & _ & _ & H1).
  injection Hn0 as <-. injection Hn1 as <-.
  destruct vecSend as [|r0 [|r1 [|r2 rest]]]; try discriminate.
  injection H0 as ->. injection H1 as ->. exact Hev.
Defined.

(** ** What SendMoneyNew does to the wallet *)

(** X7: what one call of [SendMoneyNew] does.  Either it fails before
    touching anything (the state is unchanged), or the amount is strictly
    positive, a source address was found (the given one, whose balance
    covers the amount, or one selected by the wallet) and exactly one
    transaction was requested, for the single recipient, funded from the
    source address.  If the wallet could not create it, nothing was
    committed and the error is a wallet error whose message is the
    required fee when the fee is not subtracted from the amount and amount
    plus fee exceed the balance of the source, and the wallet's reason
    otherwise.  If it could, that transaction, and no other, was
    committed, and a result is returned only when the commit succeeded. *)
Theorem SendMoneyNew_effects (env : Env) (address : CTxDestination) (nValue : Z)
    (fSub : bool) (wtxNew : CWalletTx) (pfrom : option CTxDestination) (s s' : State)
    (r : Outcome CWalletTx) :
  SendMoneyNew env address nValue fSub wtxNew pfrom s = (r, s') ->
  let recipient := {| r_scriptPubKey := GetScriptForDestination env address;
                      nAmount := nValue; fSubtractFeeFromAmount := fSub |} in
  (s' = s /\ exists e, r = Throw e) \/
  exists from balance,
    SendMoneyNew_source env nValue pfrom (wallet s) = Return (from, balance) /\
    0 < nValue /\
    (forall f, pfrom = Some f -> from = f /\ nValue <= GetAddressBalance env (wallet s) f) /\
    let cr := CreateTransaction env (wallet s) [recipient] wtxNew None (Some from) None in
    let built := Ev_CreateTransaction [recipient] None (Some from) None in
    if cr_ok cr then
      events s' = events s ++ [Ev_CReserveKey; built; Ev_CommitTransaction (cr_wtxNew cr)] /\
      wallet s' = (CommitTransaction env (cr_wallet cr) (cr_wtxNew cr)).2 /\
      (forall wtx, r = Return wtx ->
         wtx = cr_wtxNew cr /\
         (CommitTransaction env (cr_wallet cr) (cr_wtxNew cr)).1.1 = true)
    else
      events s' = events s ++ [Ev_CReserveKey; built] /\
      wallet s' = cr_wallet cr /\
      r = Throw (JSONRPCError RPC_WALLET_ERROR
                   (if negb fSub && (balance <? nValue + cr_nFeeRequired cr)
                    then strprintf
                           "Error: This transaction requires a transaction fee of at least %s"
                           [ArgMoney (cr_nFeeRequired cr)]
                    else msg (cr_strFailReason cr))).
Proof.
  cbv zeta. unfold SendMoneyNew. rpc_unfold.
  destruct (nValue <=? 0) eqn:Ev; simpl.
  { intros H. injection H as <- <-. left. split; [reflexivity | eexists; reflexivity]. }
  apply Z.leb_gt in Ev.
  destruct (SendMoneyNew_source env nValue pfrom (wallet s)) as [[from balance]|e|] eqn:Hsrc;
    simpl.
  2: { intros H. injection H as <- <-. left. split; [reflexivity | eexists; reflexivity]. }
  2: { exfalso. unfold SendMoneyNew_source in Hsrc. destruct pfrom as [f|].
       - destruct (GetAddressBalance env (wallet s) f <? nValue); discriminate.
       - destruct (SelectAddress env (wallet s) nValue None); discriminate. }
  destruct (GetBroadcastTransactions (wallet s) && negb (g_connman env)); simpl.
  { intros H. injection H as <- <-. left. split; [reflexivity | eexists; reflexivity]. }
  intros H. right. exists from, balance. split; [reflexivity|]. split; [exact Ev|].
  split.
  { intros f ->. unfold SendMoneyNew_source in Hsrc.
    destruct (GetAddressBalance env (wallet s) f <? nValue) eqn:Eb; [discriminate|].
    apply Z.ltb_ge in Eb. injection Hsrc as <- _. split; [reflexivity | exact Eb]. }
  destruct (cr_ok (CreateTransaction env _ _ _ _ _ _)) eqn:Hok; simpl in H.
  - destruct (CommitTransaction env _ _) as [[ok st] w'] eqn:Hc. simpl in H.
    destruct ok; simpl in H; injection H as <- <-; simpl; rewrite <- !app_assoc; simpl.
    + split; [reflexivity|]. split; [reflexivity|].
      intros wtx Hw. injection Hw as <-. split; reflexivity.
    + split; [reflexivity|]. split; [reflexivity|]. discriminate.
  - injection H as <- <-. simpl. rewrite <- !app_assoc. simpl.
    split; [reflexivity|]. split; reflexivity.
Qed.

Lemma SendMoneyNew_effects_witness :
  exists wtx s',
    SendMoneyNew (Example.env 1000 100000 0 false true true) (CKeyID 2) 3000 false
      CWalletTx_null (Some (CKeyID 1))
      {| wallet := Example.wallet_of (Example.T 69000 30000 Example.no_values) false;
         events := [] |} = (Return wtx, s') /\
    events s' =
      [ Ev_CReserveKey;
        Ev_CreateTransaction
          [ {| r_scriptPubKey := Example.script_other; nAmount := 3000;
               fSubtractFeeFromAmount := false |} ] None (Some (CKeyID 1)) None;
        Ev_CommitTransaction wtx ].
Proof.
  assert (H : exists wtx s',
             SendMoneyNew (Example.env 1000 100000 0 false true true) (CKeyID 2) 3000 false
               CWalletTx_null (Some (CKeyID 1))
               {| wallet := Example.wallet_of (Example.T 69000 30000 Example.no_values) false;
                  events := [] |} = (Return wtx, s'))
    by (eexists; eexists; vm_compute; reflexivity).
  destruct H as (wtx & s' & H). exists wtx, s'. split; [exact H|].
  destruct (SendMoneyNew_effects _ _ _ _ _ _ _ _ _ H)
    as [(_ & e & He) | (from & balance & _ & _ & Hfrom & Hcr)]; [discriminate|].
  destruct (Hfrom (CKeyID 1) eq_refl) as [-> _].
  cbv zeta in Hcr. change (cr_ok _) with true in Hcr. cbv iota in Hcr.
  destruct Hcr as (Hev & _ & Hw). destruct (Hw wtx eq_refl) as [-> _].
  exact Hev.
Defined.

(** ** The checks of fundrawtransaction *)

Lemma subtract_fee_outputs_Return (itostr : Z -> string) (nOut : Z) (positions : list Z) :
  forall acc set,
    subtract_fee_outputs itostr nOut positions acc = Return set <->
    NoDup positions /\
    (forall pos, pos ∈ positions -> (pos ∉ acc) /\ 0 <= pos < nOut) /\
    set = list_to_set positions ∪ acc.
Proof.
  induction positions as [|pos rest IH]; intros acc set; simpl.
  - split.
    + intros H. injection H as <-. split; [constructor|].
      split; [intros pos Hin; inversion Hin | set_solver].
    + intros (_ & _ & ->). f_equal. set_solver.
  - split.
    + intros H.
      bind_inv H. apply throw_if_Return in Ha. apply bool_decide_eq_false in Ha.
      bind_inv H. apply throw_if_Return in Ha0. apply Z.ltb_ge in Ha0.
      bind_inv H. apply throw_if_Return in Ha1. apply Z.leb_gt in Ha1.
      apply IH in H as (Hnd & Hall & ->).
      split; [|split].
      * constructor; [|exact Hnd]. intros Hin. apply (proj1 (Hall pos Hin)). set_solver.
      * intros p Hin. apply elem_of_cons in Hin as [->|Hin]; [split; [exact Ha | lia]|].
        destruct (Hall p Hin) as [Hp Hr]. split; [set_solver | exact Hr].
      * set_solver.
    + intros (Hnd & Hall & ->). apply NoDup_cons in Hnd as [Hnin Hnd].
      destruct (Hall pos (list_elem_of_here _ _)) as [Hacc Hr].
      rewrite bool_decide_eq_false_2 by exact Hacc. simpl.
      replace (pos <? 0) with false by (symmetry; apply Z.ltb_ge; lia). simpl.
      replace (nOut <=? pos) with false by (symmetry; apply Z.leb_gt; lia). simpl.
      apply IH. split; [exact Hnd|]. split; [|set_solver].
      intros p Hin. destruct (Hall p (list_elem_of_further _ _ _ Hin)) as [Hp Hpr].
      split; [|exact Hpr]. intros Hu. apply elem_of_union in Hu as [Hu|Hu]; [|exact (Hp Hu)].
      apply elem_of_singleton in Hu. subst p. exact (Hnin Hin).
Qed.

Lemma subtract_fee_outputs_no_abort (itostr : Z -> string) (nOut : Z) (positions : list Z) :
  forall acc, subtract_fee_outputs itostr nOut positions acc <> Abort.
Proof.
  induction positions as [|pos rest IH]; intros acc; simpl; [discriminate|].
  destruct (bool_decide (pos ∈ acc)); simpl; [discriminate|].
  destruct (pos <? 0); simpl; [discriminate|].
  destruct (nOut <=? pos); simpl; [discriminate | apply IH].
Qed.

(** X8: the checks that [fundrawtransaction] makes on the decoded
    transaction never fail an assertion, and they pass, handing
    [FundTransaction] a set of output positions, exactly when the
    transaction has at least one output, the change position is absent
    ([-1]) or between 0 and the number of outputs inclusive, and the
    positions in [subtractFeeFromOutputs] are pairwise distinct and each
    between 0 and the number of outputs exclusive; the set is then the set
    of the positions listed. *)
Theorem fundrawtransaction_checks_spec (itostr : Z -> string) (t : CTransaction)
    (changePosition : Z) (subtractFeeFromOutputs : list Z) :
  fundrawtransaction_checks itostr t changePosition subtractFeeFromOutputs <> Abort /\
  forall set,
    fundrawtransaction_checks itostr t changePosition subtractFeeFromOutputs = Return set <->
    vout t <> [] /\
    (changePosition = -1 \/ 0 <= changePosition <= Z.of_nat (length (vout t))) /\
    NoDup subtractFeeFromOutputs /\
    Forall (fun pos => 0 <= pos < Z.of_nat (length (vout t))) subtractFeeFromOutputs /\
    set = list_to_set subtractFeeFromOutputs.
Proof.
  unfold fundrawtransaction_checks. split.
  - destruct (bool_decide (length (vout t) = 0%nat)); simpl; [discriminate|].
    destruct (negb (changePosition =? -1) && _); simpl; [discriminate|].
    apply subtract_fee_outputs_no_abort.
  - intros set. split.
    + intros H.
      bind_inv H. apply throw_if_Return in Ha. apply bool_decide_eq_false in Ha.
      bind_inv H. apply throw_if_Return in Ha0.
      apply subtract_fee_outputs_Return in H as (Hnd & Hall & ->).
      split; [intros Hv; rewrite Hv in Ha; exact (Ha eq_refl)|].
      split.
      { destruct (changePosition =? -1) eqn:E; [left; apply Z.eqb_eq; exact E|].
        simpl in Ha0. apply orb_false_iff in Ha0 as [H1 H2].
        apply Z.ltb_ge in H1, H2. right. lia. }
      split; [exact Hnd|]. split; [|set_solver].
      apply Forall_forall. intros pos Hin. exact (proj2 (Hall pos Hin)).
    + intros (Hv & Hcp & Hnd & Hall & ->).
      rewrite bool_decide_eq_false_2 by (destruct (vout t); [contradiction | discriminate]).
      simpl.
      replace (negb (changePosition =? -1) && _) with false.
      2: { symmetry. destruct Hcp as [->|Hcp]; [reflexivity|].
           apply andb_false_iff. right. apply orb_false_iff.
           split; [apply Z.ltb_ge | apply Z.ltb_ge]; lia. }
      simpl. apply subtract_fee_outputs_Return. split; [exact Hnd|].
      split; [|set_solver].
      intros pos Hin. split; [set_solver|].
      rewrite Forall_forall in Hall. exact (Hall pos Hin).
Qed.

Lemma fundrawtransaction_checks_spec_witness :
  fundrawtransaction_checks (fun _ => EmptyString) (Example.T_tx 69000 30000) 2 [1; 0]
  = Return (list_to_set [1; 0]).
Proof.
  apply (proj2 (fundrawtransaction_checks_spec (fun _ => EmptyString)
                  (Example.T_tx 69000 30000) 2 [1; 0])).
  split; [discriminate|]. split; [right; simpl; lia|].
  split.
  { apply NoDup_cons. split; [|apply NoDup_singleton].
    intros Hin. apply list_elem_of_singleton in Hin. discriminate. }
  split; [repeat constructor; simpl; lia | reflexivity].
Defined.

(** ** What bumpfee does to the wallet *)

(** X13: what one call of [bumpfee] does.  Either the replacement could not
    be prepared and the state is unchanged, or a key was reserved and the
    prepared replacement, which carries the values of the original and the
    link [replaces_txid] to the requested txid, was handed to
    [CommitTransaction].  The original is marked as replaced only after
    [CommitTransaction] returned true, and then the call returns the txid
    of the replacement; if it returned false, nothing is marked and the
    call throws the wallet error with the reject reason. *)
Theorem bumpfee_effects (env : Env) (hash : N) (options : option BumpOptions)
    (s s' : State) (r : Outcome BumpResult) :
  bumpfee env hash options s = (r, s') ->
  (s' = s /\ (forall res, r <> Return res) /\
   forall p, bumpfee_prepare env hash options (wallet s) <> Return p) \/
  exists p,
    bumpfee_prepare env hash options (wallet s) = Return p /\
    let wtxBumped := wtxBumped_of env hash (p_wtx p) (p_signed p) in
    let c := CommitTransaction env (wallet s) wtxBumped in
    mapValue wtxBumped !! "replaces_txid"%string = Some (uint256_ToString env hash) /\
    (forall key, key <> "replaces_txid"%string ->
                 mapValue wtxBumped !! key = mapValue (p_wtx p) !! key) /\
    if c.1.1 then
      let m := MarkReplaced env c.2 (GetHash env (tx (p_wtx p))) (GetHash env (p_signed p)) in
      events s' = events s ++
        [ Ev_CReserveKey; Ev_CommitTransaction wtxBumped;
          Ev_MarkReplaced (GetHash env (tx (p_wtx p))) (GetHash env (p_signed p)) ] /\
      wallet s' = m.2 /\
      exists res, r = Return res /\ res_txid res = GetHash env (p_signed p) /\
                  (m.1 = false <-> msg_not_marked ∈ res_errors res)
    else
      events s' = events s ++ [Ev_CReserveKey; Ev_CommitTransaction wtxBumped] /\
      wallet s' = c.2 /\
      r = Throw (JSONRPCError RPC_WALLET_ERROR
                   (strprintf "Error: The transaction was rejected! Reason given: %s"
                      [ArgStr (GetRejectReason c.1.2)])).
Proof.
  intros H.
  destruct (bumpfee_not_prepared env hash options s) as [Ht Ha].
  destruct (bumpfee_prepare env hash options (wallet s)) as [p|e|] eqn:Hp.
  - right. exists p. split; [reflexivity|]. cbv zeta.
    split; [apply lookup_insert_eq|].
    split; [intros key Hne; apply lookup_insert_ne; congruence|].
    unfold bumpfee, reading in H. unfold mbind at 1, RPC_bind at 1 in H. rewrite Hp in H.
    unfold bumpfee_commit, emit, commit, mark_replaced, lift in H.
    unfold mbind, mret, RPC_bind, RPC_ret in H. simpl in H.
    destruct (CommitTransaction env (wallet s) _) as [[ok st] w'] eqn:Hc. simpl in H |- *.
    destruct ok; simpl in H.
    + destruct (MarkReplaced env w' _ _) as [marked w''] eqn:Hm. simpl in H |- *.
      injection H as <- <-. simpl. rewrite <- !app_assoc. simpl.
      split; [reflexivity|]. split; [reflexivity|].
      eexists. split; [reflexivity|]. split; [reflexivity|]. simpl.
      destruct marked; simpl; split.
      * discriminate.
      * intros Hin. destruct (IsInvalid st); [|inversion Hin].
        apply list_elem_of_singleton in Hin. discriminate.
      * intros _. apply elem_of_app. right. apply list_elem_of_here.
      * reflexivity.
    + injection H as <- <-. simpl. rewrite <- !app_assoc. simpl.
      split; [reflexivity|]. split; reflexivity.
  - left. rewrite (Ht e eq_refl) in H. injection H as <- <-.
    split; [reflexivity|]. split; discriminate.
  - left. rewrite (Ha eq_refl) in H. injection H as <- <-.
    split; [reflexivity|]. split; discriminate.
Qed.

Lemma bumpfee_effects_witness :
  exists res s' p,
    bumpfee (Example.env 1000 100000 0 false true false) 42 None
      {| wallet := Example.wallet_of (Example.T 69000 30000 Example.no_values) false;
         events := [] |} = (Return res, s') /\
    bumpfee_prepare (Example.env 1000 100000 0 false true false) 42 None
      (Example.wallet_of (Example.T 69000 30000 Example.no_values) false) = Return p /\
    events s' =
      [ Ev_CReserveKey;
        Ev_CommitTransaction
          (wtxBumped_of (Example.env 1000 100000 0 false true false) 42 (p_wtx p) (p_signed p));
        Ev_MarkReplaced
          (GetHash (Example.env 1000 100000 0 false true false) (tx (p_wtx p)))
          (GetHash (Example.env 1000 100000 0 false true false) (p_signed p)) ] /\
    msg_not_marked ∈ res_errors res.
Proof.
  assert (H : exists res s',
             bumpfee (Example.env 1000 100000 0 false true false) 42 None
               {| wallet := Example.wallet_of (Example.T 69000 30000 Example.no_values) false;
                  events := [] |} = (Return res, s'))
    by (eexists; eexists; vm_compute; reflexivity).
  destruct H as (res & s' & H).
  destruct (bumpfee_effects _ _ _ _ _ _ H) as [(_ & Hno & _) | (p & Hp & Hrest)];
    [destruct (Hno res eq_refl)|].
  cbv zeta in Hrest. destruct Hrest as (_ & _ & Hrun).
  change (CommitTransaction _ _ _).1.1 with true in Hrun. cbv iota in Hrun.
  destruct Hrun as (Hev & _ & res' & Hres & _ & Hmark).
  injection Hres as <-.
  exists res, s', p. split; [exact H|]. split; [exact Hp|]. split; [exact Hev|].
  apply Hmark. reflexivity.
Defined.

(** ** lockunspent *)






(** ** Requests that carry a payload *)

Lemma SendWithOpreturn_no_abort (env : Env) (address : CBitcoinAddress)
    (wtxNew : CWalletTx) (fee nAppID : Z) (vctAppData : list Byte.byte) (s s' : State)
    (r : Outcome CWalletTx) :
  SendWithOpreturn env address wtxNew fee nAppID vctAppData s = (r, s') -> r <> Abort.
Proof.
  unfold SendWithOpreturn. rpc_unfold. simpl.
  destruct (_ <? _); simpl; [intros H; injection H as <- _; discriminate|].
  destruct (_ && _); simpl; [intros H; injection H as <- _; discriminate|].
  destruct (bool_decide _); simpl; [intros H; injection H as <- _; discriminate|].
  destruct (cr_ok _); simpl; [|intros H; injection H as <- _; discriminate].
  destruct (CommitTransaction env _ _) as [[ok st] w']; simpl.
  destruct ok; simpl; intros H; injection H as <- _; discriminate.
Qed.

(** The common tail of the requests that carry a payload: the unlock test,
    then [SendWithOpreturn], then the hash of the transaction. *)
Lemma unlock_then_payload (env : Env) (address : CBitcoinAddress) (fee nAppID : Z)
    (vctAppData : list Byte.byte) (s s' : State) (r : Outcome N) :
  0 <= fee < 2 ^ 63 ->
  (reading EnsureWalletIsUnlocked;;
   wtx ← SendWithOpreturn env address CWalletTx_null fee nAppID vctAppData;
   mret (GetHash env (tx wtx))) s = (r, s') ->
  r <> Abort /\
  (IsLocked (wallet s) = true -> r = Throw err_unlock_needed /\ s' = s) /\
  exists new, events s' = events s ++ new /\
    (forall vs cc from data, Ev_CreateTransaction vs cc from data ∈ new ->
       IsLocked (wallet s) = false /\
       fee <= GetAddressBalance env (wallet s) (Get address) /\
       Ev_CreateTransaction vs cc from data
       = payload_request env (wallet s) address fee nAppID vctAppData) /\
    (forall txid, r = Return txid ->
       exists wtx, txid = GetHash env (tx wtx) /\
         new = [ Ev_CReserveKey;
                 payload_request env (wallet s) address fee nAppID vctAppData;
                 Ev_CommitTransaction wtx ]).
Proof.
  intros Hfee. unfold reading at 1. unfold mbind at 1, RPC_bind at 1.
  unfold EnsureWalletIsUnlocked.
  destruct (IsLocked (wallet s)) eqn:Hl; simpl.
  { intros H. injection H as <- <-. split; [discriminate|].
    split; [intros _; split; reflexivity|].
    exists []. rewrite app_nil_r. split; [reflexivity|].
    split; [intros ? ? ? ? Hin; inversion Hin | discriminate]. }
  unfold mbind, RPC_bind, mret, RPC_ret.
  destruct (SendWithOpreturn env address CWalletTx_null fee nAppID vctAppData s)
    as [r0 s0] eqn:Hsend.
  pose proof (SendWithOpreturn_no_abort _ _ _ _ _ _ _ _ _ Hsend) as Hna.
  destruct (SendWithOpreturn_events _ _ _ _ _ _ _ _ _ Hfee Hsend)
    as (new & Hev & Hbuilt & Hret).
  intros H. split; [|split; [discriminate|]].
  - destruct r0; [injection H as <- _; discriminate
                 | injection H as <- _; discriminate | contradiction].
  - exists new. split.
    { destruct r0; injection H as _ <-; exact Hev. }
    split.
    + intros vs cc from data Hin. destruct (Hbuilt vs cc from data Hin) as [Hb Hle].
      split; [reflexivity|]. split; [exact Hle | exact Hb].
    + intros txid Hr. destruct r0 as [wtx|e|]; try (injection H as <- _; discriminate).
      injection H as <- _. injection Hr as <-. exists wtx.
      split; [reflexivity | exact (Hret wtx eq_refl)].
Qed.

(** ** vote *)

Lemma vote_loop_accepts (venv : VoteEnv) (address_id : N) (names : list string) :
  forall acc acc',
    names_loop (vote_step venv address_id) names acc = (None, acc') ->
    Forall (fun name => GetDelegate venv name <> 0%N /\
                        HaveVote venv address_id (GetDelegate venv name) = false) names /\
    NoDup (GetDelegate venv <$> names) /\
    (forall k, k ∈ (GetDelegate venv <$> names) ->
               CBitcoinAddress_of_key k ∉ vl_setAddress acc) /\
    vl_setAddress acc' = reverse (CBitcoinAddress_of_key <$> (GetDelegate venv <$> names))
                         ++ vl_setAddress acc /\
    vl_forgers acc' = list_to_set (GetDelegate venv <$> names) ∪ vl_forgers acc.
Proof.
  induction names as [|name rest IH]; intros acc acc' H; simpl in H.
  - injection H as <-. simpl. split; [constructor|]. split; [constructor|].
    split; [intros k Hin; inversion Hin|]. split; [reflexivity | set_solver].
  - unfold vote_step at 1 in H.
    destruct (GetDelegate venv name =? 0)%N eqn:Ez; [discriminate|].
    apply N.eqb_neq in Ez.
    destruct (HaveVote venv address_id (GetDelegate venv name)) eqn:Ev; [discriminate|].
    destruct (bool_decide _) eqn:Ed in H; [discriminate|].
    apply bool_decide_eq_false in Ed.
    apply IH in H as (Hall & Hnd & Hdisj & Hset & Hf). simpl in Hdisj, Hset, Hf.
    rewrite !fmap_cons.
    split; [constructor; [split; assumption | exact Hall]|].
    split.
    { constructor; [|exact Hnd]. intros Hin. apply (Hdisj _ Hin). apply list_elem_of_here. }
    split.
    { intros k Hin Hacc. apply elem_of_cons in Hin as [->|Hin]; [exact (Ed Hacc)|].
      apply (Hdisj _ Hin). apply list_elem_of_further. exact Hacc. }
    split.
    { rewrite Hset, reverse_cons, <- app_assoc. reflexivity. }
    rewrite Hf. set_solver.
Qed.

Lemma early_return_not_empty (pre name post : string) :
  pre <> EmptyString -> String.eqb (pre +:+ name +:+ post) EmptyString = false.
Proof. destruct pre; [contradiction | reflexivity]. Qed.

Lemma vote_step_error (venv : VoteEnv) (address_id : N) (acc : VoteLoop) (name err : string) :
  vote_step venv address_id acc name = inl err -> String.eqb err EmptyString = false.
Proof.
  unfold vote_step.
  destruct (_ =? _)%N; [intros H; injection H as <-; reflexivity|].
  destruct (HaveVote _ _ _); [intros H; injection H as <-; reflexivity|].
  destruct (bool_decide _); [intros H; injection H as <-; reflexivity | discriminate].
Qed.

Lemma names_loop_error (step : VoteLoop -> string -> string + VoteLoop)
    (names : list string) :
  (forall acc name err, step acc name = inl err -> String.eqb err EmptyString = false) ->
  forall acc err acc',
    names_loop step names acc = (Some err, acc') -> String.eqb err EmptyString = false.
Proof.
  intros Hstep. induction names as [|name rest IH]; intros acc err acc' H; simpl in H;
    [discriminate|].
  destruct (step acc name) as [e|acc1] eqn:Es.
  - injection H as <- _. exact (Hstep _ _ _ Es).
  - exact (IH _ _ _ H).
Qed.

Lemma JsonToStruct_vote_accepts (env : Env) (venv : VoteEnv) (addr : string)
    (names : list string) :
  let address := CBitcoinAddress_of env addr in
  let j := JsonToStruct_vote env venv addr names in
  j.1.2 = address /\
  (String.eqb j.1.1 EmptyString = true ->
   IsValid address = true /\
   Forall (fun name => GetDelegate venv name <> 0%N /\
             HaveVote venv (GetKeyID venv address) (GetDelegate venv name) = false) names /\
   NoDup (GetDelegate venv <$> names) /\
   Z.of_nat (length names + length (GetVotedDelegates venv (GetKeyID venv address)))
     <= MaxNumberOfVotes venv /\
   j.2 = {| vote_opcode := OP_VOTE venv;
            vote_forgers := list_to_set (GetDelegate venv <$> names) |} /\
   CheckStruct_vote venv j.2 = EmptyString).
Proof.
  cbv zeta. unfold JsonToStruct_vote.
  destruct (IsValid (CBitcoinAddress_of env addr)) eqn:Hv; simpl;
    [|split; [reflexivity | discriminate]].
  destruct (names_loop _ names VoteLoop_init) as [[err|] acc] eqn:Hloop; simpl.
  - split; [reflexivity|]. intros He.
    rewrite (names_loop_error _ _ (vote_step_error venv _) _ _ _ Hloop) in He. discriminate.
  - apply vote_loop_accepts in Hloop as (Hall & Hnd & _ & Hset & Hf). simpl in Hset, Hf.
    rewrite app_nil_r in Hset.
    assert (Hlen : length (vl_setAddress acc) = length names)
      by (rewrite Hset, length_reverse, !length_fmap; reflexivity).
    rewrite Hlen.
    destruct (MaxNumberOfVotes venv <? _) eqn:Em; simpl;
      [split; [reflexivity | discriminate]|].
    apply Z.ltb_ge in Em. split; [reflexivity|]. intros He.
    apply String.eqb_eq in He.
    assert (Hforgers : vl_forgers acc = list_to_set (GetDelegate venv <$> names))
      by (rewrite Hf; set_solver).
    rewrite Hforgers in *. repeat split; auto.
Qed.

(** X9: [vote] with a fee inside the [CAmount] range never fails an
    assertion.  When the request is not acceptable ([JsonToStruct] returns
    a text) it throws the invalid-address-or-key error carrying that text
    and leaves the state unchanged, whether or not the wallet is locked.
    Every transaction it asks the wallet to create is the payload request
    of the voting address, with the vote fee and the data of the vote for
    exactly the delegates named, on an unlocked wallet, and only when the
    address is valid, every name is that of a registered delegate the
    address has not voted for yet, the names denote pairwise distinct
    delegates, and their number plus the number of delegates already voted
    for does not exceed the maximum.  A call that returns reserved a key,
    made that one request and committed the transaction. *)
Theorem vote_request_checked (env : Env) (venv : VoteEnv) (addr : string)
    (names : list string) (s s' : State) (r : Outcome N) :
  0 <= OP_VOTE_FORGER_FEE venv < 2 ^ 63 ->
  vote env venv addr names s = (r, s') ->
  let address := CBitcoinAddress_of env addr in
  let data := {| vote_opcode := OP_VOTE venv;
                 vote_forgers := list_to_set (GetDelegate venv <$> names) |} in
  let request := payload_request env (wallet s) address (OP_VOTE_FORGER_FEE venv)
                   (DPOS venv) (StructToData_vote venv data) in
  r <> Abort /\
  ((JsonToStruct_vote env venv addr names).1.1 <> EmptyString ->
   r = Throw (JSONRPCError RPC_INVALID_ADDRESS_OR_KEY
                (msg (JsonToStruct_vote env venv addr names).1.1)) /\ s' = s) /\
  exists new, events s' = events s ++ new /\
    (forall vs cc from d, Ev_CreateTransaction vs cc from d ∈ new ->
       Ev_CreateTransaction vs cc from d = request /\
       IsLocked (wallet s) = false /\
       IsValid address = true /\
       Forall (fun name => GetDelegate venv name <> 0%N /\
                 HaveVote venv (GetKeyID venv address) (GetDelegate venv name) = false)
         names /\
       NoDup (GetDelegate venv <$> names) /\
       Z.of_nat (length names + length (GetVotedDelegates venv (GetKeyID venv address)))
         <= MaxNumberOfVotes venv /\
       CheckStruct_vote venv data = EmptyString) /\
    (forall txid, r = Return txid ->
       exists wtx, txid = GetHash env (tx wtx) /\
                   new = [Ev_CReserveKey; request; Ev_CommitTransaction wtx]).
Proof.
  intros Hfee. cbv zeta. unfold vote. cbv zeta.
  destruct (JsonToStruct_vote_accepts env venv addr names) as [Haddr Hacc].
  cbv zeta in Haddr, Hacc.
  unfold lift at 1. unfold mbind at 1, RPC_bind at 1. unfold throw_unless_empty.
  destruct (String.eqb (JsonToStruct_vote env venv addr names).1.1 EmptyString) eqn:Ee;
    simpl.
  - destruct (Hacc eq_refl) as (Hv & Hall & Hnd & Hmax & Hdata & Hcheck).
    rewrite Hdata in Hcheck. apply String.eqb_eq in Ee. rewrite Haddr, Hdata.
    intros H. apply (unlock_then_payload _ _ _ _ _ _ _ _ Hfee) in H
      as (Hna & _ & new & Hev & Hreq & Hret).
    split; [exact Hna|]. split; [intros Hne; contradiction|].
    exists new. split; [exact Hev|]. split; [|exact Hret].
    intros vs cc from d Hin. destruct (Hreq vs cc from d Hin) as (Hl & _ & Hb).
    repeat split; assumption.
  - intros H. injection H as <- <-. split; [discriminate|].
    split; [intros _; split; reflexivity|].
    exists []. rewrite app_nil_r. split; [reflexivity|].
    split; [intros ? ? ? ? Hin; inversion Hin | discriminate].
Qed.

Lemma vote_request_checked_witness :
  let s := {| wallet := Example.wallet_of (Example.T 69000 30000 Example.no_values) false;
              events := [] |} in
  let env := Example.env 1000 100000 0 false true true in
  (exists txid s' wtx,
     vote env Example2.venv "A" ["alice"%string] s = (Return txid, s') /\
     events s' =
       [ Ev_CReserveKey;
         payload_request env (wallet s) {| IsValid := true; Get := CKeyID 1 |} 1000 1
           [Byte.xc1];
         Ev_CommitTransaction wtx ]) /\
  vote env Example2.venv "A" ["bob"%string] s
  = (Throw (JSONRPCError RPC_INVALID_ADDRESS_OR_KEY (msg "delegate name: bob is voted")), s).
Proof.
  cbv zeta.
  assert (Hfee : 0 <= OP_VOTE_FORGER_FEE Example2.venv < 2 ^ 63) by (simpl; lia).
  split.
  - assert (H : exists txid s',
               vote (Example.env 1000 100000 0 false true true) Example2.venv "A"
                 ["alice"%string]
                 {| wallet := Example.wallet_of (Example.T 69000 30000 Example.no_values) false;
                    events := [] |} = (Return txid, s'))
      by (eexists; eexists; vm_compute; reflexivity).
    destruct H as (txid & s' & H).
    destruct (vote_request_checked _ _ _ _ _ _ _ Hfee H)
      as (_ & _ & new & Hev & _ & Hret).
    destruct (Hret txid eq_refl) as (wtx & _ & ->).
    exists txid, s', wtx. split; [exact H | exact Hev].
  - assert (H : exists r s',
               vote (Example.env 1000 100000 0 false true true) Example2.venv "A"
                 ["bob"%string]
                 {| wallet := Example.wallet_of (Example.T 69000 30000 Example.no_values) false;
                    events := [] |} = (r, s'))
      by (eexists; eexists; reflexivity).
    destruct H as (r & s' & H).
    destruct (vote_request_checked _ _ _ _ _ _ _ Hfee H) as (_ & Hbad & _).
    destruct (Hbad ltac:(vm_compute; discriminate)) as [-> ->]. exact H.
Defined.

(** ** cancelvote *)

Lemma cancelvote_loop_accepts (venv : VoteEnv) (address_id : N) (names : list string) :
  forall acc acc',
    names_loop (cancelvote_step venv address_id) names acc = (None, acc') ->
    Forall (fun name => GetDelegate venv name <> 0%N /\
                        HaveVote venv address_id (GetDelegate venv name) = true) names /\
    NoDup (GetDelegate venv <$> names) /\
    (forall k, k ∈ (GetDelegate venv <$> names) ->
               CBitcoinAddress_of_key k ∉ vl_setAddress acc) /\
    (names <> [] ->
     Z.of_nat (length names + length (vl_setAddress acc)) <= MaxNumberOfVotes venv) /\
    vl_forgers acc' = list_to_set (GetDelegate venv <$> names) ∪ vl_forgers acc.
Proof.
  induction names as [|name rest IH]; intros acc acc' H; simpl in H.
  - injection H as <-. simpl. split; [constructor|]. split; [constructor|].
    split; [intros k Hin; inversion Hin|]. split; [intros Hne; contradiction | set_solver].
  - unfold cancelvote_step at 1 in H.
    destruct (GetDelegate venv name =? 0)%N eqn:Ez; [discriminate|].
    apply N.eqb_neq in Ez.
    destruct (HaveVote venv address_id (GetDelegate venv name)) eqn:Ev; [|discriminate].
    simpl in H.
    destruct (bool_decide _) eqn:Ed in H; [discriminate|].
    apply bool_decide_eq_false in Ed.
    destruct (MaxNumberOfVotes venv <=? _) eqn:Em in H; [discriminate|].
    apply Z.leb_gt in Em.
    apply IH in H as (Hall & Hnd & Hdisj & Hsize & Hf). simpl in Hdisj, Hsize, Hf.
    rewrite !fmap_cons.
    split; [constructor; [split; assumption | exact Hall]|].
    split.
    { constructor; [|exact Hnd]. intros Hin. apply (Hdisj _ Hin). apply list_elem_of_here. }
    split.
    { intros k Hin Hacc. apply elem_of_cons in Hin as [->|Hin]; [exact (Ed Hacc)|].
      apply (Hdisj _ Hin). apply list_elem_of_further. exact Hacc. }
    split.
    { intros _. destruct rest as [|n2 rest]; [simpl; lia|].
      specialize (Hsize ltac:(discriminate)). simpl in *. lia. }
    rewrite Hf. set_solver.
Qed.

Lemma cancelvote_step_error (venv : VoteEnv) (address_id : N) (acc : VoteLoop)
    (name err : string) :
  cancelvote_step venv address_id acc name = inl err -> String.eqb err EmptyString = false.
Proof.
  unfold cancelvote_step.
  destruct (_ =? _)%N; [intros H; injection H as <-; reflexivity|].
  destruct (negb _); [intros H; injection H as <-; reflexivity|].
  destruct (bool_decide _); [intros H; injection H as <-; reflexivity|].
  destruct (_ <=? _); [intros H; injection H as <-; reflexivity | discriminate].
Qed.

Lemma JsonToStruct_cancelvote_accepts (env : Env) (venv : VoteEnv) (addr : string)
    (names : list string) :
  let address := CBitcoinAddress_of env addr in
  let j := JsonToStruct_cancelvote env venv addr names in
  j.1.2 = address /\
  (String.eqb j.1.1 EmptyString = true ->
   IsValid address = true /\
   Forall (fun name => GetDelegate venv name <> 0%N /\
             HaveVote venv (GetKeyID venv address) (GetDelegate venv name) = true) names /\
   NoDup (GetDelegate venv <$> names) /\
   (names <> [] -> Z.of_nat (length names) <= MaxNumberOfVotes venv) /\
   j.2 = {| cancel_opcode := OP_REVOKE venv;
            cancel_forgers := list_to_set (GetDelegate venv <$> names) |} /\
   CheckStruct_cancel venv j.2 = EmptyString).
Proof.
  cbv zeta. unfold JsonToStruct_cancelvote.
  destruct (IsValid (CBitcoinAddress_of env addr)) eqn:Hv; simpl;
    [|split; [reflexivity | discriminate]].
  destruct (names_loop _ names VoteLoop_init) as [[err|] acc] eqn:Hloop; simpl.
  - split; [reflexivity|]. intros He.
    rewrite (names_loop_error _ _ (cancelvote_step_error venv _) _ _ _ Hloop) in He.
    discriminate.
  - apply cancelvote_loop_accepts in Hloop as (Hall & Hnd & _ & Hsize & Hf).
    simpl in Hsize, Hf.
    split; [reflexivity|]. intros He. apply String.eqb_eq in He.
    assert (Hforgers : vl_forgers acc = list_to_set (GetDelegate venv <$> names))
      by (rewrite Hf; set_solver).
    rewrite Hforgers in *. repeat split; auto.
    intros Hne. specialize (Hsize Hne). lia.
Qed.

(** X10: [cancelvote] with a fee inside the [CAmount] range never fails
    an assertion.  When the request is not acceptable it throws the
    invalid-address-or-key error carrying the text of [JsonToStruct] and
    leaves the state unchanged.  Every transaction it asks the wallet to
    create is the payload request of the address, with the cancel fee and
    the data for exactly the delegates named, on an unlocked wallet, and
    only when the address is valid, every name is that of a registered
    delegate the address has voted for, the names denote pairwise distinct
    delegates and there are no more of them than the maximum number of
    votes.  A call that returns reserved a key, made that one request and
    committed the transaction. *)
Theorem cancelvote_request_checked (env : Env) (venv : VoteEnv) (addr : string)
    (names : list string) (s s' : State) (r : Outcome N) :
  0 <= OP_CANCEL_VOTE_FORGER_FEE venv < 2 ^ 63 ->
  cancelvote env venv addr names s = (r, s') ->
  let address := CBitcoinAddress_of env addr in
  let data := {| cancel_opcode := OP_REVOKE venv;
                 cancel_forgers := list_to_set (GetDelegate venv <$> names) |} in
  let request := payload_request env (wallet s) address (OP_CANCEL_VOTE_FORGER_FEE venv)
                   (DPOS venv) (StructToData_cancel venv data) in
  r <> Abort /\
  ((JsonToStruct_cancelvote env venv addr names).1.1 <> EmptyString ->
   r = Throw (JSONRPCError RPC_INVALID_ADDRESS_OR_KEY
                (msg (JsonToStruct_cancelvote env venv addr names).1.1)) /\ s' = s) /\
  exists new, events s' = events s ++ new /\
    (forall vs cc from d, Ev_CreateTransaction vs cc from d ∈ new ->
       Ev_CreateTransaction vs cc from d = request /\
       IsLocked (wallet s) = false /\
       IsValid address = true /\
       Forall (fun name => GetDelegate venv name <> 0%N /\
                 HaveVote venv (GetKeyID venv address) (GetDelegate venv name) = true)
         names /\
       NoDup (GetDelegate venv <$> names) /\
       (names <> [] -> Z.of_nat (length names) <= MaxNumberOfVotes venv) /\
       CheckStruct_cancel venv data = EmptyString) /\
    (forall txid, r = Return txid ->
       exists wtx, txid = GetHash env (tx wtx) /\
                   new = [Ev_CReserveKey; request; Ev_CommitTransaction wtx]).
Proof.
  intros Hfee. cbv zeta. unfold cancelvote. cbv zeta.
  destruct (JsonToStruct_cancelvote_accepts env venv addr names) as [Haddr Hacc].
  cbv zeta in Haddr, Hacc.
  unfold lift at 1. unfold mbind at 1, RPC_bind at 1. unfold throw_unless_empty.
  destruct (String.eqb (JsonToStruct_cancelvote env venv addr names).1.1 EmptyString)
    eqn:Ee; simpl.
  - destruct (Hacc eq_refl) as (Hv & Hall & Hnd & Hmax & Hdata & Hcheck).
    rewrite Hdata in Hcheck. apply String.eqb_eq in Ee. rewrite Haddr, Hdata.
    intros H. apply (unlock_then_payload _ _ _ _ _ _ _ _ Hfee) in H
      as (Hna & _ & new & Hev & Hreq & Hret).
    split; [exact Hna|]. split; [intros Hne; contradiction|].
    exists new. split; [exact Hev|]. split; [|exact Hret].
    intros vs cc from d Hin. destruct (Hreq vs cc from d Hin) as (Hl & _ & Hb).
    repeat split; assumption.
  - intros H. injection H as <- <-. split; [discriminate|].
    split; [intros _; split; reflexivity|].
    exists []. rewrite app_nil_r. split; [reflexivity|].
    split; [intros ? ? ? ? Hin; inversion Hin | discriminate].
Qed.

Lemma cancelvote_request_checked_witness :
  let s := {| wallet := Example.wallet_of (Example.T 69000 30000 Example.no_values) false;
              events := [] |} in
  let env := Example.env 1000 100000 0 false true true in
  (exists txid s' wtx,
     cancelvote env Example2.venv "A" ["bob"%string] s = (Return txid, s') /\
     events s' =
       [ Ev_CReserveKey;
         payload_request env (wallet s) {| IsValid := true; Get := CKeyID 1 |} 1000 1
           [Byte.xc2];
         Ev_CommitTransaction wtx ]) /\
  cancelvote env Example2.venv "A" ["alice"%string] s
  = (Throw (JSONRPCError RPC_INVALID_ADDRESS_OR_KEY
              (msg "delegate name: alice is not voted")), s).
Proof.
  cbv zeta.
  assert (Hfee : 0 <= OP_CANCEL_VOTE_FORGER_FEE Example2.venv < 2 ^ 63) by (simpl; lia).
  split.
  - assert (H : exists txid s',
               cancelvote (Example.env 1000 100000 0 false true true) Example2.venv "A"
                 ["bob"%string]
                 {| wallet := Example.wallet_of (Example.T 69000 30000 Example.no_values) false;
                    events := [] |} = (Return txid, s'))
      by (eexists; eexists; vm_compute; reflexivity).
    destruct H as (txid & s' & H).
    destruct (cancelvote_request_checked _ _ _ _ _ _ _ Hfee H)
      as (_ & _ & new & Hev & _ & Hret).
    destruct (Hret txid eq_refl) as (wtx & _ & ->).
    exists txid, s', wtx. split; [exact H | exact Hev].
  - assert (H : exists r s',
               cancelvote (Example.env 1000 100000 0 false true true) Example2.venv "A"
                 ["alice"%string]
                 {| wallet := Example.wallet_of (Example.T 69000 30000 Example.no_values) false;
                    events := [] |} = (r, s'))
      by (eexists; eexists; reflexivity).
    destruct H as (r & s' & H).
    destruct (cancelvote_request_checked _ _ _ _ _ _ _ Hfee H) as (_ & Hbad & _).
    destruct (Hbad ltac:(vm_compute; discriminate)) as [-> ->]. exact H.
Defined.

(** ** createtoken *)

Lemma coins_lookup (d : Z) : 0 <= d <= 8 -> coins !! Z.to_nat d = Some (10 ^ d).
Proof.
  intros Hd.
  assert (H : d = 0 \/ d = 1 \/ d = 2 \/ d = 3 \/ d = 4 \/ d = 5 \/ d = 6 \/ d = 7 \/ d = 8)
    by lia.
  repeat (destruct H as [->|H]; [reflexivity|]). subst d. reflexivity.
Qed.

Lemma createtoken_validate_Return (env : Env) (tenv : TokenEnv)
    (tokenSymbol tokenName ownerAddress tokenAddress totalSupply decimal : string) :
  let d := to_int32 (atoll tenv decimal) in
  let total := atoll tenv totalSupply in
  let m := {| ctm_opid := CREATETOKEN tenv; ctm_symbol := tokenSymbol;
              ctm_name := tokenName; ctm_tokenaddress := tokenAddress;
              ctm_totalamount := 10 ^ d * total; ctm_digits := d |} in
  createtoken_validate env tenv tokenSymbol tokenName ownerAddress tokenAddress
    totalSupply decimal <> Abort /\
  forall v,
    createtoken_validate env tenv tokenSymbol tokenName ownerAddress tokenAddress
      totalSupply decimal = Return v ->
    v = (CBitcoinAddress_of env ownerAddress, m) /\
    0 <= total <= 100000000000 /\ 0 <= d <= 8 /\
    10 ^ d * total < 2 ^ 64 /\
    (exists c, coins !! Z.to_nat d = Some c /\ ctm_totalamount m / c = total) /\
    IsValid_create tenv m = EmptyString /\
    GetAddressName tenv ownerAddress <> EmptyString /\
    IsValid (CBitcoinAddress_of env ownerAddress) = true /\
    GetToken tenv tokenAddress = None /\
    Forall (fun item : Z * TokenInfo =>
              ~ (ti_symbol item.2 = tokenSymbol /\ ti_fromAddress item.2 = ownerAddress))
      (GetTokens tenv).
Proof.
  cbv zeta. unfold createtoken_validate.
  set (d := to_int32 (atoll tenv decimal)). set (total := atoll tenv totalSupply).
  destruct ((total <? 0) || (100000000000 <? total)) eqn:Et; simpl;
    [split; [discriminate | intros v H; discriminate]|].
  apply orb_false_iff in Et as [Et1 Et2]. apply Z.ltb_ge in Et1, Et2.
  destruct ((d <? 0) || (8 <? d)) eqn:Ed; simpl;
    [split; [discriminate | intros v H; discriminate]|].
  apply orb_false_iff in Ed as [Ed1 Ed2]. apply Z.ltb_ge in Ed1, Ed2.
  rewrite (coins_lookup d) by lia. simpl.
  assert (Hpow : 1 <= 10 ^ d <= 10 ^ 8).
  { split; [pose proof (Z.pow_pos_nonneg 10 d); lia|].
    apply Z.pow_le_mono_r; lia. }
  assert (Hsmall : 0 <= 10 ^ d * total < 2 ^ 64).
  { split; [nia|].
    assert (10 ^ d * total <= 10 ^ 8 * 100000000000) by nia. lia. }
  rewrite (Z.mod_small _ _ Hsmall).
  destruct (String.eqb (IsValid_create tenv _) EmptyString) eqn:Ev; simpl;
    [|split; [discriminate | intros v H; discriminate]].
  apply String.eqb_eq in Ev.
  destruct (String.eqb (GetAddressName tenv ownerAddress) EmptyString) eqn:En; simpl;
    [split; [discriminate | intros v H; discriminate]|].
  apply String.eqb_neq in En.
  destruct (IsValid (CBitcoinAddress_of env ownerAddress)) eqn:Ha; simpl;
    [|split; [discriminate | intros v H; discriminate]].
  destruct (bool_decide (is_Some (GetToken tenv tokenAddress))) eqn:Eg; simpl;
    [split; [discriminate | intros v H; discriminate]|].
  apply bool_decide_eq_false in Eg.
  destruct (existsb _ (GetTokens tenv)) eqn:Ex; simpl;
    [split; [discriminate | intros v H; discriminate]|].
  split; [discriminate|]. intros v H. injection H as <-.
  split; [reflexivity|]. split; [lia|]. split; [lia|]. split; [lia|].
  split.
  { exists (10 ^ d). split; [reflexivity|]. simpl.
    rewrite Z.mul_comm. apply Z.div_mul. lia. }
  split; [exact Ev|]. split; [exact En|]. split; [reflexivity|].
  split.
  { destruct (GetToken tenv tokenAddress); [exfalso; apply Eg; eexists; reflexivity|].
    reflexivity. }
  apply Forall_forall. intros item Hin [Hs Ho].
  assert (Hex : existsb (fun item : Z * TokenInfo =>
                   String.eqb (ti_symbol item.2) tokenSymbol &&
                   String.eqb (ti_fromAddress item.2) ownerAddress) (GetTokens tenv) = true).
  { apply existsb_exists. exists item. split; [apply list_elem_of_In; exact Hin|].
    rewrite Hs, Ho, !String.eqb_refl. reflexivity. }
  rewrite Hex in Ex. discriminate.
Qed.

(** X11: [createtoken] with a fee inside the [CAmount] range never fails
    an assertion: the index into [coins] is always inside the table.  A
    total supply below 0 or above 100000000000, or a number of decimals
    that, converted to [int32_t], is below 0 or above 8, is refused with
    the invalid-address-or-key error, the state unchanged.  Every
    transaction it asks the wallet to create is the payload request of the
    owner address, on an unlocked wallet, with the create-token fee and a
    message whose total amount is the supply times ten to the number of
    decimals, computed without wrapping around 2^64, so that dividing it
    by the entry of [coins], as [gettokeninfo] does, gives back the
    supply; the owner address is valid and named, and the token address is
    not bound to a token yet.  A call that returns reserved a key, made
    that one request and committed the transaction. *)
Theorem createtoken_sends_scaled_supply (env : Env) (tenv : TokenEnv)
    (tokenSymbol tokenName ownerAddress tokenAddress totalSupply decimal : string)
    (s s' : State) (r : Outcome N) :
  0 <= OP_CREATE_TOKEN_FEE tenv < 2 ^ 63 ->
  createtoken env tenv tokenSymbol tokenName ownerAddress tokenAddress totalSupply decimal s
  = (r, s') ->
  let d := to_int32 (atoll tenv decimal) in
  let total := atoll tenv totalSupply in
  let m := {| ctm_opid := CREATETOKEN tenv; ctm_symbol := tokenSymbol;
              ctm_name := tokenName; ctm_tokenaddress := tokenAddress;
              ctm_totalamount := 10 ^ d * total; ctm_digits := d |} in
  let request := payload_request env (wallet s) (CBitcoinAddress_of env ownerAddress)
                   (OP_CREATE_TOKEN_FEE tenv) (TOKEN tenv) (Serialize_create tenv m) in
  r <> Abort /\
  ((total < 0 \/ 100000000000 < total \/ d < 0 \/ 8 < d) ->
   s' = s /\ exists e, r = Throw e /\ code e = RPC_INVALID_ADDRESS_OR_KEY) /\
  exists new, events s' = events s ++ new /\
    (forall vs cc from data, Ev_CreateTransaction vs cc from data ∈ new ->
       Ev_CreateTransaction vs cc from data = request /\
       IsLocked (wallet s) = false /\
       0 <= total <= 100000000000 /\ 0 <= d <= 8 /\
       ctm_totalamount m < 2 ^ 64 /\
       (exists c, coins !! Z.to_nat d = Some c /\ ctm_totalamount m / c = total) /\
       IsValid (CBitcoinAddress_of env ownerAddress) = true /\
       GetAddressName tenv ownerAddress <> EmptyString /\
       GetToken tenv tokenAddress = None) /\
    (forall txid, r = Return txid ->
       exists wtx, txid = GetHash env (tx wtx) /\
                   new = [Ev_CReserveKey; request; Ev_CommitTransaction wtx]).
Proof.
  intros Hfee. cbv zeta. unfold createtoken.
  destruct (createtoken_validate_Return env tenv tokenSymbol tokenName ownerAddress
              tokenAddress totalSupply decimal) as [Hna Hret].
  cbv zeta in Hret.
  assert (Hbad : (atoll tenv totalSupply < 0 \/ 100000000000 < atoll tenv totalSupply \/
                  to_int32 (atoll tenv decimal) < 0 \/ 8 < to_int32 (atoll tenv decimal)) ->
                 exists e, createtoken_validate env tenv tokenSymbol tokenName ownerAddress
                             tokenAddress totalSupply decimal = Throw e /\
                           code e = RPC_INVALID_ADDRESS_OR_KEY).
  { intros Hb. unfold createtoken_validate.
    destruct ((atoll tenv totalSupply <? 0) || (100000000000 <? atoll tenv totalSupply))
      eqn:Et; simpl; [eexists; split; reflexivity|].
    apply orb_false_iff in Et as [Et1 Et2]. apply Z.ltb_ge in Et1, Et2.
    destruct ((to_int32 (atoll tenv decimal) <? 0) || (8 <? to_int32 (atoll tenv decimal)))
      eqn:Ed; simpl; [eexists; split; reflexivity|].
    apply orb_false_iff in Ed as [Ed1 Ed2]. apply Z.ltb_ge in Ed1, Ed2. lia. }
  unfold lift at 1. unfold mbind at 1, RPC_bind at 1.
  destruct (createtoken_validate env tenv tokenSymbol tokenName ownerAddress tokenAddress
              totalSupply decimal) as [v|e|] eqn:Hval; [| |contradiction].
  - destruct (Hret v eq_refl) as (-> & Ht & Hd & Hsmall & Hc & _ & Hname & Hv & Htok & _).
    cbn [fst snd]. intros H.
    apply (unlock_then_payload _ _ _ _ _ _ _ _ Hfee) in H
      as (Hnab & _ & new & Hev & Hreq & Hres).
    split; [exact Hnab|]. split.
    { intros Hb. destruct (Hbad Hb) as (e & He & _). discriminate. }
    exists new. split; [exact Hev|]. split; [|exact Hres].
    intros vs cc from data Hin. destruct (Hreq vs cc from data Hin) as (Hl & _ & Hb).
    repeat split; try assumption; lia.
  - intros H. injection H as <- <-. split; [discriminate|]. split.
    { intros Hb. split; [reflexivity|]. destruct (Hbad Hb) as (e' & He & Hcode).
      injection He as <-. exists e. split; [reflexivity | exact Hcode]. }
    exists []. rewrite app_nil_r. split; [reflexivity|].
    split; [intros ? ? ? ? Hin; inversion Hin | discriminate].
Qed.

Lemma createtoken_sends_scaled_supply_witness :
  let s := {| wallet := Example.wallet_of (Example.T 69000 30000 Example.no_values) false;
              events := [] |} in
  let env := Example.env 1000 100000 0 false true true in
  exists txid s' wtx,
    createtoken env Example2.tenv "TOK" "Token" "A" "T2" "500" "2" s = (Return txid, s') /\
    events s' =
      [ Ev_CReserveKey;
        payload_request env (wallet s) {| IsValid := true; Get := CKeyID 1 |} 1000 2
          (Serialize_create Example2.tenv
             {| ctm_opid := 1; ctm_symbol := "TOK"; ctm_name := "Token";
                ctm_tokenaddress := "T2"; ctm_totalamount := 50000; ctm_digits := 2 |});
        Ev_CommitTransaction wtx ].
Proof.
  cbv zeta.
  assert (Hfee : 0 <= OP_CREATE_TOKEN_FEE Example2.tenv < 2 ^ 63) by (simpl; lia).
  assert (H : exists txid s',
             createtoken (Example.env 1000 100000 0 false true true) Example2.tenv
               "TOK" "Token" "A" "T2" "500" "2"
               {| wallet := Example.wallet_of (Example.T 69000 30000 Example.no_values) false;
                  events := [] |} = (Return txid, s'))
    by (eexists; eexists; vm_compute; reflexivity).
  destruct H as (txid & s' & H).
  destruct (createtoken_sends_scaled_supply _ _ _ _ _ _ _ _ _ _ _ Hfee H)
    as (_ & _ & new & Hev & _ & Hret).
  destruct (Hret txid eq_refl) as (wtx & _ & ->).
  exists txid, s', wtx. split; [exact H | exact Hev].
Defined.

(** ** sendtoken *)

Lemma sendtoken_validate_Return (env : Env) (tenv : TokenEnv)
    (tokenAddress fromAddress toAddress amount : string) (rest : list string)
    (v : CBitcoinAddress * TransferTokenMsg) :
  sendtoken_validate env tenv tokenAddress fromAddress toAddress amount rest = Return v ->
  exists tokenInfo n,
    GetToken tenv tokenAddress = Some tokenInfo /\
    ParseFixedPointUnsign tenv amount (ti_digits tokenInfo) = Some n /\
    0 < n <= ti_totalamount tokenInfo /\
    n <= GetBalance tenv (ti_id tokenInfo) (GetAddressId tenv fromAddress) /\
    IsValid (CBitcoinAddress_of env fromAddress) = true /\
    v = (CBitcoinAddress_of env fromAddress,
         {| ttm_opid := TRANSFRERTOKEN tenv; ttm_dstaddress := toAddress;
            ttm_tokenid := ti_id tokenInfo; ttm_amount := n;
            ttm_comment := rest !! 0%nat |}).
Proof.
  unfold sendtoken_validate. intros H.
  apply bind_Return in H as (tokenInfo & Htok & H).
  destruct (GetToken tenv tokenAddress) as [ti|]; [|discriminate]. injection Htok as ->.
  apply bind_Return in H as (n & Hn & H).
  destruct (ParseFixedPointUnsign tenv amount (ti_digits tokenInfo)) as [n'|] eqn:Hp;
    [|discriminate].
  apply bind_Return in Hn as (u & Hrange & Hn). injection Hn as ->.
  apply throw_if_Return in Hrange. apply orb_false_iff in Hrange as [H1 H2].
  apply Z.leb_gt in H1. apply Z.ltb_ge in H2.
  apply bind_Return in H as (u1 & Hbal & H). apply throw_if_Return in Hbal.
  apply Z.ltb_ge in Hbal.
  apply bind_Return in H as (u2 & Hvalid & H).
  apply bind_Return in H as (u3 & Haddr & H). apply throw_if_Return in Haddr.
  apply negb_false_iff in Haddr.
  injection H as <-. exists tokenInfo, n.
  split; [reflexivity|]. split; [exact Hp|]. split; [lia|]. split; [exact Hbal|].
  split; [exact Haddr|]. simpl. f_equal. f_equal.
  destruct rest as [|p4 rest]; [reflexivity | reflexivity].
Qed.

Lemma sendtoken_validate_no_abort (env : Env) (tenv : TokenEnv)
    (tokenAddress fromAddress toAddress amount : string) (rest : list string) :
  sendtoken_validate env tenv tokenAddress fromAddress toAddress amount rest <> Abort.
Proof.
  unfold sendtoken_validate.
  destruct (GetToken tenv tokenAddress) as [ti|]; simpl; [|discriminate].
  destruct (ParseFixedPointUnsign tenv amount (ti_digits ti)) as [n|]; simpl; [|discriminate].
  destruct ((n <=? 0) || (ti_totalamount ti <? n)); simpl; [discriminate|].
  destruct (_ <? n); simpl; [discriminate|].
  destruct (negb (String.eqb _ EmptyString)); simpl; [discriminate|].
  destruct (negb (IsValid _)); simpl; discriminate.
Qed.

(** X12: [sendtoken] with a fee inside the [CAmount] range never fails an
    assertion, and an unknown token address is refused with the
    invalid-address-or-key error, the state unchanged.  Every transaction
    it asks the wallet to create is the payload request of the (valid)
    source address, on an unlocked wallet, with the send-token fee and a
    transfer message for the token's id whose amount parsed with the
    token's decimals, is strictly positive, at most the total amount of
    the token and at most the token balance of the source address; the
    comment of the message is the fifth parameter of the request whenever
    there is one (the sixth is seen only by the validity check).  A call
    that returns reserved a key, made that one request and committed the
    transaction. *)
Theorem sendtoken_sends_checked_amount (env : Env) (tenv : TokenEnv)
    (tokenAddress fromAddress toAddress amount : string) (rest : list string)
    (s s' : State) (r : Outcome N) :
  0 <= OP_SEND_TOKEN_FEE tenv < 2 ^ 63 ->
  sendtoken env tenv tokenAddress fromAddress toAddress amount rest s = (r, s') ->
  r <> Abort /\
  (GetToken tenv tokenAddress = None ->
   r = Throw (JSONRPCError RPC_INVALID_ADDRESS_OR_KEY (msg "token address not registed")) /\
   s' = s) /\
  exists new, events s' = events s ++ new /\
    (forall vs cc from data, Ev_CreateTransaction vs cc from data ∈ new ->
       exists tokenInfo n,
         GetToken tenv tokenAddress = Some tokenInfo /\
         ParseFixedPointUnsign tenv amount (ti_digits tokenInfo) = Some n /\
         0 < n <= ti_totalamount tokenInfo /\
         n <= GetBalance tenv (ti_id tokenInfo) (GetAddressId tenv fromAddress) /\
         IsValid (CBitcoinAddress_of env fromAddress) = true /\
         IsLocked (wallet s) = false /\
         Ev_CreateTransaction vs cc from data
         = payload_request env (wallet s) (CBitcoinAddress_of env fromAddress)
             (OP_SEND_TOKEN_FEE tenv) (TOKEN tenv)
             (Serialize_transfer tenv
                {| ttm_opid := TRANSFRERTOKEN tenv; ttm_dstaddress := toAddress;
                   ttm_tokenid := ti_id tokenInfo; ttm_amount := n;
                   ttm_comment := rest !! 0%nat |})) /\
    (forall txid, r = Return txid ->
       exists wtx tokenInfo n,
         GetToken tenv tokenAddress = Some tokenInfo /\
         ParseFixedPointUnsign tenv amount (ti_digits tokenInfo) = Some n /\
         txid = GetHash env (tx wtx) /\
         new = [ Ev_CReserveKey;
                 payload_request env (wallet s) (CBitcoinAddress_of env fromAddress)
                   (OP_SEND_TOKEN_FEE tenv) (TOKEN tenv)
                   (Serialize_transfer tenv
                      {| ttm_opid := TRANSFRERTOKEN tenv; ttm_dstaddress := toAddress;
                         ttm_tokenid := ti_id tokenInfo; ttm_amount := n;
                         ttm_comment := rest !! 0%nat |});
                 Ev_CommitTransaction wtx ]).
Proof.
  intros Hfee. unfold sendtoken.
  pose proof (sendtoken_validate_no_abort env tenv tokenAddress fromAddress toAddress
                amount rest) as Hna.
  assert (Hnone : GetToken tenv tokenAddress = None ->
                  sendtoken_validate env tenv tokenAddress fromAddress toAddress amount rest
                  = Throw (JSONRPCError RPC_INVALID_ADDRESS_OR_KEY
                             (msg "token address not registed"))).
  { intros Hn. unfold sendtoken_validate. rewrite Hn. reflexivity. }
  unfold lift at 1. unfold mbind at 1, RPC_bind at 1.
  destruct (sendtoken_validate env tenv tokenAddress fromAddress toAddress amount rest)
    as [v|e|] eqn:Hval; [| |contradiction].
  - apply sendtoken_validate_Return in Hval
      as (tokenInfo & n & Htok & Hparse & Hn & Hbal & Hv & ->).
    cbn [fst snd]. intros H.
    apply (unlock_then_payload _ _ _ _ _ _ _ _ Hfee) in H
      as (Hnab & _ & new & Hev & Hreq & Hres).
    split; [exact Hnab|]. split; [intros Hn0; rewrite Hn0 in Htok; discriminate|].
    exists new. split; [exact Hev|]. split.
    + intros vs cc from data Hin. destruct (Hreq vs cc from data Hin) as (Hl & _ & Hb).
      exists tokenInfo, n. repeat split; try assumption; lia.
    + intros txid Hr. destruct (Hres txid Hr) as (wtx & Htx & ->).
      exists wtx, tokenInfo, n. repeat split; assumption.
  - intros H. injection H as <- <-. split; [discriminate|]. split.
    { intros Hn0. specialize (Hnone Hn0). injection Hnone as ->. split; reflexivity. }
    exists []. rewrite app_nil_r. split; [reflexivity|].
    split; [intros ? ? ? ? Hin; inversion Hin | discriminate].
Qed.

Lemma sendtoken_sends_checked_amount_witness :
  let s := {| wallet := Example.wallet_of (Example.T 69000 30000 Example.no_values) false;
              events := [] |} in
  let env := Example.env 1000 100000 0 false true true in
  exists txid s' wtx,
    sendtoken env Example2.tenv "T" "A" "B" "5.00" ["C"%string; "memo"%string] s
    = (Return txid, s') /\
    events s' =
      [ Ev_CReserveKey;
        payload_request env (wallet s) {| IsValid := true; Get := CKeyID 1 |} 1000 2
          (Serialize_transfer Example2.tenv
             {| ttm_opid := 2; ttm_dstaddress := "B"; ttm_tokenid := 1; ttm_amount := 500;
                ttm_comment := Some "C"%string |});
        Ev_CommitTransaction wtx ].
Proof.
  cbv zeta.
  assert (Hfee : 0 <= OP_SEND_TOKEN_FEE Example2.tenv < 2 ^ 63) by (simpl; lia).
  assert (H : exists txid s',
             sendtoken (Example.env 1000 100000 0 false true true) Example2.tenv
               "T" "A" "B" "5.00" ["C"%string; "memo"%string]
               {| wallet := Example.wallet_of (Example.T 69000 30000 Example.no_values) false;
                  events := [] |} = (Return txid, s'))
    by (eexists; eexists; vm_compute; reflexivity).
  destruct H as (txid & s' & H).
  destruct (sendtoken_sends_checked_amount _ _ _ _ _ _ _ _ _ _ Hfee H)
    as (_ & _ & new & Hev & _ & Hret).
  destruct (Hret txid eq_refl) as (wtx & tokenInfo & n & Htok & Hparse & _ & ->).
  injection Htok as <-. injection Hparse as <-.
  exists txid, s', wtx. split; [exact H | exact Hev].
Defined.

(** ** votebill *)

Lemma JsonToStruct_votebill_accepts (env : Env) (venv : VoteEnv) (benv : BillEnv)
    (addr id index : string) (j : string * CBitcoinAddress * CVoteBillData) :
  JsonToStruct_votebill env venv benv addr id index = Return j ->
  exists i,
    stoi benv index = inr i /\
    j.1.2 = CBitcoinAddress_of env addr /\
    j.2 = {| votebill_opcode := 199; votebill_id := SetHex benv id;
             votebill_index := i mod 256 |} /\
    (j.1.1 = EmptyString ->
     Forall (fun voters : gmap N Z =>
               voters !! GetKeyID venv (CBitcoinAddress_of env addr) = None)
       (GetBillVote benv (SetHex benv id)) /\
     0 <= i mod 256 < Z.of_nat (length (bill_options (GetBillRegiste benv (SetHex benv id)))) /\
     time_now benv <= bill_endtime (GetBillRegiste benv (SetHex benv id)) /\
     CheckStruct_votebill benv j.2 = EmptyString).
Proof.
  unfold JsonToStruct_votebill. intros H.
  apply bind_Return in H as (i & Hi & H).
  destruct (stoi benv index) as [e|i'] eqn:Hs; [discriminate|]. injection Hi as ->.
  exists i. split; [reflexivity|].
  simpl in H.
  destruct (existsb _ (GetBillVote benv (SetHex benv id))) eqn:Ex.
  { injection H as <-. simpl. split; [reflexivity|]. split; [reflexivity | discriminate]. }
  destruct (bool_decide (length (bill_options (GetBillRegiste benv (SetHex benv id))) = 0%nat))
    eqn:E0; simpl in H.
  { injection H as <-. simpl. split; [reflexivity|]. split; [reflexivity | discriminate]. }
  destruct (_ <=? i mod 256) eqn:E1; simpl in H.
  { injection H as <-. simpl. split; [reflexivity|]. split; [reflexivity | discriminate]. }
  destruct (_ <? time_now benv) eqn:E2; simpl in H.
  { injection H as <-. simpl. split; [reflexivity|]. split; [reflexivity | discriminate]. }
  injection H as <-. simpl. split; [reflexivity|]. split; [reflexivity|].
  intros Hcheck. apply Z.leb_gt in E1. apply Z.ltb_ge in E2.
  split.
  { apply Forall_forall. intros voters Hin.
    destruct (voters !! GetKeyID venv (CBitcoinAddress_of env addr)) as [v|] eqn:Ev;
      [|reflexivity].
    assert (Hex : existsb (fun i : gmap N Z =>
                     bool_decide (is_Some (i !! GetKeyID venv (CBitcoinAddress_of env addr))))
                    (GetBillVote benv (SetHex benv id)) = true).
    { apply existsb_exists. exists voters. split; [apply list_elem_of_In; exact Hin|].
      apply bool_decide_eq_true. rewrite Ev. eexists. reflexivity. }
    rewrite Hex in Ex. discriminate. }
  split; [split; [apply Z.mod_pos_bound; lia | exact E1]|].
  split; [exact E2 | exact Hcheck].
Qed.

Lemma JsonToStruct_votebill_no_abort (env : Env) (venv : VoteEnv) (benv : BillEnv)
    (addr id index : string) :
  JsonToStruct_votebill env venv benv addr id index <> Abort.
Proof.
  unfold JsonToStruct_votebill.
  destruct (stoi benv index) as [e|i]; simpl; [discriminate|].
  destruct (existsb _ _); discriminate.
Qed.

(** X15: [votebill] with a fee inside the [CAmount] range never fails an
    assertion, and votes for the option whose index is the number given
    reduced modulo 256 (the index is stored in a [uint8_t]).  When
    [JsonToStruct] returns a text the call throws the
    invalid-address-or-key error carrying it and changes nothing.  Every
    transaction it asks the wallet to create is the payload request of
    the address, on an unlocked wallet, with the vote-bill fee and the
    data of a vote for the bill and that index, and only when the address
    has not voted for any option of the bill, the reduced index is below
    the number of options of the bill (so the bill exists) and the bill
    has not ended.  A call that returns reserved a key, made that one
    request and committed the transaction. *)
Theorem votebill_request_checked (env : Env) (venv : VoteEnv) (benv : BillEnv)
    (addr id index : string) (s s' : State) (r : Outcome N) :
  0 <= OP_VOTE_BILL_FEE benv < 2 ^ 63 ->
  votebill env venv benv addr id index s = (r, s') ->
  let address := CBitcoinAddress_of env addr in
  let bill := GetBillRegiste benv (SetHex benv id) in
  let request := fun i =>
    payload_request env (wallet s) address (OP_VOTE_BILL_FEE benv) (DPOS venv)
      (StructToData_votebill benv
         {| votebill_opcode := 199; votebill_id := SetHex benv id;
            votebill_index := i mod 256 |}) in
  r <> Abort /\
  (forall j, JsonToStruct_votebill env venv benv addr id index = Return j ->
             j.1.1 <> EmptyString ->
             r = Throw (JSONRPCError RPC_INVALID_ADDRESS_OR_KEY (msg j.1.1)) /\ s' = s) /\
  exists new, events s' = events s ++ new /\
    (forall vs cc from d, Ev_CreateTransaction vs cc from d ∈ new ->
       exists i,
         stoi benv index = inr i /\
         Ev_CreateTransaction vs cc from d = request i /\
         IsLocked (wallet s) = false /\
         Forall (fun voters : gmap N Z => voters !! GetKeyID venv address = None)
           (GetBillVote benv (SetHex benv id)) /\
         0 <= i mod 256 < Z.of_nat (length (bill_options bill)) /\
         time_now benv <= bill_endtime bill) /\
    (forall txid, r = Return txid ->
       exists wtx i,
         stoi benv index = inr i /\ txid = GetHash env (tx wtx) /\
         new = [Ev_CReserveKey; request i; Ev_CommitTransaction wtx]).
Proof.
  intros Hfee. cbv zeta. unfold votebill.
  pose proof (JsonToStruct_votebill_no_abort env venv benv addr id index) as Hnoabort.
  unfold lift at 1. unfold mbind at 1, RPC_bind at 1.
  destruct (JsonToStruct_votebill env venv benv addr id index) as [j|e|] eqn:Hj;
    [| |contradiction].
  - destruct (JsonToStruct_votebill_accepts _ _ _ _ _ _ _ Hj)
      as (i & Hi & Haddr & Hdata & Hacc).
    unfold lift at 1. unfold mbind at 1, RPC_bind at 1. unfold throw_unless_empty.
    destruct (String.eqb j.1.1 EmptyString) eqn:Ee; simpl.
    + apply String.eqb_eq in Ee. destruct (Hacc Ee) as (Hvoters & Hidx & Htime & _).
      rewrite Haddr, Hdata. intros H.
      apply (unlock_then_payload _ _ _ _ _ _ _ _ Hfee) in H
        as (Hna & _ & new & Hev & Hreq & Hret).
      split; [exact Hna|]. split.
      { intros j' Hj' Hne. injection Hj' as <-. contradiction. }
      exists new. split; [exact Hev|]. split.
      * intros vs cc from d Hin. destruct (Hreq vs cc from d Hin) as (Hl & _ & Hb).
        exists i. repeat split; try assumption; lia.
      * intros txid Hr. destruct (Hret txid Hr) as (wtx & Htx & ->).
        exists wtx, i. repeat split; assumption.
    + intros H. injection H as <- <-. split; [discriminate|]. split.
      { intros j' Hj' _. injection Hj' as <-. split; reflexivity. }
      exists []. rewrite app_nil_r. split; [reflexivity|].
      split; [intros ? ? ? ? Hin; inversion Hin | discriminate].
  - intros H. injection H as <- <-. split; [discriminate|].
    split; [intros j' Hj'; discriminate|].
    exists []. rewrite app_nil_r. split; [reflexivity|].
    split; [intros ? ? ? ? Hin; inversion Hin | discriminate].
Qed.

Lemma votebill_request_checked_witness :
  let s := {| wallet := Example.wallet_of (Example.T 69000 30000 Example.no_values) false;
              events := [] |} in
  let env := Example.env 1000 100000 0 false true true in
  exists txid s' wtx,
    votebill env Example2.venv Example2.benv "A" "09" "256" s = (Return txid, s') /\
    events s' =
      [ Ev_CReserveKey;
        payload_request env (wallet s) {| IsValid := true; Get := CKeyID 1 |} 1000 1
          (StructToData_votebill Example2.benv
             {| votebill_opcode := 199; votebill_id := 9; votebill_index := 0 |});
        Ev_CommitTransaction wtx ].
Proof.
  cbv zeta.
  assert (Hfee : 0 <= OP_VOTE_BILL_FEE Example2.benv < 2 ^ 63) by (simpl; lia).
  assert (H : exists txid s',
             votebill (Example.env 1000 100000 0 false true true) Example2.venv Example2.benv
               "A" "09" "256"
               {| wallet := Example.wallet_of (Example.T 69000 30000 Example.no_values) false;
                  events := [] |} = (Return txid, s'))
    by (eexists; eexists; vm_compute; reflexivity).
  destruct H as (txid & s' & H).
  destruct (votebill_request_checked _ _ _ _ _ _ _ _ _ Hfee H)
    as (_ & _ & new & Hev & _ & Hret).
  destruct (Hret txid eq_refl) as (wtx & i & Hi & _ & ->).
  injection Hi as <-.
  exists txid, s', wtx. split; [exact H | exact Hev].
Defined.
